(** * Cero: session-gated request pipeline, subscription engine and
    billing ledger

  A shallow embedding of the C sources of the Cero platform together with
  the properties of its specification.  The embedded functions and where
  they are found in the source tree:

  - [utils/db.c] (src/unnamed/part_002, after the time utilities),
    [utils/db.h], [config/schema.sql]: module [Store];
  - [utils/string_utils.c] (src/unnamed/part_004): module [StringUtils];
  - [billing/subscription.h], and [billing/subscription.c] (the last part
    of src/src/auth/auth.c): module [Subscription];
  - [billing/entitlement.h] and [billing/entitlement.c] (in
    src/src/billing/subscription.h): module [Entitlement];
  - [billing/admin.c]: module [Billing];
  - [core/request.h], [core/response.h] (src/unnamed/part_005),
    [core/response.c] and [core/request.c] (both in
    src/src/core/response.c): module [Http];
  - [auth/session.c]: module [Session];
  - [core/router.h], [core/router.c]: module [Router];
  - [core/server.c] (src/unnamed/part_006) and the end of
    [handle_login_submit] in [auth/auth.c]: module [Server];
  - the rest of [auth/session.c] ([session_cleanup_expired],
    [session_get_by_token]): module [SessionSweep];
  - [handle_logout] of [auth/auth.c], [reports/reports.h] and
    [reports/reports.c]: module [Handlers];
  - the rest of [utils/string_utils.c] and [trim] of [utils/config.c]:
    modules [Text] and [Split];
  - [reports/csv.c]: module [Csv];
  - [response_append_body] and [response_build] of [core/response.c]:
    module [ResponseBody];
  - the password and account functions of [auth/auth.c], over a [crypt]
    taken as given: module [Auth].

  Conventions of the embedding:
  - [int] and [time_t] values are integers of [Z]; the only [int]
    arithmetic that can leave the 32-bit range ([duration_days * 24 * 60 *
    60]) is written with its wrap-around;
  - C functions that return a 0/1 truth value return [bool]; functions
    that return the status codes 0 / -1 return [Z];
  - the SQLite database is a record of tables, each a list of rows in
    rowid order; every [db_prepare], every [sqlite3_step] and every
    COMMIT consults an oracle that can make the call fail, standing for
    every cause of failure outside the modelled tables (a full disk, I/O
    errors, foreign keys into tables that are not modelled, CHECK
    constraints); the UNIQUE columns of the modelled tables and the
    foreign keys into [users] are checked by the statements themselves
    ([db_init] sets [PRAGMA foreign_keys = ON]); BEGIN, COMMIT and
    ROLLBACK have the meaning SQLite gives them on one connection, and a
    COMMIT that fails rolls the transaction back;
  - every call of [time(NULL)] is an explicit argument of the function that
    makes it. *)

From Stdlib Require Import ZArith List String Ascii Bool Lia DecimalString
  Sorted.
Import ListNotations.

Local Open Scope Z_scope.
Local Open Scope string_scope.

Set Implicit Arguments.

(* ================================================================= *)
(** ** C integers and strings *)

Module CInt.

(** Two's-complement wrap-around of a 32-bit [int]. *)
Definition wrap_int (z : Z) : Z :=
  (z + 2147483648) mod 4294967296 - 2147483648.

Definition int_mul (a b : Z) : Z := wrap_int (a * b).

Definition INT_MAX : Z := 2147483647.
Definition INT_MIN : Z := -2147483648.

End CInt.

Module StringUtils.

(** [safe_strncpy(dest, src, dest_size)]: copies at most [dest_size - 1]
    characters and always terminates the result. *)
Definition safe_strncpy (src : string) (dest_size : nat) : string :=
  match dest_size with
  | O => EmptyString
  | S n => substring 0 n src
  end.

End StringUtils.

(* ================================================================= *)
(** ** The persistent store ([config/schema.sql], [src/utils/db.c]) *)

Module Store.

(** A row of [subscriptions].  [grace_until] is a nullable INTEGER. *)
Record sub_row : Type := mk_sub_row {
  sr_id : Z;
  sr_account_id : Z;
  sr_plan : string;
  sr_status : string;
  sr_valid_from : Z;
  sr_valid_until : Z;
  sr_grace_until : option Z;
  sr_provider : string;
  sr_external_id : string;
  sr_notes : string;
  sr_created_at : Z;
  sr_updated_at : Z
}.

(** A row of [billing_events]; columns an INSERT does not list are NULL
    (or the column default). *)
Record event_row : Type := mk_event_row {
  be_id : Z;
  be_account_id : Z;
  be_event_type : string;
  be_previous_plan : option string;
  be_new_plan : option string;
  be_previous_status : option string;
  be_new_status : option string;
  be_amount_cents : option Z;
  be_currency : option string;
  be_payment_method : option string;
  be_external_reference : option string;
  be_admin_user_id : option Z;
  be_notes : option string;
  be_occurred_at : Z
}.

(** A row of [sessions]. *)
Record session_row : Type := mk_session_row {
  se_id : Z;
  se_user_id : Z;
  se_token : string;
  se_created_at : Z;
  se_expires_at : Z;
  se_last_activity_at : Z;
  se_ip_address : string;
  se_user_agent : string
}.

(** A row of [users], with the columns the queries of the code name. *)
Record user_row : Type := mk_user_row {
  us_id : Z;
  us_account_id : Z;
  us_email : string;
  us_password_hash : string;
  us_role : string;
  us_is_active : Z
}.

Record database : Type := mk_database {
  subscriptions : list sub_row;
  billing_events : list event_row;
  sessions : list session_row;
  users : list user_row
}.

Definition empty_database : database := mk_database [] [] [] [].

Definition set_subscriptions (l : list sub_row) (d : database) : database :=
  mk_database l (billing_events d) (sessions d) (users d).
Definition set_billing_events (l : list event_row) (d : database) : database :=
  mk_database (subscriptions d) l (sessions d) (users d).
Definition set_sessions (l : list session_row) (d : database) : database :=
  mk_database (subscriptions d) (billing_events d) l (users d).

(** The connection [g_db]: the committed-or-pending contents, the snapshot
    to which ROLLBACK returns while a transaction is open, and the oracle
    of failures ([true]: the next prepare, step or COMMIT fails; an
    exhausted oracle never fails). *)
Record world : Type := mk_world {
  w_db : database;
  w_saved : option database;
  w_faults : list bool
}.

Definition fresh_world (d : database) (faults : list bool) : world :=
  mk_world d None faults.

(** Result codes of [sqlite3_step]. *)
Inductive sqlite_rc : Type :=
| SQLITE_ROW
| SQLITE_DONE
| SQLITE_ERROR
| SQLITE_CONSTRAINT.

Definition is_done (rc : sqlite_rc) : bool :=
  match rc with SQLITE_DONE => true | _ => false end.

(** *** The state monad of database code *)

Definition M (A : Type) : Type := world -> A * world.

Definition ret {A : Type} (a : A) : M A := fun w => (a, w).

Definition bind {A B : Type} (m : M A) (k : A -> M B) : M B :=
  fun w => let (a, w') := m w in k a w'.

Definition next_fault : M bool :=
  fun w =>
    match w_faults w with
    | [] => (false, w)
    | b :: fs => (b, mk_world (w_db w) (w_saved w) fs)
    end.

(** [db_prepare]: 0, or -1 when [sqlite3_prepare_v2] fails. *)
Definition db_prepare : M Z :=
  bind next_fault (fun f => ret (if f then -1 else 0)).

(** [sqlite3_step] of a statement that writes; [stmt] is the meaning of
    the SQL text with its bound parameters, [None] when a constraint of
    the modelled tables rejects it. *)
Definition sqlite3_step_write (stmt : database -> option database)
  : M sqlite_rc :=
  bind next_fault (fun f =>
    if f then ret SQLITE_ERROR
    else fun w =>
      match stmt (w_db w) with
      | Some d => (SQLITE_DONE, mk_world d (w_saved w) (w_faults w))
      | None => (SQLITE_CONSTRAINT, w)
      end).

(** [sqlite3_step] of a SELECT: the first result row, if any. *)
Definition sqlite3_step_query {R : Type} (q : database -> option R)
  : M (sqlite_rc * option R) :=
  bind next_fault (fun f =>
    if f then ret (SQLITE_ERROR, None)
    else fun w =>
      match q (w_db w) with
      | Some r => ((SQLITE_ROW, Some r), w)
      | None => ((SQLITE_DONE, None), w)
      end).

(** [BEGIN TRANSACTION], [COMMIT], [ROLLBACK] through [sqlite3_exec]; the
    result is SQLite's code (0 = SQLITE_OK, otherwise an error). *)
Definition db_begin_transaction : M Z :=
  fun w =>
    match w_saved w with
    | None => (0, mk_world (w_db w) (Some (w_db w)) (w_faults w))
    | Some _ => (1, w)
    end.

(** A COMMIT can fail (SQLITE_FULL, SQLITE_IOERR): SQLite then rolls the
    transaction back. *)
Definition db_commit_transaction : M Z :=
  bind next_fault (fun f =>
    fun w =>
      match w_saved w with
      | Some d =>
          if f then (1, mk_world d None (w_faults w))
          else (0, mk_world (w_db w) None (w_faults w))
      | None => (1, w)
      end).

Definition db_rollback_transaction : M Z :=
  fun w =>
    match w_saved w with
    | Some d => (0, mk_world d None (w_faults w))
    | None => (1, w)
    end.

(** [INTEGER PRIMARY KEY]: a new row gets the largest rowid plus one. *)
Definition next_rowid {R : Type} (id : R -> Z) (rows : list R) : Z :=
  1 + fold_right (fun r m => Z.max (id r) m) 0 rows.

(** [FOREIGN KEY (...) REFERENCES users(id)] under
    [PRAGMA foreign_keys = ON]: the row inserted must name a user that
    exists; a NULL names nobody and is accepted. *)
Definition references_user (uid : option Z) (d : database) : bool :=
  match uid with
  | None => true
  | Some u => existsb (fun r => us_id r =? u)%Z (users d)
  end.

End Store.

Export Store.

Declare Scope db_scope.
Delimit Scope db_scope with db.
Notation "x <- c1 ;; c2" := (bind c1 (fun x => c2))
(at level 61, c1 at next level, right associativity) : db_scope.
Notation "c1 ;;; c2" := (bind c1 (fun _ => c2))
(at level 61, right associativity) : db_scope.
Local Open Scope db_scope.

(* ================================================================= *)
(** ** Subscriptions ([src/billing/subscription.h], [subscription.c]) *)

Module Subscription.

Inductive plan_t : Type := PLAN_FREE | PLAN_PRO | PLAN_ENTERPRISE.

Inductive subscription_status_t : Type :=
| STATUS_ACTIVE
| STATUS_GRACE_PERIOD
| STATUS_EXPIRED
| STATUS_CANCELLED.

Record subscription_t : Type := mk_subscription {
  id : Z;
  account_id : Z;
  plan : plan_t;
  status : subscription_status_t;
  valid_from : Z;
  valid_until : Z;
  grace_until : Z;   (* 0 if no grace period *)
  provider : string;
  external_id : string;
  notes : string;
  created_at : Z;
  updated_at : Z
}.

Definition subscription_plan_to_string (p : plan_t) : string :=
  match p with
  | PLAN_FREE => "free"
  | PLAN_PRO => "pro"
  | PLAN_ENTERPRISE => "enterprise"
  end.

Definition subscription_status_to_string (s : subscription_status_t)
  : string :=
  match s with
  | STATUS_ACTIVE => "active"
  | STATUS_GRACE_PERIOD => "grace_period"
  | STATUS_EXPIRED => "expired"
  | STATUS_CANCELLED => "cancelled"
  end.

Definition subscription_string_to_plan (str : string) : plan_t :=
  if str =? "free" then PLAN_FREE
  else if str =? "pro" then PLAN_PRO
  else if str =? "enterprise" then PLAN_ENTERPRISE
  else PLAN_FREE.

Definition subscription_string_to_status (str : string)
  : subscription_status_t :=
  if str =? "active" then STATUS_ACTIVE
  else if str =? "grace_period" then STATUS_GRACE_PERIOD
  else if str =? "expired" then STATUS_EXPIRED
  else if str =? "cancelled" then STATUS_CANCELLED
  else STATUS_EXPIRED.

(** [SELECT ... FROM subscriptions WHERE account_id = ?]. *)
Definition select_subscription (acc : Z) (d : database) : option sub_row :=
  find (fun r => sr_account_id r =? acc)%Z (subscriptions d).

(** The column reads of [subscription_get_by_account];
    [sqlite3_column_int64] reads NULL as 0. *)
Definition subscription_of_row (r : sub_row) : subscription_t :=
  mk_subscription
    (sr_id r) (sr_account_id r)
    (subscription_string_to_plan (sr_plan r))
    (subscription_string_to_status (sr_status r))
    (sr_valid_from r) (sr_valid_until r)
    (match sr_grace_until r with Some g => g | None => 0 end)
    (StringUtils.safe_strncpy (sr_provider r) 32)
    (StringUtils.safe_strncpy (sr_external_id r) 128)
    (StringUtils.safe_strncpy (sr_notes r) 512)
    (sr_created_at r) (sr_updated_at r).

(** [subscription_get_by_account]: [None] is the result -1. *)
Definition subscription_get_by_account (acc : Z)
  : M (option subscription_t) :=
  p <- db_prepare ;;
  if (p =? 0)%Z then
    r <- sqlite3_step_query (select_subscription acc) ;;
    match r with
    | (SQLITE_ROW, Some row) => ret (Some (subscription_of_row row))
    | _ => ret None
    end
  else ret None.

(** The test of the grace branch of [subscription_is_valid]. *)
Definition in_grace (now : Z) (sub : subscription_t) : bool :=
  (0 <? grace_until sub)%Z && (now <=? grace_until sub)%Z.

Definition status_lapsed (s : subscription_status_t) : bool :=
  match s with
  | STATUS_CANCELLED | STATUS_EXPIRED => true
  | _ => false
  end.

(** [subscription_is_valid]; [now] is its [time(NULL)]. *)
Definition subscription_is_valid (now : Z) (sub : subscription_t) : bool :=
  if status_lapsed (status sub) then
    if in_grace now sub then true else false
  else if (now <? valid_from sub)%Z || (valid_until sub <? now)%Z then false
  else true.

(** [UPDATE subscriptions SET plan = ?, status = ?, valid_until = ?,
    notes = ?, updated_at = ? WHERE account_id = ?]. *)
Definition update_sub_row (p s : string) (vu : Z) (n : string) (now acc : Z)
  (r : sub_row) : sub_row :=
  if (sr_account_id r =? acc)%Z then
    mk_sub_row (sr_id r) (sr_account_id r) p s (sr_valid_from r) vu
      (sr_grace_until r) (sr_provider r) (sr_external_id r) n
      (sr_created_at r) now
  else r.

Definition sql_update_subscription (p s : string) (vu : Z) (n : string)
  (now acc : Z) (d : database) : option database :=
  Some (set_subscriptions
          (map (update_sub_row p s vu n now acc) (subscriptions d)) d).

(** [INSERT INTO subscriptions (plan, status, valid_from, valid_until,
    grace_until, provider, external_id, notes, created_at, updated_at,
    account_id) VALUES (?, ?, ?, ?, 0, 'manual', '', ?, ?, ?, ?)]; the
    column [account_id] is UNIQUE. *)
Definition sql_insert_subscription (p s : string) (vf vu : Z) (n : string)
  (created updated acc : Z) (d : database) : option database :=
  if existsb (fun r => sr_account_id r =? acc)%Z (subscriptions d) then None
  else
    Some (set_subscriptions
            (subscriptions d ++
             [mk_sub_row (next_rowid sr_id (subscriptions d)) acc p s vf vu
                (Some 0) "manual" EmptyString n created updated]) d).

(** An INSERT into [billing_events]; the row is given up to its rowid.
    The column [admin_user_id] references [users(id)]. *)
Definition sql_insert_billing_event (row : Z -> event_row) (d : database)
  : option database :=
  let r := row (next_rowid be_id (billing_events d)) in
  if references_user (be_admin_user_id r) d
  then Some (set_billing_events (billing_events d ++ [r]) d)
  else None.

(** The ledger row of [subscription_update]: [INSERT INTO billing_events
    (account_id, event_type, previous_plan, new_plan, previous_status,
    new_status, admin_user_id, notes, occurred_at) VALUES (?,
    'subscription_update', ?, ?, ?, ?, ?, ?, ?)]. *)
Definition update_event (acc : Z) (prev_plan new_plan prev_status
  new_status : string) (admin : Z) (n : string) (now : Z) (rowid : Z)
  : event_row :=
  mk_event_row rowid acc "subscription_update"
    (Some prev_plan) (Some new_plan) (Some prev_status) (Some new_status)
    None (Some "USD") None None (Some admin) (Some n) now.

Definition notes_or_empty (n : option string) : string :=
  match n with Some s => s | None => EmptyString end.

(** [subscription_update]; [now] is its [time(NULL)], [n] the possibly
    NULL [notes]. *)
Definition subscription_update (now : Z) (acc : Z) (new_plan : plan_t)
  (new_status : subscription_status_t) (vu : Z) (admin_user_id : Z)
  (n : option string) : M Z :=
  current <- subscription_get_by_account acc ;;
  db_begin_transaction ;;;
  p <- db_prepare ;;
  if negb (p =? 0)%Z then db_rollback_transaction ;;; ret (-1)%Z
  else
    result <- sqlite3_step_write
      (match current with
       | Some _ =>
           sql_update_subscription
             (subscription_plan_to_string new_plan)
             (subscription_status_to_string new_status)
             vu (notes_or_empty n) now acc
       | None =>
           sql_insert_subscription
             (subscription_plan_to_string new_plan)
             (subscription_status_to_string new_status)
             now vu (notes_or_empty n) now now acc
       end) ;;
    if negb (is_done result) then db_rollback_transaction ;;; ret (-1)%Z
    else
      p2 <- db_prepare ;;
      if negb (p2 =? 0)%Z then db_rollback_transaction ;;; ret (-1)%Z
      else
        result2 <- sqlite3_step_write
          (sql_insert_billing_event
             (update_event acc
                (match current with
                 | Some c => subscription_plan_to_string (plan c)
                 | None => "none"
                 end)
                (subscription_plan_to_string new_plan)
                (match current with
                 | Some c => subscription_status_to_string (status c)
                 | None => "none"
                 end)
                (subscription_status_to_string new_status)
                admin_user_id (notes_or_empty n) now)) ;;
        if negb (is_done result2) then db_rollback_transaction ;;; ret (-1)%Z
        else db_commit_transaction ;;; ret 0%Z.

(** [subscription_create]; [now] is its own [time(NULL)], [now_upd] the one
    of the [subscription_update] it calls. *)
Definition subscription_create (now now_upd : Z) (acc : Z) (p : plan_t)
  : M Z :=
  let vu := (now + 365 * 24 * 60 * 60)%Z in
  subscription_update now_upd acc p STATUS_ACTIVE vu 0
    (Some "Initial subscription").

End Subscription.

Export Subscription.

(* ================================================================= *)
(** ** Entitlements ([src/billing/entitlement.h], [entitlement.c]) *)

Module Entitlement.

Inductive feature_t : Type :=
| FEATURE_BASIC_REPORTS
| FEATURE_ADVANCED_REPORTS
| FEATURE_EXTENDED_DATE_RANGE
| FEATURE_CSV_EXPORT
| FEATURE_REPORT_GROUPING
| FEATURE_API_ACCESS
| FEATURE_PRIORITY_SUPPORT.

Definition feature_eqb (a b : feature_t) : bool :=
  match a, b with
  | FEATURE_BASIC_REPORTS, FEATURE_BASIC_REPORTS
  | FEATURE_ADVANCED_REPORTS, FEATURE_ADVANCED_REPORTS
  | FEATURE_EXTENDED_DATE_RANGE, FEATURE_EXTENDED_DATE_RANGE
  | FEATURE_CSV_EXPORT, FEATURE_CSV_EXPORT
  | FEATURE_REPORT_GROUPING, FEATURE_REPORT_GROUPING
  | FEATURE_API_ACCESS, FEATURE_API_ACCESS
  | FEATURE_PRIORITY_SUPPORT, FEATURE_PRIORITY_SUPPORT => true
  | _, _ => false
  end.

(** The [switch (sub.plan)] of [entitlement_has_feature]. *)
Definition plan_grants (p : plan_t) (feature : feature_t) : bool :=
  match p with
  | PLAN_FREE => feature_eqb feature FEATURE_BASIC_REPORTS
  | PLAN_PRO => negb (feature_eqb feature FEATURE_PRIORITY_SUPPORT)
  | PLAN_ENTERPRISE => true
  end.

(** [entitlement_has_feature]; [now] is the [time(NULL)] of the
    [subscription_is_valid] it calls. *)
Definition entitlement_has_feature (now : Z) (acc : Z) (feature : feature_t)
  : M bool :=
  r <- subscription_get_by_account acc ;;
  match r with
  | None => ret false
  | Some sub =>
      if negb (subscription_is_valid now sub) then ret false
      else ret (plan_grants (plan sub) feature)
  end.

(** [entitlement_get_max_report_days]. *)
Definition entitlement_get_max_report_days (now : Z) (acc : Z) : M Z :=
  r <- subscription_get_by_account acc ;;
  match r with
  | None => ret 7%Z
  | Some sub =>
      if negb (subscription_is_valid now sub) then ret 7%Z
      else
        match plan sub with
        | PLAN_FREE => ret 7%Z
        | PLAN_PRO => ret 90%Z
        | PLAN_ENTERPRISE => ret 365%Z
        end
  end.

Definition entitlement_can_export_csv (now : Z) (acc : Z) : M bool :=
  entitlement_has_feature now acc FEATURE_CSV_EXPORT.

Definition entitlement_can_use_grouping (now : Z) (acc : Z) : M bool :=
  entitlement_has_feature now acc FEATURE_REPORT_GROUPING.

End Entitlement.

Export Entitlement.

(* ================================================================= *)
(** ** Admin billing ([src/billing/admin.c]) *)

Module Billing.

Definition text_or (dflt : string) (s : option string) : string :=
  match s with Some v => v | None => dflt end.

(** The row of [billing_log_event]: all thirteen columns are bound, a NULL
    argument as the empty string (the currency as "USD"). *)
Definition logged_event (acc : Z) (event_type : string)
  (previous_plan new_plan previous_status new_status : option string)
  (amount_cents : Z) (currency payment_method external_reference
  : option string) (admin : Z) (n : option string) (now : Z) (rowid : Z)
  : event_row :=
  mk_event_row rowid acc event_type
    (Some (text_or EmptyString previous_plan)) (Some (text_or EmptyString new_plan))
    (Some (text_or EmptyString previous_status)) (Some (text_or EmptyString new_status))
    (Some amount_cents) (Some (text_or "USD" currency))
    (Some (text_or EmptyString payment_method))
    (Some (text_or EmptyString external_reference))
    (Some admin) (Some (text_or EmptyString n)) now.

(** [billing_log_event]; [now] is its [time(NULL)]. *)
Definition billing_log_event (now : Z) (acc : Z) (event_type : string)
  (previous_plan new_plan previous_status new_status : option string)
  (amount_cents : Z) (currency payment_method external_reference
  : option string) (admin : Z) (n : option string) : M Z :=
  p <- db_prepare ;;
  if negb (p =? 0)%Z then ret (-1)%Z
  else
    result <- sqlite3_step_write
      (sql_insert_billing_event
         (logged_event acc event_type previous_plan new_plan previous_status
            new_status amount_cents currency payment_method
            external_reference admin n now)) ;;
    if negb (is_done result) then ret (-1)%Z else ret 0%Z.

(** [duration_days * 24 * 60 * 60], computed in [int]. *)
Definition duration_seconds (duration_days : Z) : Z :=
  CInt.int_mul (CInt.int_mul (CInt.int_mul duration_days 24) 60) 60.

(** [billing_mark_as_paid]; [now] is its own [time(NULL)], [now_upd] the one
    of [subscription_update] and [now_log] the one of [billing_log_event]. *)
Definition billing_mark_as_paid (now now_upd now_log : Z) (acc : Z)
  (p : plan_t) (duration_days amount_cents : Z)
  (payment_method external_reference : option string) (admin : Z)
  (n : option string) : M Z :=
  let vu := (now + duration_seconds duration_days)%Z in
  result <- subscription_update now_upd acc p STATUS_ACTIVE vu admin n ;;
  if negb (result =? 0)%Z then ret (-1)%Z
  else
    billing_log_event now_log acc "payment_received"
      None (Some (subscription_plan_to_string p))
      None (Some (subscription_status_to_string STATUS_ACTIVE))
      amount_cents (Some "USD") payment_method external_reference admin n ;;;
    ret 0%Z.

End Billing.

Export Billing.

(* ================================================================= *)
(** ** Requests and responses ([src/core/request.h], [request.c],
       [response.h], [response.c]) *)

Module Http.

Inductive http_method_t : Type :=
| HTTP_GET
| HTTP_POST
| HTTP_HEAD
| HTTP_PUT
| HTTP_DELETE
| HTTP_UNKNOWN.

Definition method_eqb (a b : http_method_t) : bool :=
  match a, b with
  | HTTP_GET, HTTP_GET
  | HTTP_POST, HTTP_POST
  | HTTP_HEAD, HTTP_HEAD
  | HTTP_PUT, HTTP_PUT
  | HTTP_DELETE, HTTP_DELETE
  | HTTP_UNKNOWN, HTTP_UNKNOWN => true
  | _, _ => false
  end.

Record http_request_t : Type := mk_request {
  method : http_method_t;
  path : string;
  query_string : string;
  http_version : string;
  headers : list (string * string);
  body : option string;
  client_ip : string;
  client_port : Z;
  cookies : list string;   (* cookie_name=value pairs *)
  user_id : Z;
  account_id : Z;
  user_email : string;
  user_role : string;
  is_authenticated : Z
}.

(** The request as [request_parse] leaves it: [memset(req, 0, ...)] clears
    the user context, the parsed fields are filled in. *)
Definition parsed_request (m : http_method_t) (p q v : string)
  (hs : list (string * string)) (b : option string) (cs : list string)
  : http_request_t :=
  mk_request m p q v hs b EmptyString 0 cs 0 0 EmptyString EmptyString 0.

(** [server_handle_client] then sets the client address. *)
Definition set_client_info (ip : string) (port : Z) (req : http_request_t)
  : http_request_t :=
  mk_request (method req) (path req) (query_string req) (http_version req)
    (headers req) (body req) (StringUtils.safe_strncpy ip 64) port
    (cookies req) (user_id req) (account_id req) (user_email req)
    (user_role req) (is_authenticated req).

(** The test of [request_get_cookie] on one stored cookie:
    [strncmp(cookie, name, name_len) == 0 && cookie[name_len] == '=']. *)
Definition cookie_named (name cookie : string) : bool :=
  prefix name cookie &&
  match get (String.length name) cookie with
  | Some c => Ascii.eqb c "="%char
  | None => false
  end.

(** [request_get_cookie]: the text after [name=] of the first cookie with
    that name, [None] for NULL. *)
Fixpoint find_cookie (name : string) (cs : list string) : option string :=
  match cs with
  | [] => None
  | c :: rest =>
      if cookie_named name c then
        Some (substring (String.length name + 1)
                (String.length c - (String.length name + 1)) c)
      else find_cookie name rest
  end.

Definition request_get_cookie (req : http_request_t) (name : string)
  : option string :=
  find_cookie name (cookies req).

Definition MAX_RESPONSE_HEADERS : nat := 32.

Record http_response_t : Type := mk_response {
  status_code : Z;
  status_message : string;
  resp_headers : list string;
  resp_body : string
}.

Definition response_new : http_response_t := mk_response 200 "OK" [] EmptyString.

Definition status_text (code : Z) : string :=
  if (code =? 200)%Z then "OK"
  else if (code =? 201)%Z then "Created"
  else if (code =? 204)%Z then "No Content"
  else if (code =? 301)%Z then "Moved Permanently"
  else if (code =? 302)%Z then "Found"
  else if (code =? 303)%Z then "See Other"
  else if (code =? 304)%Z then "Not Modified"
  else if (code =? 400)%Z then "Bad Request"
  else if (code =? 401)%Z then "Unauthorized"
  else if (code =? 403)%Z then "Forbidden"
  else if (code =? 404)%Z then "Not Found"
  else if (code =? 405)%Z then "Method Not Allowed"
  else if (code =? 429)%Z then "Too Many Requests"
  else if (code =? 500)%Z then "Internal Server Error"
  else if (code =? 503)%Z then "Service Unavailable"
  else "Unknown".

Definition response_set_status (resp : http_response_t) (code : Z)
  : http_response_t :=
  mk_response code (status_text code) (resp_headers resp) (resp_body resp).

Definition response_add_header (resp : http_response_t) (name value : string)
  : http_response_t :=
  if (MAX_RESPONSE_HEADERS <=? List.length (resp_headers resp))%nat then resp
  else
    mk_response (status_code resp) (status_message resp)
      (resp_headers resp ++ [name ++ ": " ++ value]) (resp_body resp).

Definition decimal (z : Z) : string :=
  DecimalString.NilZero.string_of_int (Z.to_int z).

Definition response_set_body (resp : http_response_t) (b : string)
  : http_response_t :=
  response_add_header
    (mk_response (status_code resp) (status_message resp)
       (resp_headers resp) b)
    "Content-Length" (decimal (Z.of_nat (String.length b))).

Definition response_set_content_type (resp : http_response_t)
  (content_type : string) : http_response_t :=
  response_add_header resp "Content-Type" content_type.

Definition response_redirect (resp : http_response_t) (url : string)
  (permanent : Z) : http_response_t :=
  response_set_body
    (response_add_header
       (response_set_status resp (if (permanent =? 0)%Z then 302 else 301))
       "Location" url)
    EmptyString.

(** The [name=value] pair that starts a [Set-Cookie] value and that the
    client sends back in its [Cookie] header. *)
Definition cookie_pair (name value : string) : string :=
  name ++ "=" ++ value.

(** [response_set_cookie], for values that fit its 1024-byte buffer. *)
Definition response_set_cookie (resp : http_response_t) (name value : string)
  (max_age http_only secure : Z) (same_site : option string)
  : http_response_t :=
  response_add_header resp "Set-Cookie"
    (cookie_pair name value
     ++ (if (0 <? max_age)%Z then "; Max-Age=" ++ decimal max_age else EmptyString)
     ++ (if (http_only =? 0)%Z then EmptyString else "; HttpOnly")
     ++ (if (secure =? 0)%Z then EmptyString else "; Secure")
     ++ (match same_site with
         | Some s => "; SameSite=" ++ s
         | None => EmptyString
         end)
     ++ "; Path=/").

End Http.

Export Http.

(* ================================================================= *)
(** ** Sessions ([src/auth/session.c]) *)

Module Session.

Definition SESSION_DURATION_SECONDS : Z := 86400 * 7.
Definition SESSION_INACTIVITY_SECONDS : Z := 86400 * 1.

(** [INSERT INTO sessions (user_id, token, created_at, expires_at,
    last_activity_at, ip_address, user_agent)]; the column [token] is
    UNIQUE and the column [user_id] references [users(id)]. *)
Definition sql_insert_session (uid : Z) (token : string) (created expires
  last : Z) (ip ua : string) (d : database) : option database :=
  if existsb (fun s => se_token s =? token) (sessions d) then None
  else if negb (references_user (Some uid) d) then None
  else
    Some (set_sessions
            (sessions d ++
             [mk_session_row (next_rowid se_id (sessions d)) uid token created
                expires last ip ua]) d).

(** [session_create]; [generated] is the result of
    [generate_random_hex(64)], [now] its [time(NULL)].  The result is the
    status code and the token copied to [token_out]. *)
Definition session_create (now : Z) (generated : option string) (uid : Z)
  (ip ua : option string) (token_size : nat) : M (Z * option string) :=
  match generated with
  | None => ret ((-1)%Z, None)
  | Some token =>
      p <- db_prepare ;;
      if negb (p =? 0)%Z then ret ((-1)%Z, None)
      else
        result <- sqlite3_step_write
          (sql_insert_session uid token now
             (now + SESSION_DURATION_SECONDS)%Z now
             (match ip with Some s => s | None => EmptyString end)
             (match ua with Some s => s | None => EmptyString end)) ;;
        if negb (is_done result) then ret ((-1)%Z, None)
        else ret (0%Z, Some (StringUtils.safe_strncpy token token_size))
  end.

(** [SELECT ... FROM sessions s JOIN users u ON s.user_id = u.id WHERE
    s.token = ? AND u.is_active = 1]: the first pair of the join. *)
Fixpoint select_session_user (token : string) (us : list user_row)
  (ss : list session_row) : option (session_row * user_row) :=
  match ss with
  | [] => None
  | s :: rest =>
      if se_token s =? token then
        match find (fun u => (us_id u =? se_user_id s)%Z
                             && (us_is_active u =? 1)%Z) us with
        | Some u => Some (s, u)
        | None => select_session_user token us rest
        end
      else select_session_user token us rest
  end.

(** [UPDATE sessions SET last_activity_at = ? WHERE token = ?]. *)
Definition touch_session (now : Z) (token : string) (s : session_row)
  : session_row :=
  if se_token s =? token then
    mk_session_row (se_id s) (se_user_id s) (se_token s) (se_created_at s)
      (se_expires_at s) now (se_ip_address s) (se_user_agent s)
  else s.

Definition sql_update_activity (now : Z) (token : string) (d : database)
  : option database :=
  Some (set_sessions (map (touch_session now token) (sessions d)) d).

(** [session_update_activity]; [now] is its [time(NULL)]. *)
Definition session_update_activity (now : Z) (token : string) : M Z :=
  p <- db_prepare ;;
  if negb (p =? 0)%Z then ret (-1)%Z
  else
    result <- sqlite3_step_write (sql_update_activity now token) ;;
    if negb (is_done result) then ret (-1)%Z else ret 0%Z.

(** The assignments under "Populate request context". *)
Definition populate_context (s : session_row) (u : user_row)
  (req : http_request_t) : http_request_t :=
  mk_request (method req) (path req) (query_string req) (http_version req)
    (headers req) (body req) (client_ip req) (client_port req) (cookies req)
    (se_user_id s) (us_account_id u)
    (StringUtils.safe_strncpy (us_email u) 256)
    (StringUtils.safe_strncpy (us_role u) 16)
    1.

(** [session_validate]; [token] is [None] for a NULL pointer, [now] is the
    [time(NULL)] of the checks and [now_upd] the one of the
    [session_update_activity] it calls.  The result is the truth value it
    returns and the request it leaves behind. *)
Definition session_validate (now now_upd : Z) (token : option string)
  (req : http_request_t) : M (bool * http_request_t) :=
  match token with
  | None => ret (false, req)
  | Some tok =>
      p <- db_prepare ;;
      if negb (p =? 0)%Z then ret (false, req)
      else
        r <- sqlite3_step_query
               (fun d => select_session_user tok (users d) (sessions d)) ;;
        match r with
        | (SQLITE_ROW, Some (s, u)) =>
            if (se_expires_at s <? now)%Z then ret (false, req)
            else if (SESSION_INACTIVITY_SECONDS
                       <? now - se_last_activity_at s)%Z
            then ret (false, req)
            else
              session_update_activity now_upd tok ;;;
              ret (true, populate_context s u req)
        | _ => ret (false, req)
        end
  end.

(** [session_delete]. *)
Definition session_delete (token : string) : M Z :=
  p <- db_prepare ;;
  if negb (p =? 0)%Z then ret (-1)%Z
  else
    result <- sqlite3_step_write
      (fun d => Some (set_sessions
         (filter (fun s => negb (se_token s =? token)) (sessions d)) d)) ;;
    if negb (is_done result) then ret (-1)%Z else ret 0%Z.

End Session.

Export Session.

(* ================================================================= *)
(** ** Routing ([src/core/router.h], [router.c]) *)

Module Router.

Definition route_handler_t : Type := http_request_t -> M http_response_t.

Record route_t : Type := mk_route {
  rt_method : http_method_t;
  rt_path : string;
  rt_handler : route_handler_t;
  requires_auth : Z;
  requires_admin : Z
}.

Definition MAX_ROUTES : nat := 100.

(** [router_add_route] on the table [routes[0 .. route_count)]. *)
Definition router_add_route (routes : list route_t) (m : http_method_t)
  (p : string) (h : route_handler_t) (auth admin : Z) : list route_t :=
  if (MAX_ROUTES <=? List.length routes)%nat then routes
  else routes ++ [mk_route m p h auth admin].

Definition login_redirect : http_response_t :=
  response_redirect response_new "/login" 0.

Definition forbidden_response : http_response_t :=
  response_set_body
    (response_set_content_type (response_set_status response_new 403)
       "text/html")
    "<h1>403 Forbidden</h1><p>Admin access required</p>".

Definition not_found_response : http_response_t :=
  response_set_body
    (response_set_content_type (response_set_status response_new 404)
       "text/html")
    "<h1>404 Not Found</h1><p>The requested page does not exist.</p>".

Definition route_matches (r : route_t) (req : http_request_t) : bool :=
  method_eqb (rt_method r) (method req) && (rt_path r =? path req).

(** [router_handle_request]: the loop over the route table. *)
Fixpoint router_handle_request (routes : list route_t) (req : http_request_t)
  : M http_response_t :=
  match routes with
  | [] => ret not_found_response
  | r :: rest =>
      if route_matches r req then
        if negb (requires_auth r =? 0)%Z && (is_authenticated req =? 0)%Z
        then ret login_redirect
        else if negb (requires_admin r =? 0)%Z
                && negb (user_role req =? "admin")
        then ret forbidden_response
        else rt_handler r req
      else router_handle_request rest req
  end.

(** The handlers that [routes_register_all] installs. *)
Record handlers : Type := mk_handlers {
  handle_home_page : route_handler_t;
  handle_login_page : route_handler_t;
  handle_login_submit : route_handler_t;
  handle_logout : route_handler_t;
  handle_dashboard : route_handler_t;
  handle_billing_page : route_handler_t;
  handle_reports_page : route_handler_t;
  handle_reports_generate : route_handler_t;
  handle_reports_export_csv : route_handler_t;
  handle_admin_billing_page : route_handler_t;
  handle_admin_mark_paid : route_handler_t;
  handle_admin_search_accounts : route_handler_t
}.

(** [router_init] followed by [routes_register_all]. *)
Definition routes_register_all (h : handlers) : list route_t :=
  let t0 := @nil route_t in
  let t1 := router_add_route t0 HTTP_GET "/" (handle_home_page h) 0 0 in
  let t2 := router_add_route t1 HTTP_GET "/login" (handle_login_page h) 0 0 in
  let t3 :=
    router_add_route t2 HTTP_POST "/login" (handle_login_submit h) 0 0 in
  let t4 := router_add_route t3 HTTP_GET "/logout" (handle_logout h) 0 0 in
  let t5 :=
    router_add_route t4 HTTP_GET "/dashboard" (handle_dashboard h) 1 0 in
  let t6 :=
    router_add_route t5 HTTP_GET "/billing" (handle_billing_page h) 1 0 in
  let t7 :=
    router_add_route t6 HTTP_GET "/reports" (handle_reports_page h) 1 0 in
  let t8 :=
    router_add_route t7 HTTP_POST "/reports/generate"
      (handle_reports_generate h) 1 0 in
  let t9 :=
    router_add_route t8 HTTP_GET "/reports/export"
      (handle_reports_export_csv h) 1 0 in
  let t10 :=
    router_add_route t9 HTTP_GET "/admin/billing"
      (handle_admin_billing_page h) 1 1 in
  let t11 :=
    router_add_route t10 HTTP_POST "/admin/billing/mark-paid"
      (handle_admin_mark_paid h) 1 1 in
  router_add_route t11 HTTP_POST "/admin/search"
    (handle_admin_search_accounts h) 1 1.

(** The route that [router_handle_request] selects, if any. *)
Definition matched_route (routes : list route_t) (req : http_request_t)
  : option route_t :=
  find (fun r => route_matches r req) routes.

End Router.

Export Router.

(* ================================================================= *)
(** ** The request pipeline ([src/core/server.c]) and the login cookie
       ([src/auth/auth.c]) *)

Module Server.

(** The name under which [server_handle_client] looks the token up. *)
Definition pipeline_cookie_name : string := "session".

(** The name under which [handle_login_submit] issues it. *)
Definition login_cookie_name : string := "session_token".

(** The end of a successful [handle_login_submit]: the session cookie and
    the redirect to the dashboard. *)
Definition login_success_response (session_token : string)
  : http_response_t :=
  response_redirect
    (response_set_cookie response_new login_cookie_name session_token
       (86400 * 7) 1 0 (Some "Strict"))
    "/dashboard" 0.

(** "Validate session (if session cookie present)". *)
Definition server_identify (now now_upd : Z) (req : http_request_t)
  : M http_request_t :=
  match request_get_cookie req pipeline_cookie_name with
  | Some session_token =>
      r <- session_validate now now_upd (Some session_token) req ;;
      ret (snd r)
  | None => ret req
  end.

(** Identification followed by "Route request to handler". *)
Definition server_dispatch (routes : list route_t) (now now_upd : Z)
  (req : http_request_t) : M http_response_t :=
  req' <- server_identify now now_upd req ;;
  router_handle_request routes req'.

End Server.

Export Server.

(* ================================================================= *)
(** ** Definitions of the specification and of the proofs *)

Module Spec.

(** The oracle replaced, the tables kept: the store before a call whose
    failures are [fs]. *)
Definition with_faults (fs : list bool) (w : world) : world :=
  mk_world (w_db w) (w_saved w) fs.

(** *** Subscription engine *)

(** The [subscriptions] table after the upsert of [subscription_update]. *)
Definition upserted (now acc : Z) (p : plan_t) (s : subscription_status_t)
  (vu : Z) (n : option string) (d : database) : list sub_row :=
  match select_subscription acc d with
  | Some _ =>
      map (update_sub_row (subscription_plan_to_string p)
             (subscription_status_to_string s) vu (notes_or_empty n) now acc)
        (subscriptions d)
  | None =>
      (subscriptions d ++
       [mk_sub_row (next_rowid sr_id (subscriptions d)) acc
          (subscription_plan_to_string p) (subscription_status_to_string s)
          now vu (Some 0) "manual" EmptyString (notes_or_empty n) now now])%list
  end.

(** The plan and status that [subscription_update] reads before it
    writes, as it prints them in the ledger. *)
Definition previous_plan_text (acc : Z) (d : database) : string :=
  match select_subscription acc d with
  | Some r => subscription_plan_to_string (subscription_string_to_plan (sr_plan r))
  | None => "none"
  end.

Definition previous_status_text (acc : Z) (d : database) : string :=
  match select_subscription acc d with
  | Some r =>
      subscription_status_to_string
        (subscription_string_to_status (sr_status r))
  | None => "none"
  end.

(** The ledger row that a successful [subscription_update] appends. *)
Definition ledger_entry (now acc : Z) (p : plan_t)
  (s : subscription_status_t) (adm : Z) (n : option string) (d : database)
  : event_row :=
  update_event acc (previous_plan_text acc d) (subscription_plan_to_string p)
    (previous_status_text acc d) (subscription_status_to_string s)
    adm (notes_or_empty n) now (next_rowid be_id (billing_events d)).

(** The second ledger row of [billing_mark_as_paid]. *)
Definition payment_entry (now_log acc : Z) (p : plan_t) (amount_cents : Z)
  (payment_method external_reference : option string) (adm : Z)
  (n : option string) (rowid : Z) : event_row :=
  logged_event acc "payment_received"
    None (Some (subscription_plan_to_string p))
    None (Some (subscription_status_to_string STATUS_ACTIVE))
    amount_cents (Some "USD") payment_method external_reference adm n
    now_log rowid.

(** Whether the oracle makes one of the two store calls of a
    [billing_log_event] that starts in [w] fail. *)
Definition log_fails (w : world) : bool :=
  hd false (w_faults w) || hd false (tl (w_faults w)).

(** The states of the store that [subscription_update] and
    [subscription_create] alone produce, from empty [subscriptions] and
    [billing_events] tables, whatever fails on the way. *)
Inductive engine_reachable : world -> Prop :=
| engine_init : forall ss us fs,
    engine_reachable (mk_world (mk_database [] [] ss us) None fs)
| engine_update : forall w fs now acc p s vu adm n,
    engine_reachable w ->
    engine_reachable
      (snd (subscription_update now acc p s vu adm n (with_faults fs w)))
| engine_create : forall w fs now now_upd acc p,
    engine_reachable w ->
    engine_reachable
      (snd (subscription_create now now_upd acc p (with_faults fs w))).

(** A call of [subscription_update] that answered 0 although nothing was
    stored: its COMMIT failed, SQLite rolled the transaction back, and
    the code did not look at the result. *)
Definition commit_lost (now acc : Z) (p : plan_t)
  (s : subscription_status_t) (vu adm : Z) (n : option string) (w : world)
  : Prop :=
  fst (subscription_update now acc p s vu adm n w) = 0%Z /\
  w_db (snd (subscription_update now acc p s vu adm n w)) = w_db w.

(** The same with the admin action [billing_mark_as_paid], but for the
    calls of it whose subscription update lost its COMMIT. *)
Inductive billing_reachable : world -> Prop :=
| billing_init : forall ss us fs,
    billing_reachable (mk_world (mk_database [] [] ss us) None fs)
| billing_update : forall w fs now acc p s vu adm n,
    billing_reachable w ->
    billing_reachable
      (snd (subscription_update now acc p s vu adm n (with_faults fs w)))
| billing_create : forall w fs now now_upd acc p,
    billing_reachable w ->
    billing_reachable
      (snd (subscription_create now now_upd acc p (with_faults fs w)))
| billing_paid : forall w fs now now_upd now_log acc p days amount pm ref
    adm n,
    billing_reachable w ->
    ~ commit_lost now_upd acc p STATUS_ACTIVE
        (now + duration_seconds days)%Z adm n (with_faults fs w) ->
    billing_reachable
      (snd (billing_mark_as_paid now now_upd now_log acc p days amount pm
              ref adm n (with_faults fs w))).

(** The ledger of one account, in rowid order. *)
Definition events_for (acc : Z) (d : database) : list event_row :=
  filter (fun e => (be_account_id e =? acc)%Z) (billing_events d).

(** Replay, after the specification: each event's recorded transition
    leads to its new plan and status, starting from no subscription. *)
Definition apply_event (st : option (string * string)) (e : event_row)
  : option (string * string) :=
  match be_new_plan e, be_new_status e with
  | Some p, Some s => Some (p, s)
  | _, _ => st
  end.

Definition replay_events (evs : list event_row) : option (string * string) :=
  fold_left apply_event evs None.

Definition plan_and_status (r : sub_row) : string * string :=
  (sr_plan r, sr_status r).

(** The replay of an account's ledger gives the plan and status of its
    subscription row, and nothing when it has none. *)
Definition ledger_invariant (d : database) : Prop :=
  forall acc,
    replay_events (events_for acc d)
    = option_map plan_and_status (select_subscription acc d).

(** A row whose plan and status are texts of [subscription_plan_to_string]
    and [subscription_status_to_string]. *)
Definition canonical_row (r : sub_row) : Prop :=
  (exists p, sr_plan r = subscription_plan_to_string p) /\
  (exists s, sr_status r = subscription_status_to_string s).

(** The specification's replay property read literally: the ledger of an
    account determines its whole subscription row. *)
Definition ledger_determines_subscription : Prop :=
  exists replay : list event_row -> option sub_row,
    forall w acc,
      billing_reachable w ->
      replay (events_for acc (w_db w)) = select_subscription acc (w_db w).

(** The specification's [markPaid] read literally: one new ledger entry,
    with the new plan and the amount. *)
Definition mark_paid_single_entry : Prop :=
  forall now now_upd now_log acc p days amount pm ref adm n w rc w',
    w_saved w = None ->
    billing_mark_as_paid now now_upd now_log acc p days amount pm ref adm n w
    = (rc, w') ->
    rc = 0%Z ->
    exists ev,
      billing_events (w_db w') = (billing_events (w_db w) ++ [ev])%list /\
      be_new_plan ev = Some (subscription_plan_to_string p) /\
      be_amount_cents ev = Some amount.

(** The validity check, after the specification. *)
Definition spec_is_valid (now : Z) (sub : subscription_t) : bool :=
  match status sub with
  | STATUS_ACTIVE =>
      (valid_from sub <=? now)%Z && (now <=? valid_until sub)%Z
  | STATUS_GRACE_PERIOD | STATUS_EXPIRED | STATUS_CANCELLED =>
      negb (grace_until sub =? 0)%Z && (now <=? grace_until sub)%Z
  end.

(** *** Entitlements *)

(** What the free tier grants: the [PLAN_FREE] case of the code. *)
Definition free_tier_grants (feature : feature_t) : bool :=
  plan_grants PLAN_FREE feature.

(** No subscription row can be read, or the one read is not valid. *)
Definition no_valid_subscription (now acc : Z) (w : world) : Prop :=
  match fst (subscription_get_by_account acc w) with
  | None => True
  | Some sub => subscription_is_valid now sub = false
  end.

(** The specification read literally: without a valid subscription the
    answer is that of the free tier. *)
Definition fails_closed_to_free_tier : Prop :=
  forall now acc feature w,
    no_valid_subscription now acc w ->
    fst (entitlement_has_feature now acc feature w)
    = free_tier_grants feature.

(** *** Sessions *)

(** The session and user that the lookup of [session_validate] selects. *)
Definition lookup_session (token : string) (w : world)
  : option (session_row * user_row) :=
  select_session_user token (users (w_db w)) (sessions (w_db w)).

(** Whether the prepare or the step of the lookup fails. *)
Definition lookup_fails (w : world) : bool :=
  hd false (w_faults w) || hd false (tl (w_faults w)).

(** Whether the prepare or the step of the activity UPDATE fails; they are
    the third and fourth store calls of a validation. *)
Definition activity_update_fails (w : world) : bool :=
  hd false (tl (tl (w_faults w))) || hd false (tl (tl (tl (w_faults w)))).

(** The store after the activity UPDATE of a validation that starts in
    [w]. *)
Definition touched (now_upd : Z) (tok : string) (w : world) : database :=
  if activity_update_fails w then w_db w
  else set_sessions (map (touch_session now_upd tok) (sessions (w_db w)))
         (w_db w).

(** The specification read literally: a session is rejected from the
    instant [expires_at] on, and from an idle time equal to the window
    on. *)
Definition rejects_at_the_limits : Prop :=
  forall now now_upd token req w s u,
    lookup_session token w = Some (s, u) ->
    (se_expires_at s <= now \/
     SESSION_INACTIVITY_SECONDS <= now - se_last_activity_at s)%Z ->
    fst (fst (session_validate now now_upd (Some token) req w)) = false.

(** *** The cookie of a login *)

(** The [name=value] pair of a [Set-Cookie] header, which is what a
    client keeps and sends back: the text up to the first [;]. *)
Fixpoint until_semicolon (s : string) : string :=
  match s with
  | EmptyString => EmptyString
  | String c rest =>
      if Ascii.eqb c ";" then EmptyString
      else String c (until_semicolon rest)
  end.

(** What follows [p] in [s], when [s] starts with [p]. *)
Fixpoint after_prefix (p s : string) : option string :=
  match p, s with
  | EmptyString, _ => Some s
  | String a p', String b s' =>
      if Ascii.eqb a b then after_prefix p' s' else None
  | String _ _, EmptyString => None
  end.

Definition cookie_of_header (h : string) : option string :=
  option_map until_semicolon (after_prefix "Set-Cookie: " h).

Fixpoint cookies_of_headers (hs : list string) : list string :=
  match hs with
  | [] => []
  | h :: rest =>
      match cookie_of_header h with
      | Some c => c :: cookies_of_headers rest
      | None => cookies_of_headers rest
      end
  end.

(** The cookies that a response sets. *)
Definition cookies_set_by (resp : http_response_t) : list string :=
  cookies_of_headers (resp_headers resp).

(** The claim read literally: a request that presents the cookie set at
    login is never identified. *)
Definition login_cookie_is_never_accepted : Prop :=
  forall tok cs m p q v hs b now now_upd w,
    (forall c, In c (cookies_set_by (login_success_response tok)) ->
               In c cs) ->
    is_authenticated
      (fst (server_identify now now_upd (parsed_request m p q v hs b cs) w))
    = 0%Z.

(** All the columns of a session but [last_activity_at] agree. *)
Definition same_but_activity (s s' : session_row) : Prop :=
  se_id s' = se_id s /\
  se_user_id s' = se_user_id s /\
  se_token s' = se_token s /\
  se_created_at s' = se_created_at s /\
  se_expires_at s' = se_expires_at s /\
  se_ip_address s' = se_ip_address s /\
  se_user_agent s' = se_user_agent s.

(** *** Sample data *)

Definition sample_user : user_row :=
  mk_user_row 7 1 "ada@example.com" "$6$salt$hash" "user" 1.

Definition sample_session : session_row :=
  mk_session_row 1 7 "c0ffee" 400 1000 990 "10.0.0.1" "curl".

Definition sample_database : database :=
  mk_database [] [] [sample_session] [sample_user].

(** The user 0 that [subscription_create] names as the administrator of
    its ledger row. *)
Definition system_user : user_row :=
  mk_user_row 0 1 "system@example.com" "$6$salt$hash" "admin" 1.

(** Empty tables but for the users 0 and 7. *)
Definition staffed_database : database :=
  mk_database [] [] [] [system_user; sample_user].

Definition sample_world : world := fresh_world sample_database [].

Definition sample_request : http_request_t :=
  parsed_request HTTP_GET "/admin/billing" EmptyString "HTTP/1.1" [] None
    [cookie_pair login_cookie_name "c0ffee"].

(** The populated context of an authenticated user of role "user". *)
Definition authenticated_request : http_request_t :=
  populate_context sample_session sample_user sample_request.

(** A subscription in status [grace_period] whose paid period ended at 100
    and whose grace period runs until 200. *)
Definition grace_subscription : subscription_t :=
  mk_subscription 1 1 PLAN_PRO STATUS_GRACE_PERIOD 0 100 200
    "manual" EmptyString EmptyString 0 0.

(** A subscription in status [expired] with grace until 200. *)
Definition expired_subscription : subscription_t :=
  mk_subscription 1 1 PLAN_PRO STATUS_EXPIRED 0 100 200 "manual" EmptyString EmptyString 0 0.

(** An account created on the free plan at 1000, then moved to pro and
    cancelled at 1200. *)
Definition cancelled_account : world :=
  snd (subscription_update 1200 1 PLAN_PRO STATUS_CANCELLED 2000 7
         (Some "cancelled on request")
         (with_faults []
            (snd (subscription_create 1000 1000 1 PLAN_FREE
                    (with_faults []
                       (mk_world staffed_database None [])))))).

Definition cancelled_subscription : subscription_t :=
  mk_subscription 1 1 PLAN_PRO STATUS_CANCELLED 1000 2000 0 "manual" EmptyString
    "cancelled on request" 1000 1200.

(** The scenario of the specification: an account on the free plan for a
    year from 1000, marked as paid at 2000 for 30 days of pro at 4900
    cents. *)
Definition free_account : world :=
  snd (subscription_create 1000 1000 1 PLAN_FREE
         (fresh_world staffed_database [])).

Definition paid_account : world :=
  snd (billing_mark_as_paid 2000 2000 2000 1 PLAN_PRO 30 4900
         (Some "bank_transfer") (Some "INV-1") 7 None free_account).

(** Two histories of one call each, equal but for [valid_until]. *)
Definition pro_until_2000 : world :=
  snd (subscription_update 1000 1 PLAN_PRO STATUS_ACTIVE 2000 7 None
         (with_faults [] (mk_world staffed_database None []))).

Definition pro_until_3000 : world :=
  snd (subscription_update 1000 1 PLAN_PRO STATUS_ACTIVE 3000 7 None
         (with_faults [] (mk_world staffed_database None []))).

(** Handlers that answer with an empty page. *)
Definition sample_handler : route_handler_t := fun _ => ret response_new.

Definition sample_handlers : handlers :=
  mk_handlers sample_handler sample_handler sample_handler sample_handler
    sample_handler sample_handler sample_handler sample_handler
    sample_handler sample_handler sample_handler sample_handler.

End Spec.

Export Spec.

Unset Implicit Arguments.

(* ================================================================= *)
(** ** Sessions, continued ([src/auth/session.c], [session.h]) *)

Module SessionSweep.

(** [session_t] of [session.h]. *)
Record session_t : Type := mk_session {
  sn_id : Z;
  sn_user_id : Z;
  sn_token : string;
  sn_created_at : Z;
  sn_expires_at : Z;
  sn_last_activity_at : Z;
  sn_ip_address : string;
  sn_user_agent : string
}.

(** The rows of the [DELETE FROM sessions WHERE expires_at < ? OR
    last_activity_at < ?] of [session_cleanup_expired], the second
    parameter being [now - SESSION_INACTIVITY_SECONDS]. *)
Definition swept (now : Z) (s : session_row) : bool :=
  (se_expires_at s <? now)%Z
  || (se_last_activity_at s <? now - SESSION_INACTIVITY_SECONDS)%Z.

Definition sql_delete_expired (now : Z) (d : database) : option database :=
  Some (set_sessions (filter (fun s => negb (swept now s)) (sessions d)) d).

(** The tables as the connection sees them, for [sqlite3_changes]. *)
Definition current_database : M database := fun w => (w_db w, w).

(** [session_cleanup_expired]; [now] is its [time(NULL)].  The result is
    -1 or [sqlite3_changes], the number of rows the DELETE removed. *)
Definition session_cleanup_expired (now : Z) : M Z :=
  p <- db_prepare ;;
  if negb (p =? 0)%Z then ret (-1)%Z
  else
    before <- current_database ;;
    result <- sqlite3_step_write (sql_delete_expired now) ;;
    if negb (is_done result) then ret (-1)%Z
    else
      ret (Z.of_nat (List.length (filter (swept now) (sessions before)))).

(** [SELECT ... FROM sessions WHERE token = ?]. *)
Definition select_session (token : string) (d : database)
  : option session_row :=
  find (fun s => se_token s =? token) (sessions d).

(** The column reads of [session_get_by_token]. *)
Definition session_of_row (s : session_row) : session_t :=
  mk_session (se_id s) (se_user_id s)
    (StringUtils.safe_strncpy (se_token s) 65)
    (se_created_at s) (se_expires_at s) (se_last_activity_at s)
    (StringUtils.safe_strncpy (se_ip_address s) 64)
    (StringUtils.safe_strncpy (se_user_agent s) 256).

(** [session_get_by_token]: [None] is the result -1. *)
Definition session_get_by_token (token : string) : M (option session_t) :=
  p <- db_prepare ;;
  if negb (p =? 0)%Z then ret None
  else
    r <- sqlite3_step_query (select_session token) ;;
    match r with
    | (SQLITE_ROW, Some s) => ret (Some (session_of_row s))
    | _ => ret None
    end.

(** The row that [session_create] inserts. *)
Definition new_session (now uid : Z) (tok : string) (ip ua : option string)
  (d : database) : session_row :=
  mk_session_row (next_rowid se_id (sessions d)) uid tok now
    (now + SESSION_DURATION_SECONDS)%Z now
    (match ip with Some s => s | None => EmptyString end)
    (match ua with Some s => s | None => EmptyString end).

(** One call of the session manager, whatever fails in the store. *)
Inductive session_step : world -> world -> Prop :=
| step_create : forall w fs now generated uid ip ua size,
    session_step w
      (snd (session_create now generated uid ip ua size (with_faults fs w)))
| step_validate : forall w fs now now_upd token req,
    session_step w
      (snd (session_validate now now_upd token req (with_faults fs w)))
| step_delete : forall w fs token,
    session_step w (snd (session_delete token (with_faults fs w)))
| step_cleanup : forall w fs now,
    session_step w (snd (session_cleanup_expired now (with_faults fs w))).

(** The stores that the session manager produces from a store without
    sessions. *)
Inductive session_reachable : world -> Prop :=
| sessions_init : forall subs evs us sv fs,
    session_reachable (mk_world (mk_database subs evs [] us) sv fs)
| sessions_step : forall w w',
    session_reachable w -> session_step w w' -> session_reachable w'.

(** Any number of validations, of any tokens at any times. *)
Inductive validations : world -> world -> Prop :=
| validations_none : forall w, validations w w
| validations_more : forall w w1 fs now now_upd token req,
    validations w w1 ->
    validations w
      (snd (session_validate now now_upd token req (with_faults fs w1))).

(** No two sessions share a token, and no two share a rowid. *)
Definition unique_sessions (d : database) : Prop :=
  NoDup (map se_token (sessions d)) /\ NoDup (map se_id (sessions d)).

End SessionSweep.

Export SessionSweep.

(* ================================================================= *)
(** ** The ledger as a chain of transitions *)

Module LedgerChain.

(** The plan and status texts of a replay state; ["none"] before the
    first event, as [subscription_update] prints it. *)
Definition state_text (st : option (string * string)) : string * string :=
  match st with
  | Some ps => ps
  | None => ("none", "none")
  end.

(** An event of type [subscription_update] starts where the events
    before it ended. *)
Definition continues (st : option (string * string)) (e : event_row)
  : bool :=
  if be_event_type e =? "subscription_update" then
    match be_previous_plan e, be_previous_status e with
    | Some pp, Some ps =>
        (pp =? fst (state_text st)) && (ps =? snd (state_text st))
    | _, _ => false
    end
  else true.

Fixpoint chained (st : option (string * string)) (evs : list event_row)
  : bool :=
  match evs with
  | [] => true
  | e :: rest => continues st e && chained (apply_event st e) rest
  end.

(** Each account's ledger is a chain, the rowids of the ledger grow, and
    its events are of the two types that the engine writes. *)
Definition ledger_chained (d : database) : Prop :=
  (forall acc, chained None (events_for acc d) = true) /\
  StronglySorted Z.lt (map be_id (billing_events d)) /\
  Forall (fun e => be_event_type e = "subscription_update"
                   \/ be_event_type e = "payment_received")
    (billing_events d).

(** The report length in days that [entitlement_get_max_report_days]
    gives each plan. *)
Definition plan_report_days (p : plan_t) : Z :=
  match p with
  | PLAN_FREE => 7
  | PLAN_PRO => 90
  | PLAN_ENTERPRISE => 365
  end%Z.

End LedgerChain.

Export LedgerChain.

(* ================================================================= *)
(** ** Route handlers and reports ([src/auth/auth.c],
    [src/reports/reports.h], [reports.c]) *)

Module Handlers.

(** [response_delete_cookie]. *)
Definition response_delete_cookie (resp : http_response_t) (name : string)
  : http_response_t :=
  response_set_cookie resp name EmptyString (-1) 1 0 (Some "Strict").

(** [handle_logout]. *)
Definition handle_logout (req : http_request_t) : M http_response_t :=
  let resp := response_new in
  (match request_get_cookie req "session_token" with
   | Some token => session_delete token ;;; ret tt
   | None => ret tt
   end) ;;;
  ret (response_redirect (response_delete_cookie resp "session_token") "/" 0).

Inductive report_grouping_t : Type :=
| GROUP_NONE
| GROUP_BY_DAY
| GROUP_BY_WEEK
| GROUP_BY_MONTH.

Record report_params_t : Type := mk_report_params {
  start_date : Z;
  end_date : Z;
  grouping : report_grouping_t;
  export_csv : Z
}.

Record report_row_t : Type := mk_report_row {
  date : string;
  user_count : Z;
  session_count : Z;
  account_count : Z
}.

(** [(int)(diff / (24 * 60 * 60))]: the division of C truncates, the
    cast wraps. *)
Definition report_days (params : report_params_t) : Z :=
  CInt.wrap_int (Z.quot (end_date params - start_date params) (24 * 60 * 60)).

(** [report_generate]; [format] is [format_timestamp_iso8601] into the
    32 bytes of a row's [date], [allocated] whether [calloc] returned
    memory.  [None] is the result -1, otherwise the rows and their
    number. *)
Definition report_generate (format : Z -> string) (allocated : bool)
  (acc : Z) (params : report_params_t) : option (list report_row_t * Z) :=
  let days := report_days params in
  if (days <=? 0)%Z then None
  else if negb allocated then None
  else
    Some (map (fun i =>
                 mk_report_row
                   (format (start_date params + Z.of_nat i * (24 * 60 * 60))%Z)
                   (1 + Z.rem (Z.of_nat i) 5)%Z
                   (5 + Z.rem (Z.of_nat i) 10)%Z
                   1%Z)
            (seq 0 (Z.to_nat days)),
          days).

(** The short-circuit test [a && !f()] of C. *)
Definition and_not (a : bool) (f : M bool) : M bool :=
  if a then can <- f ;; ret (negb can) else ret false.

Definition is_group_none (g : report_grouping_t) : bool :=
  match g with GROUP_NONE => true | _ => false end.

(** [report_validate_params]; [now1], [now2] and [now3] are the clocks
    of the three entitlement checks.  The result is the status code and
    the text left in [error_message]. *)
Definition report_validate_params (now1 now2 now3 : Z) (acc : Z)
  (params : report_params_t) (error_size : nat) : M (Z * option string) :=
  let days := report_days params in
  max_days <- entitlement_get_max_report_days now1 acc ;;
  if (max_days <? days)%Z then
    ret ((-1)%Z,
         Some (StringUtils.safe_strncpy
                 ("Date range exceeds maximum of " ++ decimal max_days
                  ++ " days for your plan") error_size))
  else
    csv_denied <- and_not (negb (export_csv params =? 0)%Z)
                    (entitlement_can_export_csv now2 acc) ;;
    if csv_denied then
      ret ((-1)%Z,
           Some (StringUtils.safe_strncpy
                   "CSV export not available on your plan" error_size))
    else
      grouping_denied <- and_not (negb (is_group_none (grouping params)))
                           (entitlement_can_use_grouping now3 acc) ;;
      if grouping_denied then
        ret ((-1)%Z,
             Some (StringUtils.safe_strncpy
                     "Report grouping not available on your plan"
                     error_size))
      else ret (0%Z, None).

(** [handle_reports_export_csv]; [now] is the clock of its entitlement
    check. *)
Definition handle_reports_export_csv (now : Z) (req : http_request_t)
  : M http_response_t :=
  let resp := response_new in
  can <- entitlement_can_export_csv now (account_id req) ;;
  if negb can then
    ret (response_set_body
           (response_set_content_type (response_set_status resp 403)
              "text/html")
           "<h1>Access Denied</h1><p>CSV export not available on your plan</p>")
  else
    ret (response_set_body
           (response_add_header
              (response_set_content_type resp "text/csv")
              "Content-Disposition"
              ("attachment; filename=" ++ String "034" "report.csv"
               ++ String "034" EmptyString))
           ("Date,Users,Sessions,Accounts" ++ String "010"
              ("2024-01-01,5,10,1" ++ String "010"
                 ("2024-01-02,3,8,1" ++ String "010" EmptyString)))).

(** Two handler tables with the same handlers on the routes that ask for
    no session. *)
Definition public_handlers_agree (h1 h2 : handlers) : Prop :=
  Router.handle_home_page h1 = Router.handle_home_page h2 /\
  Router.handle_login_page h1 = Router.handle_login_page h2 /\
  Router.handle_login_submit h1 = Router.handle_login_submit h2 /\
  Router.handle_logout h1 = Router.handle_logout h2.

(** The same on the routes that do not ask for an administrator. *)
Definition user_handlers_agree (h1 h2 : handlers) : Prop :=
  public_handlers_agree h1 h2 /\
  Router.handle_dashboard h1 = Router.handle_dashboard h2 /\
  Router.handle_billing_page h1 = Router.handle_billing_page h2 /\
  Router.handle_reports_page h1 = Router.handle_reports_page h2 /\
  Router.handle_reports_generate h1 = Router.handle_reports_generate h2 /\
  Router.handle_reports_export_csv h1 = Router.handle_reports_export_csv h2.

End Handlers.

Export Handlers.

(* ================================================================= *)
(** ** Text utilities ([utils/string_utils.c] in src/unnamed/part_004,
    [trim] of [src/utils/config.c]) *)

Module Text.

Definition code (c : ascii) : nat := nat_of_ascii c.

(** The classes of [<ctype.h>] in the C locale. *)
Definition isdigit (c : ascii) : bool :=
  ((48 <=? code c) && (code c <=? 57))%nat.

Definition isupper (c : ascii) : bool :=
  ((65 <=? code c) && (code c <=? 90))%nat.

Definition islower (c : ascii) : bool :=
  ((97 <=? code c) && (code c <=? 122))%nat.

Definition isalnum (c : ascii) : bool :=
  isdigit c || isupper c || islower c.

Definition isspace (c : ascii) : bool :=
  ((code c =? 32) || ((9 <=? code c) && (code c <=? 13)))%nat.

Definition tolower (c : ascii) : ascii :=
  if isupper c then ascii_of_nat (code c + 32) else c.

(** The digit that [%X] prints for a value below 16. *)
Definition hex_digit_upper (n : nat) : ascii :=
  if (n <? 10)%nat then ascii_of_nat (48 + n) else ascii_of_nat (55 + n).

(** One turn of the loop of [url_encode]. *)
Definition url_encode_char (c : ascii) : string :=
  if isalnum c || (c =? "-")%char || (c =? "_")%char || (c =? ".")%char
     || (c =? "~")%char
  then String c EmptyString
  else if (c =? " ")%char then "+"
  else String "%" (String (hex_digit_upper (code c / 16))
                     (String (hex_digit_upper (code c mod 16)) EmptyString)).

Fixpoint url_encode (str : string) : string :=
  match str with
  | EmptyString => EmptyString
  | String c rest => url_encode_char c ++ url_encode rest
  end.

(** The [switch] of [html_escape]. *)
Definition html_escape_char (c : ascii) : string :=
  if (c =? "<")%char then "&lt;"
  else if (c =? ">")%char then "&gt;"
  else if (c =? "&")%char then "&amp;"
  else if (c =? "034")%char then "&quot;"
  else if (c =? "'")%char then "&#39;"
  else String c EmptyString.

Fixpoint html_escape (str : string) : string :=
  match str with
  | EmptyString => EmptyString
  | String c rest => html_escape_char c ++ html_escape rest
  end.

(** [strcasecmp_portable]; at the end of a string the character read is
    the terminating zero. *)
Fixpoint strcasecmp_portable (s1 s2 : string) : Z :=
  match s1, s2 with
  | String a r1, String b r2 =>
      if (tolower a =? tolower b)%char then strcasecmp_portable r1 r2
      else (Z.of_nat (code (tolower a)) - Z.of_nat (code (tolower b)))%Z
  | String a _, EmptyString => (Z.of_nat (code (tolower a)) - 0)%Z
  | EmptyString, String b _ => (0 - Z.of_nat (code (tolower b)))%Z
  | EmptyString, EmptyString => 0%Z
  end.

(** The loop that moves [start] over the leading white space, as an
    index. *)
Fixpoint leading_spaces (str : string) : nat :=
  match str with
  | String c rest => if isspace c then S (leading_spaces rest) else O
  | EmptyString => O
  end.

(** The loop that moves [end] back over white space while
    [end > start], as an index. *)
Fixpoint back_over_spaces (str : string) (start e : nat) : nat :=
  match e with
  | O => O
  | S e' =>
      if (start <? e)%nat
         && match get e str with Some c => isspace c | None => false end
      then back_over_spaces str start e'
      else e
  end.

(** [str_trim]: [len = end - start + 1] characters from [start]. *)
Definition str_trim (str : string) : string :=
  match str with
  | EmptyString => str
  | _ =>
      let start := leading_spaces str in
      let e := back_over_spaces str start (String.length str - 1) in
      substring start (e + 1 - start) str
  end.

(** [trim] of [config.c]. *)
Definition trim (str : string) : string :=
  let start := leading_spaces str in
  match get start str with
  | None => EmptyString
  | Some _ =>
      let e :=
        back_over_spaces str start
          (start + (String.length str - start) - 1) in
      substring start (e + 1 - start) str
  end.

(** [str_starts_with]. *)
Definition str_starts_with (str pre : string) : bool :=
  if (String.length str <? String.length pre)%nat then false
  else substring 0 (String.length pre) str =? pre.

(** [str_ends_with]. *)
Definition str_ends_with (str suffix : string) : bool :=
  if (String.length str <? String.length suffix)%nat then false
  else
    substring (String.length str - String.length suffix)
      (String.length suffix) str =? suffix.

(** A string of C holds no zero byte. *)
Fixpoint c_string (s : string) : Prop :=
  match s with
  | EmptyString => True
  | String c rest => c <> zero /\ c_string rest
  end.

Fixpoint lowercase (s : string) : string :=
  match s with
  | EmptyString => EmptyString
  | String c rest => String (tolower c) (lowercase rest)
  end.

(** A reader of what [url_encode] writes, for the round trip. *)
Definition hex_value (c : ascii) : nat :=
  if isdigit c then code c - 48 else code c - 55.

Fixpoint percent_decode (s : string) : string :=
  match s with
  | EmptyString => EmptyString
  | String c rest =>
      if (c =? "%")%char then
        match rest with
        | String h (String l rest') =>
            String (ascii_of_nat (16 * hex_value h + hex_value l))
              (percent_decode rest')
        | _ => String c (percent_decode rest)
        end
      else if (c =? "+")%char then String " " (percent_decode rest)
      else String c (percent_decode rest)
  end.

Fixpoint all_chars (p : ascii -> bool) (s : string) : bool :=
  match s with
  | EmptyString => true
  | String c rest => p c && all_chars p rest
  end.

(** The characters that [url_encode] may write. *)
Definition is_url_char (c : ascii) : bool :=
  isalnum c || (c =? "-")%char || (c =? "_")%char || (c =? ".")%char
  || (c =? "~")%char || (c =? "+")%char || (c =? "%")%char.

Definition is_markup (c : ascii) : bool :=
  (c =? "<")%char || (c =? ">")%char || (c =? "034")%char || (c =? "'")%char.

End Text.

Export Text.

(* ================================================================= *)
(** ** CSV export ([src/reports/csv.c]) *)

Module Csv.

Definition quote : ascii := "034".
Definition comma : ascii := ",".
Definition newline : ascii := "010".
Definition carriage_return : ascii := "013".

(** The test of the first loop of [csv_escape_field]. *)
Definition needs_escape (c : ascii) : bool :=
  (c =? comma)%char || (c =? quote)%char || (c =? newline)%char
  || (c =? carriage_return)%char.

Fixpoint field_needs_escape (field : string) : bool :=
  match field with
  | EmptyString => false
  | String c rest => needs_escape c || field_needs_escape rest
  end.

(** The second loop: the quotes that need doubling. *)
Fixpoint count_quotes (field : string) : nat :=
  match field with
  | EmptyString => O
  | String c rest =>
      if (c =? quote)%char then S (count_quotes rest) else count_quotes rest
  end.

(** [escaped_len], as the code computes it before it allocates
    [escaped_len + 1] bytes. *)
Definition escaped_len (field : string) : nat :=
  (String.length field + 2 + count_quotes field)%nat.

(** The third loop. *)
Fixpoint double_quotes (field : string) : string :=
  match field with
  | EmptyString => EmptyString
  | String c rest =>
      if (c =? quote)%char then String quote (String quote (double_quotes rest))
      else String c (double_quotes rest)
  end.

(** [csv_escape_field]; [None] is the NULL field. *)
Definition csv_escape_field (field : option string) : string :=
  match field with
  | None => EmptyString
  | Some f =>
      if field_needs_escape f
      then String quote (double_quotes f ++ String quote EmptyString)
      else f
  end.

(** [csv_append] on the text of the writer's buffer. *)
Definition csv_append (buffer str : string) : string := buffer ++ str.

(** The loop of [csv_add_row] and [csv_add_header]: each field escaped,
    a comma after all but the last. *)
Fixpoint csv_add_fields (buffer : string) (values : list (option string))
  : string :=
  match values with
  | [] => buffer
  | v :: rest =>
      let buffer1 := csv_append buffer (csv_escape_field v) in
      match rest with
      | [] => buffer1
      | _ => csv_add_fields (csv_append buffer1 (String comma EmptyString)) rest
      end
  end.

Definition csv_add_row (buffer : string) (values : list (option string))
  : string :=
  csv_append (csv_add_fields buffer values) (String newline EmptyString).

Definition csv_add_header (buffer : string) (columns : list (option string))
  : string :=
  csv_append (csv_add_fields buffer columns) (String newline EmptyString).

(** A reader of one record in the format of RFC 4180, to state what the
    writer's text means: the fields up to the first line feed outside
    quotes, and the text after it. *)
Inductive csv_state : Type :=
| AtFieldStart
| InPlainField
| InQuotedField
| AfterQuote.

Fixpoint csv_read (st : csv_state) (cur : string) (done : list string)
  (text : string) : option (list string * string) :=
  match text with
  | EmptyString => None
  | String c rest =>
      match st with
      | AtFieldStart | InPlainField =>
          if (c =? comma)%char
          then csv_read AtFieldStart EmptyString (done ++ [cur])%list rest
          else if (c =? newline)%char then Some ((done ++ [cur])%list, rest)
          else if (c =? quote)%char then
            match st with
            | AtFieldStart => csv_read InQuotedField EmptyString done rest
            | _ => None
            end
          else csv_read InPlainField (cur ++ String c EmptyString) done rest
      | InQuotedField =>
          if (c =? quote)%char then csv_read AfterQuote cur done rest
          else csv_read InQuotedField (cur ++ String c EmptyString) done rest
      | AfterQuote =>
          if (c =? quote)%char
          then csv_read InQuotedField (cur ++ String quote EmptyString) done
                 rest
          else if (c =? comma)%char
          then csv_read AtFieldStart EmptyString (done ++ [cur])%list rest
          else if (c =? newline)%char then Some ((done ++ [cur])%list, rest)
          else None
      end
  end.

Definition csv_read_record (text : string) : option (list string * string) :=
  csv_read AtFieldStart EmptyString [] text.

Definition field_text (v : option string) : string :=
  match v with Some s => s | None => EmptyString end.

End Csv.

Export Csv.

(* ================================================================= *)
(** ** Response bodies ([src/core/response.c], continued) *)

Module ResponseBody.

(** [strncmp(header, "Content-Length:", 15) == 0]. *)
Definition is_content_length (header : string) : bool :=
  prefix "Content-Length:" header.

(** The loop that removes the first [Content-Length] header and shifts
    the later headers down. *)
Fixpoint remove_content_length (hs : list string) : list string :=
  match hs with
  | [] => []
  | h :: rest =>
      if is_content_length h then rest else h :: remove_content_length rest
  end.

(** [response_append_body]. *)
Definition response_append_body (resp : http_response_t) (data : string)
  : http_response_t :=
  let b := resp_body resp ++ data in
  response_add_header
    (mk_response (status_code resp) (status_message resp)
       (remove_content_length (resp_headers resp)) b)
    "Content-Length" (decimal (Z.of_nat (String.length b))).

Definition crlf : string := String "013" (String "010" EmptyString).

(** The text that [response_build] writes. *)
Definition response_build (resp : http_response_t) : string :=
  ("HTTP/1.1 " ++ decimal (status_code resp) ++ " " ++ status_message resp
   ++ crlf)
  ++ fold_right (fun h acc => h ++ crlf ++ acc) EmptyString
       (resp_headers resp)
  ++ crlf ++ resp_body resp.

(** [total_size], as [response_build] computes it before it
    allocates. *)
Definition response_total_size (resp : http_response_t) : nat :=
  (String.length ("HTTP/1.1 " ++ decimal (status_code resp) ++ " "
                  ++ status_message resp ++ crlf)
   + fold_right (fun h acc => String.length h + 2 + acc) 0
       (resp_headers resp)
   + 2 + String.length (resp_body resp) + 1)%nat.

(** The [Content-Length] headers of a response, in order. *)
Definition content_lengths (resp : http_response_t) : list string :=
  filter is_content_length (resp_headers resp).

Definition content_length_header (resp : http_response_t) : string :=
  "Content-Length: " ++ decimal (Z.of_nat (String.length (resp_body resp))).

End ResponseBody.

Export ResponseBody.

(* ================================================================= *)
(** ** Splitting ([str_split] of [utils/string_utils.c]) *)

Module Split.

(** The loop of [str_split] from the character at [p] on: [cur] is the
    text between [start] and [p], [parts] the parts stored so far, whose
    number is [count]. *)
Fixpoint str_split_loop (p : string) (delimiter : ascii) (cur : string)
  (parts : list string) (max_parts : Z) : list string :=
  match p with
  | EmptyString =>
      (* "Add final part if room" *)
      if (Z.of_nat (List.length parts) <? max_parts)%Z
         && negb (cur =? EmptyString)
      then (parts ++ [cur])%list
      else parts
  | String c rest =>
      if (Z.of_nat (List.length parts) <? max_parts)%Z then
        if (c =? delimiter)%char
        then str_split_loop rest delimiter EmptyString
               (parts ++ [cur])%list max_parts
        else str_split_loop rest delimiter (cur ++ String c EmptyString)
               parts max_parts
      else parts
  end.

(** [str_split]: the parts in [parts[0 .. count)]; the result of the C
    function is their number. *)
Definition str_split (str : string) (delimiter : ascii) (max_parts : Z)
  : list string :=
  str_split_loop str delimiter EmptyString [] max_parts.

(** The parts, each followed by the delimiter. *)
Fixpoint joined (delimiter : ascii) (parts : list string) : string :=
  match parts with
  | [] => EmptyString
  | p :: rest => p ++ String delimiter (joined delimiter rest)
  end.

Fixpoint count_char (c : ascii) (s : string) : nat :=
  match s with
  | EmptyString => O
  | String x rest =>
      if (x =? c)%char then S (count_char c rest) else count_char c rest
  end.

End Split.

Export Split.

(* ================================================================= *)
(** ** Authentication ([src/auth/auth.c]) *)

Module Auth.

Section Crypt.

(** [crypt(3)]: the hash of a password under a setting (a salt, or a
    hash, whose salt is then used); [None] is NULL. *)
Variable crypt : string -> string -> option string.

(** [auth_hash_password]; [random_hex] is the result of
    [generate_random_hex(16)].  [None] is the result -1, otherwise the
    text copied to [hash]. *)
Definition auth_hash_password (random_hex : option string)
  (password : string) (hash_size : nat) : option string :=
  match random_hex with
  | None => None
  | Some hex =>
      let salt := StringUtils.safe_strncpy ("$6$" ++ hex) 64 in
      match crypt password salt with
      | None => None
      | Some hashed => Some (StringUtils.safe_strncpy hashed hash_size)
      end
  end.

(** [auth_verify_password]. *)
Definition auth_verify_password (password hash : string) : bool :=
  match crypt password hash with
  | None => false
  | Some result => result =? hash
  end.

(** [SELECT id, password_hash, is_active FROM users WHERE email = ?]. *)
Definition select_user_by_email (email : string) (d : database)
  : option user_row :=
  find (fun u => us_email u =? email) (users d).

(** [auth_authenticate_user]. *)
Definition auth_authenticate_user (email password : string) : M Z :=
  p <- db_prepare ;;
  if negb (p =? 0)%Z then ret (-1)%Z
  else
    r <- sqlite3_step_query (select_user_by_email email) ;;
    match r with
    | (SQLITE_ROW, Some u) =>
        if (us_is_active u =? 0)%Z then ret (-1)%Z
        else if negb (auth_verify_password password (us_password_hash u))
        then ret (-1)%Z
        else ret (us_id u)
    | _ => ret (-1)%Z
    end.

(** [INSERT INTO users (account_id, email, password_hash, role,
    is_active, created_at) VALUES (?, ?, ?, ?, 1, ?)]; the column
    [email] is UNIQUE. *)
Definition sql_insert_user (account : Z) (email hash role : string)
  (d : database) : option database :=
  if existsb (fun u => us_email u =? email) (users d) then None
  else
    Some (mk_database (subscriptions d) (billing_events d) (sessions d)
            (users d ++
             [mk_user_row (next_rowid us_id (users d)) account email hash
                role 1])%list).

(** [auth_create_user]; the result is -1 or [db_last_insert_rowid]. *)
Definition auth_create_user (random_hex : option string) (account : Z)
  (email password role : string) : M Z :=
  match auth_hash_password random_hex password 256 with
  | None => ret (-1)%Z
  | Some password_hash =>
      p <- db_prepare ;;
      if negb (p =? 0)%Z then ret (-1)%Z
      else
        before <- current_database ;;
        result <- sqlite3_step_write
                    (sql_insert_user account email password_hash role) ;;
        if negb (is_done result) then ret (-1)%Z
        else ret (next_rowid us_id (users before))
  end.

End Crypt.

(** A stand-in for [crypt] in examples: the setting's first three
    characters and the password. *)
Definition sample_crypt (password setting : string) : option string :=
  Some (substring 0 3 setting ++ password).

End Auth.

Export Auth.

(* ================================================================= *)
(** * Properties *)

Local Open Scope string_scope.
Local Open Scope Z_scope.

Ltac zbool :=
  repeat match goal with
         | |- context [(?a <? ?b)] =>
             let E := fresh "E" in destruct (Z.ltb_spec a b) as [E|E]
         | |- context [(?a <=? ?b)] =>
             let E := fresh "E" in destruct (Z.leb_spec a b) as [E|E]
         | |- context [(?a =? ?b)] =>
             let E := fresh "E" in destruct (Z.eqb_spec a b) as [E|E]
         end.

(* ================================================================= *)
(** ** Properties of the validity check *)

Section Validity.

Variable now : Z.
Variable sub : subscription_t.

(** What [subscription_is_valid] computes, status by status. *)
Lemma subscription_is_valid_cases :
  subscription_is_valid now sub = true <->
  ((status sub = STATUS_EXPIRED \/ status sub = STATUS_CANCELLED) /\
   0 < grace_until sub /\ now <= grace_until sub) \/
  ((status sub = STATUS_ACTIVE \/ status sub = STATUS_GRACE_PERIOD) /\
   valid_from sub <= now <= valid_until sub).
Proof.
  unfold subscription_is_valid, in_grace, status_lapsed.
  destruct (status sub); zbool; simpl;
    intuition (try discriminate; try congruence; try lia).
Qed.

(** Off the status [grace_period] the code computes the validity of the
    specification. *)
Lemma subscription_is_valid_agrees :
  0 <= now ->
  status sub <> STATUS_GRACE_PERIOD ->
  subscription_is_valid now sub = spec_is_valid now sub.
Proof.
  intros Hnow Hst.
  unfold subscription_is_valid, spec_is_valid, in_grace, status_lapsed.
  destruct (status sub); try congruence; zbool; simpl;
    try reflexivity; lia.
Qed.

End Validity.

(** The scenario of the specification: an expired subscription with grace
    until 200 is valid at 195 and no longer at 201, the record being the
    same. *)
Lemma expired_in_grace_scenario :
  subscription_is_valid 195 expired_subscription = true /\
  subscription_is_valid 201 expired_subscription = false.
Proof. split; reflexivity. Qed.

(** C3, at the input where the code leaves the specification: in status
    [grace_period], after [valid_until] and before [grace_until], the
    specification's validity holds and [subscription_is_valid] answers
    0. *)
Theorem subscription_is_valid_grace_period_status :
  status grace_subscription = STATUS_GRACE_PERIOD /\
  grace_until grace_subscription = 200 /\
  spec_is_valid 150 grace_subscription = true /\
  subscription_is_valid 150 grace_subscription = false.
Proof. repeat split; reflexivity. Qed.

(* ================================================================= *)
(** ** Properties of the entitlement check *)

Lemma get_by_account_empty acc fs :
  fst (subscription_get_by_account acc (fresh_world empty_database fs)) = None.
Proof. destruct fs as [|[] [|[] fs]]; reflexivity. Qed.

(** C4 (amended): without a readable, valid subscription
    [entitlement_has_feature] denies every feature, those of the free tier
    included; the report range falls back to the 7 days of the free
    tier. *)
Theorem entitlement_fails_closed :
  forall now acc feature w,
    no_valid_subscription now acc w ->
    fst (entitlement_has_feature now acc feature w) = false /\
    fst (entitlement_get_max_report_days now acc w) = 7.
Proof.
  intros now acc feature w H.
  unfold no_valid_subscription in H.
  unfold entitlement_has_feature, entitlement_get_max_report_days, bind.
  destruct (subscription_get_by_account acc w) as [[sub|] w1]; simpl in *.
  - rewrite H. split; reflexivity.
  - split; reflexivity.
Qed.

Lemma entitlement_fails_closed_witness :
  no_valid_subscription 1000 1 (fresh_world empty_database []) /\
  fst (entitlement_has_feature 1000 1 FEATURE_BASIC_REPORTS
         (fresh_world empty_database [])) = false.
Proof.
  split.
  - exact I.
  - apply (proj1 (entitlement_fails_closed 1000 1 FEATURE_BASIC_REPORTS
                    (fresh_world empty_database []) I)).
Defined.

(** C4 as the specification states it does not hold: an account without a
    subscription is refused the basic reports, which the free tier
    grants. *)
Lemma free_tier_not_kept : ~ fails_closed_to_free_tier.
Proof.
  intros H.
  specialize (H 1000 1 FEATURE_BASIC_REPORTS (fresh_world empty_database []) I).
  discriminate H.
Qed.

(** With a valid subscription the answer is that of the plan. *)
Lemma entitlement_of_valid_subscription now acc feature w sub :
  fst (subscription_get_by_account acc w) = Some sub ->
  subscription_is_valid now sub = true ->
  fst (entitlement_has_feature now acc feature w)
  = plan_grants (plan sub) feature.
Proof.
  intros Hget Hvalid.
  unfold entitlement_has_feature, bind.
  destruct (subscription_get_by_account acc w) as [r w1]; simpl in *.
  subst r. rewrite Hvalid. reflexivity.
Qed.

(* ================================================================= *)
(** ** Properties of the router *)

Section Routing.

Variable routes : list route_t.
Variable req : http_request_t.

(** The loop of [router_handle_request] stops at the first matching
    route. *)
Lemma router_handle_request_matched r :
  matched_route routes req = Some r ->
  router_handle_request routes req =
  if negb (requires_auth r =? 0) && (is_authenticated req =? 0)
  then ret login_redirect
  else if negb (requires_admin r =? 0)
          && negb (user_role req =? "admin")%string
  then ret forbidden_response
  else rt_handler r req.
Proof.
  unfold matched_route.
  induction routes as [|r0 rest IH]; simpl; [discriminate|].
  destruct (route_matches r0 req).
  - intros [= <-]. reflexivity.
  - exact IH.
Qed.

Lemma router_handle_request_unmatched :
  matched_route routes req = None ->
  router_handle_request routes req = ret not_found_response.
Proof.
  unfold matched_route.
  induction routes as [|r0 rest IH]; simpl; [reflexivity|].
  destruct (route_matches r0 req); [discriminate|exact IH].
Qed.

(** The two gates of a route that asks for a session and for the admin
    role. *)
Lemma router_admin_gate r w :
  matched_route routes req = Some r ->
  requires_auth r <> 0 ->
  requires_admin r <> 0 ->
  (is_authenticated req = 0 ->
   router_handle_request routes req w = (login_redirect, w)) /\
  (is_authenticated req <> 0 ->
   user_role req <> "admin"%string ->
   router_handle_request routes req w = (forbidden_response, w)).
Proof.
  intros Hm Hauth Hadmin.
  rewrite (router_handle_request_matched r Hm).
  apply Z.eqb_neq in Hauth. apply Z.eqb_neq in Hadmin.
  rewrite Hauth, Hadmin. simpl.
  split.
  - intros ->. reflexivity.
  - intros Hin Hrole.
    apply Z.eqb_neq in Hin. apply String.eqb_neq in Hrole.
    rewrite Hin, Hrole. reflexivity.
Qed.

End Routing.

(** In the table of [routes_register_all] every admin route also asks for
    a session. *)
Lemma registered_admin_routes_require_session h r :
  In r (routes_register_all h) ->
  requires_admin r <> 0 ->
  requires_auth r <> 0.
Proof.
  intros Hin Hadmin.
  unfold routes_register_all, router_add_route in Hin.
  cbn [Nat.leb MAX_ROUTES List.length app In] in Hin.
  repeat (destruct Hin as [<-|Hin];
          [cbn [requires_admin requires_auth] in *; congruence|]).
  destruct Hin.
Qed.

Lemma forbidden_is_not_a_redirect :
  status_code forbidden_response = 403 /\
  status_code login_redirect = 302 /\
  In "Location: /login"%string (resp_headers login_redirect) /\
  forbidden_response <> login_redirect.
Proof.
  repeat split; try reflexivity.
  - simpl. auto.
  - discriminate.
Qed.

(** C6: on a registered route that requires the admin role, a request
    without a session is answered with the redirect to the login page, and
    an authenticated request whose role is not admin with 403 Forbidden,
    which is not a redirect. *)
Theorem admin_route_policy :
  forall h req r w,
    matched_route (routes_register_all h) req = Some r ->
    requires_admin r <> 0 ->
    (is_authenticated req = 0 ->
     router_handle_request (routes_register_all h) req w
     = (login_redirect, w)) /\
    (is_authenticated req <> 0 ->
     user_role req <> "admin"%string ->
     router_handle_request (routes_register_all h) req w
     = (forbidden_response, w)) /\
    status_code forbidden_response = 403 /\
    status_code login_redirect = 302 /\
    In "Location: /login"%string (resp_headers login_redirect) /\
    forbidden_response <> login_redirect.
Proof.
  intros h req r w Hm Hadmin.
  assert (Hauth : requires_auth r <> 0).
  { apply (registered_admin_routes_require_session h); [|exact Hadmin].
    unfold matched_route in Hm. apply find_some in Hm. tauto. }
  destruct (router_admin_gate _ _ _ w Hm Hauth Hadmin) as [H1 H2].
  repeat split; try assumption; try apply forbidden_is_not_a_redirect.
Qed.

Lemma admin_route_policy_witness :
  router_handle_request (routes_register_all sample_handlers)
    sample_request sample_world = (login_redirect, sample_world) /\
  router_handle_request (routes_register_all sample_handlers)
    authenticated_request sample_world = (forbidden_response, sample_world).
Proof.
  split.
  - refine (proj1 (admin_route_policy sample_handlers sample_request _
                     sample_world _ _) _).
    + reflexivity.
    + simpl. discriminate.
    + reflexivity.
  - refine (proj1 (proj2 (admin_route_policy sample_handlers
                     authenticated_request _ sample_world _ _)) _ _).
    + reflexivity.
    + simpl. discriminate.
    + simpl. discriminate.
    + simpl. discriminate.
Defined.

(* ================================================================= *)
(** ** The cookie of the login and the cookie of the pipeline *)

(** [handle_login_submit] issues the token under the name
    "session_token". *)
Lemma login_sets_session_token_cookie tok :
  In ("Set-Cookie: " ++ cookie_pair login_cookie_name tok
      ++ "; Max-Age=604800; HttpOnly; SameSite=Strict; Path=/")%string
     (resp_headers (login_success_response tok)).
Proof. simpl. left. reflexivity. Qed.

(** The cookie set at login does not answer to the name "session": after
    the seven characters of the name comes '_', not '='. *)
Lemma login_cookie_not_named_session tok :
  cookie_named pipeline_cookie_name (cookie_pair login_cookie_name tok)
  = false.
Proof. reflexivity. Qed.

Lemma find_cookie_none name cs :
  Forall (fun c => cookie_named name c = false) cs ->
  find_cookie name cs = None.
Proof.
  induction 1 as [|c cs Hc _ IH]; simpl; [reflexivity|].
  rewrite Hc. exact IH.
Qed.

(** A request with a cookie named "session" is looked up. *)
Lemma session_cookie_is_looked_up :
  request_get_cookie
    (parsed_request HTTP_GET "/" EmptyString "HTTP/1.1" [] None ["session=c0ffee"%string])
    pipeline_cookie_name = Some "c0ffee"%string.
Proof. reflexivity. Qed.

Lemma until_semicolon_app a b :
  until_semicolon (a ++ String ";"%char b) = until_semicolon a.
Proof.
  induction a as [|c a IH]; cbn [append until_semicolon]; [reflexivity|].
  destruct (Ascii.eqb c ";"); [reflexivity|]. now rewrite IH.
Qed.

(** The one cookie that a successful login sets: the token, up to a [;]
    that would end it, under the name "session_token". *)
Lemma login_sets_one_cookie tok :
  cookies_set_by (login_success_response tok)
  = [cookie_pair login_cookie_name (until_semicolon tok)].
Proof.
  unfold cookies_set_by, login_success_response, response_redirect,
    response_set_body, response_set_cookie, response_add_header,
    response_set_status, response_new, login_cookie_name, cookie_pair.
  cbn -[until_semicolon append after_prefix].
  unfold cookie_of_header.
  cbn [append after_prefix Ascii.eqb Bool.eqb option_map until_semicolon].
  rewrite until_semicolon_app. reflexivity.
Qed.

(** C9 (amended): the pipeline asks for the cookie "session" and the
    login sets one cookie, the token under the name "session_token"; a
    request that presents what the login has set, with no cookie named
    "session" next to it, yields no token to [session_validate]: the
    store is not consulted and the request goes on with
    [is_authenticated] unset. *)
Theorem login_cookie_never_identifies :
  forall tok before after m p q v hs b ip port now now_upd w,
    Forall (fun c => cookie_named pipeline_cookie_name c = false)
      (before ++ after) ->
    let req :=
      set_client_info ip port
        (parsed_request m p q v hs b
           (before ++ cookies_set_by (login_success_response tok) ++ after))
    in
    cookies_set_by (login_success_response tok)
    = [cookie_pair login_cookie_name (until_semicolon tok)] /\
    request_get_cookie req pipeline_cookie_name = None /\
    server_identify now now_upd req w = (req, w) /\
    is_authenticated (fst (server_identify now now_upd req w)) = 0.
Proof.
  intros tok before after m p q v hs b ip port now now_upd w Hothers req.
  split; [apply login_sets_one_cookie|].
  assert (Hnone : request_get_cookie req pipeline_cookie_name = None).
  { unfold request_get_cookie. subst req.
    unfold set_client_info, parsed_request. cbn [cookies].
    apply find_cookie_none.
    apply Forall_app in Hothers. destruct Hothers as [Hb Ha].
    apply Forall_app. split; [exact Hb|].
    rewrite login_sets_one_cookie. cbn [app].
    constructor; [apply login_cookie_not_named_session | exact Ha]. }
  split; [exact Hnone|].
  unfold server_identify. rewrite Hnone. split; reflexivity.
Qed.

Lemma login_cookie_never_identifies_witness :
  Forall (fun c => cookie_named pipeline_cookie_name c = false)
    (["theme=dark"%string] ++ []) /\
  cookies_set_by (login_success_response "c0ffee")
  = ["session_token=c0ffee"%string] /\
  server_identify 995 995
    (set_client_info "10.0.0.1" 4711
       (parsed_request HTTP_GET "/dashboard" EmptyString "HTTP/1.1" [] None
          (["theme=dark"%string]
           ++ cookies_set_by (login_success_response "c0ffee") ++ [])))
    sample_world
  = (set_client_info "10.0.0.1" 4711
       (parsed_request HTTP_GET "/dashboard" EmptyString "HTTP/1.1" [] None
          (["theme=dark"%string]
           ++ cookies_set_by (login_success_response "c0ffee") ++ [])),
     sample_world).
Proof.
  assert (H : Forall (fun c => cookie_named pipeline_cookie_name c = false)
                (["theme=dark"%string] ++ [])).
  { repeat constructor. }
  split; [exact H|].
  pose proof (login_cookie_never_identifies "c0ffee"
                ["theme=dark"%string] [] HTTP_GET "/dashboard" EmptyString "HTTP/1.1"
                [] None "10.0.0.1" 4711 995 995 sample_world H) as Hc.
  cbv zeta in Hc. destruct Hc as (Hset & _ & Hid & _).
  split; [exact Hset | exact Hid].
Defined.

(** C9 as the claim states it does not hold: a request that presents the
    login cookie and, next to it, the same token under the name "session"
    is identified. *)
Lemma login_cookie_next_to_session_cookie : ~ login_cookie_is_never_accepted.
Proof.
  intros H.
  specialize (H "c0ffee"%string
                ["session_token=c0ffee"%string; "session=c0ffee"%string]
                HTTP_GET "/dashboard"%string EmptyString "HTTP/1.1"%string
                [] None 995 995 sample_world).
  assert (Hin : forall c,
             In c (cookies_set_by (login_success_response "c0ffee")) ->
             In c ["session_token=c0ffee"%string; "session=c0ffee"%string]).
  { intros c [<- | []]. left. reflexivity. }
  specialize (H Hin). vm_compute in H. discriminate H.
Qed.

(* ================================================================= *)
(** ** Properties of session validation *)

(** The two outcomes of [session_validate]. *)
Lemma session_validate_outcome now now_upd tok req w :
  let r := session_validate now now_upd (Some tok) req w in
  (fst r = (false, req) /\ w_db (snd r) = w_db w /\
   w_saved (snd r) = w_saved w /\
   (lookup_fails w = true \/
    lookup_session tok w = None \/
    exists s u, lookup_session tok w = Some (s, u) /\
                (se_expires_at s < now \/
                 SESSION_INACTIVITY_SECONDS < now - se_last_activity_at s)))
  \/
  (exists s u,
     lookup_fails w = false /\
     lookup_session tok w = Some (s, u) /\
     now <= se_expires_at s /\
     now - se_last_activity_at s <= SESSION_INACTIVITY_SECONDS /\
     fst r = (true, populate_context s u req) /\
     w_db (snd r) = touched now_upd tok w /\
     w_saved (snd r) = w_saved w).
Proof.
  destruct w as [d sv fs].
  unfold session_validate, session_update_activity, db_prepare,
    sqlite3_step_query, sqlite3_step_write, bind, ret, next_fault,
    lookup_fails, lookup_session, touched, activity_update_fails,
    sql_update_activity.
  cbn [w_db w_saved w_faults].
  destruct (select_session_user tok (users d) (sessions d)) as [[s u]|] eqn:Hsel.
  - destruct fs as [|[] [|[] fs]]; cbn [hd tl orb w_db w_saved w_faults fst snd negb Z.eqb is_done];
      try (left; repeat split; auto; fail);
      rewrite ?Hsel;
      (destruct (Z.ltb_spec (se_expires_at s) now) as [E1|E1];
       [left; repeat split; eauto 7|]);
      (destruct (Z.ltb_spec SESSION_INACTIVITY_SECONDS
                   (now - se_last_activity_at s)) as [E2|E2];
       [left; repeat split; eauto 7|]);
      right; exists s, u.
    all: try (destruct fs as [|[] [|[] fs]]); cbn; repeat split; auto; lia.
  - left.
    destruct fs as [|[] [|[] fs]]; cbn [hd tl orb w_db w_saved w_faults fst snd negb Z.eqb is_done];
      rewrite ?Hsel; repeat split; auto.
Qed.

Lemma session_validate_null now now_upd req w :
  session_validate now now_upd None req w = ((false, req), w).
Proof. reflexivity. Qed.

(** A token that no session row carries selects nothing. *)
Lemma lookup_absent tok w :
  (forall s, In s (sessions (w_db w)) -> se_token s <> tok) ->
  lookup_session tok w = None.
Proof.
  unfold lookup_session.
  induction (sessions (w_db w)) as [|s ss IH]; intros H; simpl; [reflexivity|].
  destruct (String.eqb_spec (se_token s) tok) as [E|E].
  - exfalso. apply (H s); [left; reflexivity|exact E].
  - apply IH. intros s0 Hin. apply H. right. exact Hin.
Qed.

(** The selected pair is a session with the token and its active owner. *)
Lemma lookup_selects tok w s u :
  lookup_session tok w = Some (s, u) ->
  In s (sessions (w_db w)) /\ se_token s = tok /\
  In u (users (w_db w)) /\ us_id u = se_user_id s /\ us_is_active u = 1.
Proof.
  unfold lookup_session.
  induction (sessions (w_db w)) as [|s0 ss IH]; simpl; [discriminate|].
  destruct (String.eqb_spec (se_token s0) tok) as [E|E].
  - destruct (find _ (users (w_db w))) as [u0|] eqn:Hfind.
    + intros [= <- <-]. apply find_some in Hfind. destruct Hfind as [Hin Hb].
      apply andb_true_iff in Hb. destruct Hb as [H1 H2].
      apply Z.eqb_eq in H1. apply Z.eqb_eq in H2. auto.
    + intros H. destruct (IH H) as [? ?]. auto.
  - intros H. destruct (IH H) as [? ?]. auto.
Qed.

(** C5 (amended): [session_validate] answers 0 when the token selects no
    session with an active owner, when [now > expires_at], when
    [now - last_activity_at > 86400] and when the lookup fails in the
    store, leaving the request as it was; in every other case, the instants
    [now = expires_at] and [now - last_activity_at = 86400] included, it
    answers 1 and loads the user id, the role and the account id of the
    owner into the request. *)
Theorem session_validate_limits :
  forall now now_upd tok req w ok req' w',
    session_validate now now_upd (Some tok) req w = ((ok, req'), w') ->
    ((forall s, In s (sessions (w_db w)) -> se_token s <> tok) ->
     ok = false) /\
    (lookup_session tok w = None -> ok = false) /\
    (forall s u, lookup_session tok w = Some (s, u) ->
                 se_expires_at s < now -> ok = false) /\
    (forall s u, lookup_session tok w = Some (s, u) ->
                 SESSION_INACTIVITY_SECONDS < now - se_last_activity_at s ->
                 ok = false) /\
    (lookup_fails w = true -> ok = false) /\
    (ok = false -> req' = req /\ w_db w' = w_db w) /\
    (forall s u,
        lookup_fails w = false ->
        lookup_session tok w = Some (s, u) ->
        now <= se_expires_at s ->
        now - se_last_activity_at s <= SESSION_INACTIVITY_SECONDS ->
        ok = true /\
        req' = populate_context s u req /\
        is_authenticated req' = 1 /\
        user_id req' = se_user_id s /\
        user_role req' = StringUtils.safe_strncpy (us_role u) 16 /\
        account_id req' = us_account_id u).
Proof.
  intros now now_upd tok req w ok req' w' Hrun.
  pose proof (session_validate_outcome now now_upd tok req w) as Hout.
  cbv zeta in Hout. rewrite Hrun in Hout. cbn [fst snd] in Hout.
  destruct Hout
    as [(Hres & Hdb & _ & Hwhy)
       | (s & u & Hlf & Hsel & He & Hi & Hres & _)];
    injection Hres as -> ->.
  - split; [reflexivity|].
    split; [reflexivity|]. split; [reflexivity|]. split; [reflexivity|].
    split; [reflexivity|]. split; [auto|].
    intros s u Hlf Hsel He Hi. exfalso.
    destruct Hwhy as [Hw | [Hw | (s0 & u0 & Hw & Hlim)]];
      [congruence | congruence | ].
    rewrite Hsel in Hw. injection Hw as <- <-. lia.
  - split; [intros Habs; rewrite (lookup_absent tok w Habs) in Hsel;
            discriminate Hsel|].
    split; [congruence|].
    split; [intros s0 u0 Hs0; rewrite Hsel in Hs0;
            injection Hs0 as <- <-; lia|].
    split; [intros s0 u0 Hs0; rewrite Hsel in Hs0;
            injection Hs0 as <- <-; lia|].
    split; [congruence|]. split; [discriminate|].
    intros s0 u0 _ Hs0 _ _. rewrite Hsel in Hs0. injection Hs0 as <- <-.
    repeat split; reflexivity.
Qed.

Lemma session_validate_limits_witness :
  session_validate 1000 1000 (Some "c0ffee"%string) sample_request sample_world
  = ((true, authenticated_request),
     fresh_world
       (set_sessions [touch_session 1000 "c0ffee" sample_session]
          sample_database) []) /\
  user_role authenticated_request = "user"%string /\
  account_id authenticated_request = 1.
Proof.
  assert (Hrun : session_validate 1000 1000 (Some "c0ffee"%string)
                   sample_request sample_world
                 = ((true, authenticated_request),
                    fresh_world
                      (set_sessions
                         [touch_session 1000 "c0ffee" sample_session]
                         sample_database) [])) by reflexivity.
  split; [exact Hrun|].
  destruct (session_validate_limits _ _ _ _ _ _ _ _ Hrun)
    as (_ & _ & _ & _ & _ & _ & Hok).
  destruct (Hok sample_session sample_user) as (_ & _ & _ & _ & Hrole & Hacc).
  - reflexivity.
  - reflexivity.
  - simpl. lia.
  - simpl. unfold SESSION_INACTIVITY_SECONDS. lia.
  - split; [exact Hrole | exact Hacc].
Defined.

(** C5 as the specification states it does not hold: at the instant
    [now = expires_at] the session of the sample store is still
    accepted. *)
Lemma accepted_at_expiry : ~ rejects_at_the_limits.
Proof.
  intros H.
  specialize (H 1000 1000 "c0ffee"%string sample_request sample_world
                sample_session sample_user eq_refl).
  assert (Hlim : se_expires_at sample_session <= 1000 \/
                 SESSION_INACTIVITY_SECONDS
                 <= 1000 - se_last_activity_at sample_session).
  { left. simpl. lia. }
  specialize (H Hlim). discriminate H.
Qed.


Lemma touch_session_frame now tok s :
  same_but_activity s (touch_session now tok s) /\
  (se_token s <> tok -> touch_session now tok s = s) /\
  (se_token s = tok -> se_last_activity_at (touch_session now tok s) = now).
Proof.
  unfold touch_session, same_but_activity.
  destruct (String.eqb_spec (se_token s) tok); simpl; intuition congruence.
Qed.



(* ================================================================= *)
(** ** Properties of the subscription engine *)

Section Tables.

Context {A : Type}.
Variable f : A -> bool.

Lemma existsb_find_none l : find f l = None -> existsb f l = false.
Proof.
  induction l as [|a l IH]; simpl; [reflexivity|].
  destruct (f a); [discriminate|exact IH].
Qed.

Lemma existsb_find_some l x : find f l = Some x -> existsb f l = true.
Proof.
  induction l as [|a l IH]; simpl; [discriminate|].
  destruct (f a); [reflexivity|exact IH].
Qed.

Lemma find_map_stable (g : A -> A) l :
  (forall a, f (g a) = f a) ->
  find f (map g l) = option_map g (find f l).
Proof.
  intros Hg. induction l as [|a l IH]; simpl; [reflexivity|].
  rewrite Hg. destruct (f a); [reflexivity|exact IH].
Qed.

Lemma find_snoc l x :
  find f (l ++ [x]) =
  match find f l with
  | Some y => Some y
  | None => if f x then Some x else None
  end.
Proof.
  induction l as [|a l IH]; simpl; [reflexivity|].
  destruct (f a); [reflexivity|exact IH].
Qed.

Lemma filter_snoc l x :
  filter f (l ++ [x]) = (filter f l ++ if f x then [x] else [])%list.
Proof. rewrite filter_app. reflexivity. Qed.

End Tables.

Lemma plan_text_roundtrip p :
  subscription_string_to_plan (subscription_plan_to_string p) = p.
Proof. destruct p; reflexivity. Qed.

Lemma status_text_roundtrip s :
  subscription_string_to_status (subscription_status_to_string s) = s.
Proof. destruct s; reflexivity. Qed.

Lemma insert_existing p s vf vu n c u acc d row :
  select_subscription acc d = Some row ->
  sql_insert_subscription p s vf vu n c u acc d = None.
Proof.
  unfold select_subscription, sql_insert_subscription. intros H.
  now rewrite (existsb_find_some _ _ _ H).
Qed.

Lemma insert_fresh p s vf vu n c u acc d :
  select_subscription acc d = None ->
  sql_insert_subscription p s vf vu n c u acc d =
  Some (set_subscriptions
          (subscriptions d ++
           [mk_sub_row (next_rowid sr_id (subscriptions d)) acc p s vf vu
              (Some 0) "manual" EmptyString n c u]) d).
Proof.
  unfold select_subscription, sql_insert_subscription. intros H.
  now rewrite (existsb_find_none _ _ H).
Qed.

(** The outcomes of [subscription_update] outside a transaction: -1 with
    nothing changed; or, for an administrator that [users] has, 0 with
    the upsert and the ledger entry both stored, or 0 with nothing
    changed, when the COMMIT failed.  No transaction is left open. *)
Lemma subscription_update_cases now acc p s vu adm n d fs :
  let r := subscription_update now acc p s vu adm n (mk_world d None fs) in
  w_saved (snd r) = None /\
  (exists k, w_faults (snd r) = skipn k fs) /\
  ((fst r = -1 /\ w_db (snd r) = d) \/
   (references_user (Some adm) d = true /\ fst r = 0 /\
    (w_db (snd r) = d \/
     w_db (snd r) =
       mk_database (upserted now acc p s vu n d)
         (billing_events d ++ [ledger_entry now acc p s adm n d])
         (sessions d) (users d)))).
Proof.
  unfold upserted, ledger_entry, previous_plan_text, previous_status_text.
  unfold subscription_update, subscription_get_by_account, db_prepare,
    sqlite3_step_query, sqlite3_step_write, db_begin_transaction,
    db_rollback_transaction, db_commit_transaction, bind, ret, next_fault,
    sql_insert_billing_event, references_user.
  destruct (select_subscription acc d) as [row|] eqn:Hsel;
    destruct fs as [|[] [|[] [|[] [|[] [|[] [|[] [|[] fs]]]]]]];
    cbn -[select_subscription sql_insert_subscription
          next_rowid skipn existsb];
    rewrite ?Hsel;
    cbn -[select_subscription sql_insert_subscription
          next_rowid skipn existsb];
    rewrite ?(insert_existing _ _ _ _ _ _ _ _ _ _ Hsel),
      ?(insert_fresh _ _ _ _ _ _ _ _ _ Hsel);
    cbn -[select_subscription sql_insert_subscription
          next_rowid skipn existsb];
    try (destruct (existsb (fun r => us_id r =? adm) (users d)) eqn:Hfk;
         cbn -[select_subscription next_rowid skipn existsb]);
    (split; [reflexivity|]);
    (split;
     [first [ now exists 0%nat | now exists 1%nat | now exists 2%nat
            | now exists 3%nat | now exists 4%nat | now exists 5%nat
            | now exists 6%nat | now exists 7%nat ]|]);
    first [ left; split; reflexivity
          | right; split; [reflexivity|]; split; [reflexivity|];
            first [ left; reflexivity | right; reflexivity ] ].
Qed.

(** What the store holds after the call. *)
Lemma subscription_update_db now acc p s vu adm n d fs :
  let r := subscription_update now acc p s vu adm n (mk_world d None fs) in
  w_db (snd r) = d \/
  w_db (snd r) =
    mk_database (upserted now acc p s vu n d)
      (billing_events d ++ [ledger_entry now acc p s adm n d])
      (sessions d) (users d).
Proof.
  pose proof (subscription_update_cases now acc p s vu adm n d fs) as H.
  cbv zeta in *.
  destruct H as (_ & _ & [[_ H] | (_ & _ & [H | H])]); auto.
Qed.

(** A call that answers 0 and changed the store has stored the upsert and
    the ledger entry, for an administrator that [users] has. *)
Lemma subscription_update_stored now acc p s vu adm n d fs :
  let r := subscription_update now acc p s vu adm n (mk_world d None fs) in
  fst r = 0 ->
  w_db (snd r) <> d ->
  references_user (Some adm) d = true /\
  w_db (snd r) =
    mk_database (upserted now acc p s vu n d)
      (billing_events d ++ [ledger_entry now acc p s adm n d])
      (sessions d) (users d).
Proof.
  pose proof (subscription_update_cases now acc p s vu adm n d fs) as H.
  cbv zeta in *. intros Hrc Hne.
  destruct H as (_ & _ & [[Hbad _] | (Hfk & _ & [H | H])]).
  - rewrite Hrc in Hbad. discriminate Hbad.
  - contradiction.
  - split; assumption.
Qed.

(** A call that answers -1 has changed nothing. *)
Lemma subscription_update_failed now acc p s vu adm n d fs :
  let r := subscription_update now acc p s vu adm n (mk_world d None fs) in
  fst r = -1 -> w_db (snd r) = d.
Proof.
  pose proof (subscription_update_cases now acc p s vu adm n d fs) as H.
  cbv zeta in *. intros Hrc.
  destruct H as (_ & _ & [[_ H] | (_ & Hbad & _)]); [exact H|].
  rewrite Hrc in Hbad. discriminate Hbad.
Qed.

Section Upsert.

Variables (now acc : Z) (p : plan_t) (s : subscription_status_t) (vu : Z)
  (n : option string) (d : database).

Let by_account (a : Z) : sub_row -> bool :=
  fun r => (sr_account_id r =? a).

Lemma update_sub_row_account ps ss a r :
  sr_account_id (update_sub_row ps ss vu (notes_or_empty n) now a r)
  = sr_account_id r.
Proof. unfold update_sub_row. destruct (sr_account_id r =? a); reflexivity. Qed.

(** After the upsert the account has a row with the new plan, status and
    end of validity; [valid_from] and [grace_until] are those of the
    previous row, or the time of the call and 0 in a new row. *)
Lemma upserted_row :
  exists row,
    find (by_account acc) (upserted now acc p s vu n d) = Some row /\
    sr_plan row = subscription_plan_to_string p /\
    sr_status row = subscription_status_to_string s /\
    sr_valid_until row = vu /\
    sr_valid_from row =
      match select_subscription acc d with
      | Some r0 => sr_valid_from r0
      | None => now
      end /\
    sr_grace_until row =
      match select_subscription acc d with
      | Some r0 => sr_grace_until r0
      | None => Some 0
      end.
Proof.
  unfold upserted, select_subscription. fold (by_account acc).
  destruct (find (by_account acc) (subscriptions d)) as [r0|] eqn:Hsel.
  - rewrite find_map_stable.
    2:{ intros a. unfold by_account. now rewrite update_sub_row_account. }
    rewrite Hsel. simpl.
    apply find_some in Hsel. destruct Hsel as [_ Hacc].
    unfold by_account in Hacc. unfold update_sub_row. rewrite Hacc.
    eexists. split; [reflexivity|]. simpl. auto.
  - rewrite find_snoc, Hsel. unfold by_account at 1. simpl.
    rewrite Z.eqb_refl. eexists. split; [reflexivity|]. simpl. auto.
Qed.

(** The rows of the other accounts are not touched. *)
Lemma upserted_other acc' :
  acc' <> acc ->
  find (by_account acc') (upserted now acc p s vu n d)
  = find (by_account acc') (subscriptions d).
Proof.
  intros Hne. unfold upserted.
  destruct (select_subscription acc d) as [r0|].
  - rewrite find_map_stable.
    2:{ intros a. unfold by_account. now rewrite update_sub_row_account. }
    induction (subscriptions d) as [|r l IH]; simpl; [reflexivity|].
    destruct (by_account acc' r) eqn:Hr; simpl.
    + unfold update_sub_row. unfold by_account in Hr.
      apply Z.eqb_eq in Hr.
      destruct (Z.eqb_spec (sr_account_id r) acc); [congruence|reflexivity].
    + exact IH.
  - rewrite find_snoc. unfold by_account at 2. simpl.
    apply Z.eqb_neq in Hne. rewrite Z.eqb_sym, Hne.
    destruct (find (by_account acc') (subscriptions d)); reflexivity.
Qed.

(** The upsert writes [grace_until] in a new row only, as 0. *)
Lemma upserted_grace :
  Forall (fun r => sr_grace_until r = Some 0) (subscriptions d) ->
  Forall (fun r => sr_grace_until r = Some 0) (upserted now acc p s vu n d).
Proof.
  intros H. unfold upserted.
  destruct (select_subscription acc d).
  - apply Forall_map. eapply Forall_impl; [|exact H].
    intros r Hr. unfold update_sub_row.
    destruct (sr_account_id r =? acc); [exact Hr|exact Hr].
  - apply Forall_app. split; [exact H|]. constructor; [reflexivity|constructor].
Qed.

End Upsert.

(** C1: a call of [subscription_update] whose COMMIT fails answers 0, the
    answer of success, although SQLite rolled the transaction back:
    neither the subscription row nor the ledger row is stored, where the
    same call with a COMMIT that goes through stores one of each.  The
    code does not look at the result of [db_commit_transaction], the only
    store call of the function whose failure it ignores next to BEGIN. *)
Theorem subscription_update_ignores_failed_commit :
  subscription_update 1000 1 PLAN_PRO STATUS_ACTIVE 2000 7 None
    (fresh_world staffed_database
       [false; false; false; false; false; false; true])
  = (0, fresh_world staffed_database []) /\
  subscriptions staffed_database = [] /\
  billing_events staffed_database = [] /\
  map (fun r => (sr_account_id r, sr_plan r, sr_status r, sr_valid_until r))
    (subscriptions
       (w_db (snd (subscription_update 1000 1 PLAN_PRO STATUS_ACTIVE 2000 7
                     None (fresh_world staffed_database [])))))
  = [(1, "pro"%string, "active"%string, 2000)] /\
  map (fun e => (be_account_id e, be_new_plan e, be_new_status e))
    (billing_events
       (w_db (snd (subscription_update 1000 1 PLAN_PRO STATUS_ACTIVE 2000 7
                     None (fresh_world staffed_database [])))))
  = [(1, Some "pro"%string, Some "active"%string)].
Proof. repeat split; reflexivity. Qed.

(** A failure of the ledger insert undoes the upsert. *)
Lemma ledger_failure_rolls_back :
  subscription_update 1000 1 PLAN_PRO STATUS_ACTIVE 2000 7 None
    (fresh_world staffed_database [false; false; false; false; false; true])
  = (-1, fresh_world staffed_database []).
Proof. reflexivity. Qed.

(** So does an administrator that [users] does not have: the ledger row
    violates the foreign key. *)
Lemma unknown_administrator_rolls_back :
  subscription_update 1000 1 PLAN_PRO STATUS_ACTIVE 2000 8 None
    (fresh_world staffed_database [])
  = (-1, fresh_world staffed_database []).
Proof. reflexivity. Qed.

(* ================================================================= *)
(** ** Properties of the admin billing action *)

Lemma wrap_int_small z :
  CInt.INT_MIN <= z <= CInt.INT_MAX -> CInt.wrap_int z = z.
Proof.
  unfold CInt.INT_MIN, CInt.INT_MAX, CInt.wrap_int. intros H.
  rewrite Z.mod_small; lia.
Qed.

(** Up to 24855 days the [int] product does not overflow. *)
Lemma duration_seconds_days days :
  -24855 <= days <= 24855 -> duration_seconds days = days * 86400.
Proof.
  intros H. unfold duration_seconds, CInt.int_mul.
  rewrite (wrap_int_small (days * 24)) by (unfold CInt.INT_MIN, CInt.INT_MAX; lia).
  rewrite (wrap_int_small (days * 24 * 60)) by (unfold CInt.INT_MIN, CInt.INT_MAX; lia).
  rewrite wrap_int_small by (unfold CInt.INT_MIN, CInt.INT_MAX; lia).
  lia.
Qed.

(** [billing_log_event] appends its row unless one of its two store calls
    fails or [users] does not have the administrator; it opens no
    transaction. *)
Lemma billing_log_event_outcome now acc ty pp np ps ns amount cur pm ref adm
  n w :
  let r := billing_log_event now acc ty pp np ps ns amount cur pm ref adm n w
  in
  w_saved (snd r) = w_saved w /\
  (exists k, w_faults (snd r) = skipn k (w_faults w)) /\
  subscriptions (w_db (snd r)) = subscriptions (w_db w) /\
  sessions (w_db (snd r)) = sessions (w_db w) /\
  users (w_db (snd r)) = users (w_db w) /\
  billing_events (w_db (snd r)) =
    (billing_events (w_db w) ++
     if log_fails w || negb (references_user (Some adm) (w_db w)) then []
     else [logged_event acc ty pp np ps ns amount cur pm ref adm n now
             (next_rowid be_id (billing_events (w_db w)))])%list /\
  fst r = (if log_fails w || negb (references_user (Some adm) (w_db w))
           then -1 else 0).
Proof.
  destruct w as [d sv fs].
  unfold billing_log_event, db_prepare, sqlite3_step_write, bind, ret,
    next_fault, log_fails, sql_insert_billing_event, references_user.
  destruct fs as [|[] [|[] fs]];
    cbn -[next_rowid skipn existsb]; rewrite ?app_nil_r;
    try (destruct (existsb (fun r => us_id r =? adm) (users d));
         cbn -[next_rowid skipn existsb]; rewrite ?app_nil_r);
    repeat split; try reflexivity;
    first [ now exists 0%nat | now exists 1%nat | now exists 2%nat ].
Qed.

Lemma billing_mark_as_paid_unfold now now_upd now_log acc p days amount pm
  ref adm n w :
  billing_mark_as_paid now now_upd now_log acc p days amount pm ref adm n w =
  let r1 :=
    subscription_update now_upd acc p STATUS_ACTIVE
      (now + duration_seconds days) adm n w in
  if fst r1 =? 0 then
    (0, snd (billing_log_event now_log acc "payment_received"
               None (Some (subscription_plan_to_string p))
               None (Some (subscription_status_to_string STATUS_ACTIVE))
               amount (Some "USD"%string) pm ref adm n (snd r1)))
  else (-1, snd r1).
Proof.
  unfold billing_mark_as_paid, bind.
  destruct (subscription_update _ _ _ _ _ _ _ w) as [rc w1]. cbn [fst snd].
  destruct (rc =? 0); cbn [negb]; [|reflexivity].
  destruct (billing_log_event _ _ _ _ _ _ _ _ _ _ _ _ _ w1). reflexivity.
Qed.

Lemma skipn_nil_any {A} k : @skipn A k [] = [].
Proof. destruct k; reflexivity. Qed.

(** C2 (amended): a [billing_mark_as_paid] that answers 0, for a number
    of days whose seconds fit an [int], whose subscription update is
    committed and whose payment row the store accepts, has run
    [subscription_update] with status active and
    [valid_until = now + duration_days * 86400], and has appended exactly
    two ledger rows for the account: first the "subscription_update" row
    of the update, with the new plan and no amount, then a
    "payment_received" row with the new plan and the amount in cents. *)
Theorem mark_as_paid_entries :
  forall now now_upd now_log acc p days amount pm ref adm n w rc w',
    w_saved w = None ->
    billing_mark_as_paid now now_upd now_log acc p days amount pm ref adm n w
    = (rc, w') ->
    rc = 0 ->
    -24855 <= days <= 24855 ->
    ~ commit_lost now_upd acc p STATUS_ACTIVE (now + duration_seconds days)
        adm n w ->
    log_fails
      (snd (subscription_update now_upd acc p STATUS_ACTIVE
              (now + duration_seconds days) adm n w)) = false ->
    exists row rowid,
      fst (subscription_update now_upd acc p STATUS_ACTIVE
             (now + days * 86400) adm n w) = 0 /\
      billing_events (w_db w') =
        (billing_events (w_db w)
         ++ [ledger_entry now_upd acc p STATUS_ACTIVE adm n (w_db w);
             payment_entry now_log acc p amount pm ref adm n rowid])%list /\
      be_account_id
        (ledger_entry now_upd acc p STATUS_ACTIVE adm n (w_db w)) = acc /\
      be_event_type (ledger_entry now_upd acc p STATUS_ACTIVE adm n (w_db w))
        = "subscription_update"%string /\
      be_new_plan (ledger_entry now_upd acc p STATUS_ACTIVE adm n (w_db w))
        = Some (subscription_plan_to_string p) /\
      be_new_status (ledger_entry now_upd acc p STATUS_ACTIVE adm n (w_db w))
        = Some "active"%string /\
      be_amount_cents (ledger_entry now_upd acc p STATUS_ACTIVE adm n (w_db w))
        = None /\
      be_account_id (payment_entry now_log acc p amount pm ref adm n rowid)
        = acc /\
      be_event_type (payment_entry now_log acc p amount pm ref adm n rowid)
        = "payment_received"%string /\
      be_new_plan (payment_entry now_log acc p amount pm ref adm n rowid)
        = Some (subscription_plan_to_string p) /\
      be_amount_cents (payment_entry now_log acc p amount pm ref adm n rowid)
        = Some amount /\
      select_subscription acc (w_db w') = Some row /\
      plan (subscription_of_row row) = p /\
      status (subscription_of_row row) = STATUS_ACTIVE /\
      valid_until (subscription_of_row row) = now + days * 86400.
Proof.
  intros now now_upd now_log acc p days amount pm ref adm n w rc w'
    Hsaved Hrun -> Hdays Hkept Hlog.
  rewrite <- (duration_seconds_days days Hdays).
  rewrite billing_mark_as_paid_unfold in Hrun. cbv zeta in Hrun.
  destruct w as [d sv fs]. cbn [w_saved] in Hsaved. subst sv.
  pose proof (subscription_update_stored now_upd acc p STATUS_ACTIVE
                (now + duration_seconds days) adm n d fs) as Hout.
  cbv zeta in Hout.
  unfold commit_lost in Hkept. cbn [w_db] in *.
  destruct (subscription_update now_upd acc p STATUS_ACTIVE
              (now + duration_seconds days) adm n (mk_world d None fs))
    as [rc1 w1] eqn:Hupd.
  cbn [fst snd] in *.
  destruct (Z.eqb_spec rc1 0) as [->|Hne]; [|discriminate Hrun].
  injection Hrun as Hw'. subst w'.
  destruct (Hout eq_refl) as [Hfk Hdb].
  { intros Hsame. apply Hkept. split; [reflexivity | exact Hsame]. }
  pose proof (billing_log_event_outcome now_log acc "payment_received"
                None (Some (subscription_plan_to_string p))
                None (Some (subscription_status_to_string STATUS_ACTIVE))
                amount (Some "USD"%string) pm ref adm n w1) as Hpay.
  cbv zeta in Hpay. cbn [subscription_status_to_string] in Hpay.
  destruct Hpay as (_ & _ & Hsubs & _ & _ & Hevents & _).
  assert (Hfk1 : references_user (Some adm) (w_db w1) = true).
  { rewrite Hdb. exact Hfk. }
  rewrite Hlog, Hfk1 in Hevents. cbn [orb negb] in Hevents.
  destruct (upserted_row now_upd acc p STATUS_ACTIVE
              (now + duration_seconds days) n d)
    as (row & Hfind & Hp & Hs & Hvu & _).
  exists row, (next_rowid be_id (billing_events (w_db w1))).
  split; [reflexivity|].
  split.
  { rewrite Hevents, Hdb. cbn [billing_events]. rewrite <- app_assoc.
    reflexivity. }
  do 9 (split; [reflexivity|]).
  split.
  { unfold select_subscription. rewrite Hsubs, Hdb. exact Hfind. }
  split.
  { unfold subscription_of_row. cbn [plan]. rewrite Hp.
    apply plan_text_roundtrip. }
  split.
  { unfold subscription_of_row. cbn [status]. rewrite Hs. reflexivity. }
  exact Hvu.
Qed.

Lemma mark_as_paid_entries_witness :
  map (fun e => (be_event_type e, be_new_plan e, be_amount_cents e))
    (billing_events
       (w_db (snd (billing_mark_as_paid 1000 1000 1000 1 PLAN_PRO 30 4900
                     (Some "manual"%string) (Some "INV-1"%string) 7 None
                     (fresh_world staffed_database [])))))
  = [("subscription_update"%string, Some "pro"%string, None);
     ("payment_received"%string, Some "pro"%string, Some 4900)] /\
  exists row,
    select_subscription 1
      (w_db (snd (billing_mark_as_paid 1000 1000 1000 1 PLAN_PRO 30 4900
                    (Some "manual"%string) (Some "INV-1"%string) 7 None
                    (fresh_world staffed_database [])))) = Some row /\
    valid_until (subscription_of_row row) = 1000 + 30 * 86400.
Proof.
  destruct (mark_as_paid_entries 1000 1000 1000 1 PLAN_PRO 30 4900
              (Some "manual"%string) (Some "INV-1"%string) 7 None
              (fresh_world staffed_database []) _ _ eq_refl
              (surjective_pairing _) eq_refl)
    as (row & rowid & _ & He & _ & _ & _ & _ & _ & _ & _ & _ & _ & Hsel & _
        & _ & Hvu).
  - lia.
  - intros [_ Hsame]. discriminate Hsame.
  - reflexivity.
  - split; [reflexivity|]. exists row. split; [exact Hsel | exact Hvu].
Defined.

(** The scenario of the specification: the free account has no CSV export,
    the paid account has it, and the payment left two ledger rows after the
    one of the creation, the last with the new plan and the amount. *)
Example csv_export_after_payment :
  fst (entitlement_has_feature 1500 1 FEATURE_CSV_EXPORT free_account)
  = false /\
  fst (entitlement_has_feature 2500 1 FEATURE_CSV_EXPORT paid_account)
  = true /\
  map (fun e => (be_event_type e, be_new_plan e, be_amount_cents e))
    (billing_events (w_db paid_account))
  = [("subscription_update"%string, Some "free"%string, None);
     ("subscription_update"%string, Some "pro"%string, None);
     ("payment_received"%string, Some "pro"%string, Some 4900)].
Proof. repeat split; reflexivity. Qed.

(** C2 as the specification states it does not hold: one call on a store
    without subscriptions appends two ledger rows, and the row of the
    update carries no amount. *)
Lemma mark_paid_appends_two_entries : ~ mark_paid_single_entry.
Proof.
  intros H.
  destruct (H 1000 1000 1000 1 PLAN_PRO 30 4900 (Some "manual"%string)
              (Some "INV-1"%string) 7 None (fresh_world staffed_database [])
              _ _ eq_refl (surjective_pairing _) eq_refl) as (ev & Hev & _).
  apply (f_equal (@List.length event_row)) in Hev.
  discriminate Hev.
Qed.

(* ================================================================= *)
(** ** The ledger as the history of the subscriptions *)

(** A subscription that is read is the image of the row that the SELECT
    finds. *)
Lemma get_by_account_row acc w sub :
  fst (subscription_get_by_account acc w) = Some sub ->
  exists row,
    select_subscription acc (w_db w) = Some row /\
    In row (subscriptions (w_db w)) /\ sr_account_id row = acc /\
    sub = subscription_of_row row.
Proof.
  destruct w as [d sv fs].
  unfold subscription_get_by_account, db_prepare, sqlite3_step_query, bind,
    ret, next_fault.
  destruct (select_subscription acc d) as [row|] eqn:Hsel;
    destruct fs as [|[] [|[] fs]]; cbn -[select_subscription];
    rewrite ?Hsel; cbn; try discriminate;
    intros [= <-]; exists row; (split; [first [reflexivity | exact Hsel]|]);
    unfold select_subscription in Hsel; apply find_some in Hsel;
    destruct Hsel as [Hin Hacc]; apply Z.eqb_eq in Hacc; auto.
Qed.


Lemma replay_snoc evs e :
  replay_events (evs ++ [e]) = apply_event (replay_events evs) e.
Proof. unfold replay_events. rewrite fold_left_app. reflexivity. Qed.

Lemma subscription_update_keeps_ledger now acc p s vu adm n d fs :
  ledger_invariant d ->
  ledger_invariant
    (w_db (snd (subscription_update now acc p s vu adm n
                  (mk_world d None fs)))).
Proof.
  intros Hinv.
  pose proof (subscription_update_db now acc p s vu adm n d fs) as Hout.
  cbv zeta in Hout.
  destruct Hout as [Hdb | Hdb]; rewrite Hdb; [exact Hinv|].
  intros acc'. unfold events_for, select_subscription.
  cbn [billing_events subscriptions]. rewrite filter_snoc.
  cbn [ledger_entry update_event be_account_id].
  destruct (Z.eqb_spec acc acc') as [<-|Hne].
  - rewrite replay_snoc.
    destruct (upserted_row now acc p s vu n d)
      as (row & Hfind & Hp & Hs & _).
    rewrite Hfind. cbn. unfold plan_and_status. rewrite Hp, Hs. reflexivity.
  - rewrite app_nil_r, upserted_other by congruence. apply Hinv.
Qed.

(** The payment row repeats the plan and status that the committed
    update has just stored. *)
Lemma billing_mark_as_paid_keeps_ledger now now_upd now_log acc p days amount
  pm ref adm n d fs :
  ~ commit_lost now_upd acc p STATUS_ACTIVE (now + duration_seconds days)
      adm n (mk_world d None fs) ->
  ledger_invariant d ->
  ledger_invariant
    (w_db (snd (billing_mark_as_paid now now_upd now_log acc p days amount
                  pm ref adm n (mk_world d None fs)))).
Proof.
  intros Hkept Hinv.
  rewrite billing_mark_as_paid_unfold. cbv zeta.
  pose proof (subscription_update_keeps_ledger now_upd acc p STATUS_ACTIVE
                (now + duration_seconds days) adm n d fs Hinv) as Hinv1.
  pose proof (subscription_update_stored now_upd acc p STATUS_ACTIVE
                (now + duration_seconds days) adm n d fs) as Hout.
  cbv zeta in Hout. unfold commit_lost in Hkept. cbn [w_db] in Hkept.
  destruct (subscription_update now_upd acc p STATUS_ACTIVE
              (now + duration_seconds days) adm n (mk_world d None fs))
    as [rc1 w1].
  cbn [fst snd] in *.
  destruct (Z.eqb_spec rc1 0) as [->|Hne]; cbn [snd]; [|exact Hinv1].
  destruct (Hout eq_refl) as [_ Hdb].
  { intros Hsame. apply Hkept. split; [reflexivity | exact Hsame]. }
  pose proof (billing_log_event_outcome now_log acc "payment_received"
                None (Some (subscription_plan_to_string p))
                None (Some (subscription_status_to_string STATUS_ACTIVE))
                amount (Some "USD"%string) pm ref adm n w1) as Hlog.
  cbv zeta in Hlog.
  destruct Hlog as (_ & _ & Hsubs & _ & _ & Hevents & _).
  intros acc'. unfold events_for, select_subscription.
  rewrite Hevents, Hsubs.
  specialize (Hinv1 acc'). unfold events_for, select_subscription in Hinv1.
  destruct (log_fails w1 || negb (references_user (Some adm) (w_db w1)));
    [rewrite app_nil_r; exact Hinv1|].
  rewrite filter_snoc. cbn [logged_event be_account_id].
  destruct (Z.eqb_spec acc acc') as [<-|Hne];
    [|rewrite app_nil_r; exact Hinv1].
  rewrite replay_snoc. rewrite Hdb. cbn [subscriptions].
  destruct (upserted_row now_upd acc p STATUS_ACTIVE
              (now + duration_seconds days) n d)
    as (row & Hfind & Hp & Hs & _).
  rewrite Hfind. cbn. unfold plan_and_status. rewrite Hp, Hs. reflexivity.
Qed.

(** The plan and status of a row are texts that the engine prints. *)
Lemma upserted_canonical now acc p s vu n d :
  Forall canonical_row (subscriptions d) ->
  Forall canonical_row (upserted now acc p s vu n d).
Proof.
  intros H. unfold upserted.
  destruct (select_subscription acc d).
  - apply Forall_map. eapply Forall_impl; [|exact H].
    intros r Hr. unfold update_sub_row.
    destruct (sr_account_id r =? acc); [|exact Hr].
    split; [exists p | exists s]; reflexivity.
  - apply Forall_app. split; [exact H|].
    constructor; [|constructor]. split; [exists p | exists s]; reflexivity.
Qed.

Lemma subscription_update_keeps_canonical now acc p s vu adm n d fs :
  Forall canonical_row (subscriptions d) ->
  Forall canonical_row
    (subscriptions
       (w_db (snd (subscription_update now acc p s vu adm n
                     (mk_world d None fs))))).
Proof.
  intros Hd.
  pose proof (subscription_update_db now acc p s vu adm n d fs) as Hout.
  cbv zeta in Hout.
  destruct Hout as [Hdb | Hdb]; rewrite Hdb; [exact Hd|].
  cbn [subscriptions]. apply upserted_canonical, Hd.
Qed.

Lemma billing_mark_as_paid_keeps_canonical now now_upd now_log acc p days
  amount pm ref adm n d fs :
  Forall canonical_row (subscriptions d) ->
  Forall canonical_row
    (subscriptions
       (w_db (snd (billing_mark_as_paid now now_upd now_log acc p days amount
                     pm ref adm n (mk_world d None fs))))).
Proof.
  intros Hd.
  rewrite billing_mark_as_paid_unfold. cbv zeta.
  pose proof (subscription_update_keeps_canonical now_upd acc p STATUS_ACTIVE
                (now + duration_seconds days) adm n d fs Hd) as H1.
  destruct (fst _ =? 0); cbn [snd]; [|exact H1].
  match goal with
  | |- Forall _ (subscriptions (w_db (snd (billing_log_event ?a ?b ?c ?d0 ?e
                                             ?f ?g ?h ?i ?j ?k ?l ?m ?w1)))) =>
      pose proof (billing_log_event_outcome a b c d0 e f g h i j k l m w1)
        as Hl
  end.
  cbv zeta in Hl. destruct Hl as (_ & _ & Hl & _). rewrite Hl. exact H1.
Qed.

Lemma billing_reachable_invariant w :
  billing_reachable w ->
  w_saved w = None /\ ledger_invariant (w_db w) /\
  Forall canonical_row (subscriptions (w_db w)).
Proof.
  induction 1 as [ss us fs
                 | w fs now acc p s vu adm n _ (Hs & Hi & Hc)
                 | w fs now now_upd acc p _ (Hs & Hi & Hc)
                 | w fs now now_upd now_log acc p days amount pm ref adm n _
                     (Hs & Hi & Hc) Hkept ].
  - split; [reflexivity|]. split; [intros acc; reflexivity|constructor].
  - unfold with_faults. rewrite Hs. split; [|split].
    + apply subscription_update_cases.
    + apply subscription_update_keeps_ledger, Hi.
    + apply subscription_update_keeps_canonical, Hc.
  - unfold with_faults, subscription_create. rewrite Hs. split; [|split].
    + apply subscription_update_cases.
    + apply subscription_update_keeps_ledger, Hi.
    + apply subscription_update_keeps_canonical, Hc.
  - unfold with_faults in *. rewrite Hs in *. split; [|split].
    + rewrite billing_mark_as_paid_unfold. cbv zeta.
      pose proof (subscription_update_cases now_upd acc p STATUS_ACTIVE
                    (now + duration_seconds days) adm n (w_db w) fs) as Hout.
      cbv zeta in Hout. destruct Hout as (Hsv & _).
      destruct (fst _ =? 0); cbn [snd]; [|exact Hsv].
      match goal with
      | |- w_saved (snd (billing_log_event ?a ?b ?c ?d ?e ?f ?g ?h ?i ?j ?k
                           ?l ?m ?w1)) = None =>
          pose proof (billing_log_event_outcome a b c d e f g h i j k l m w1)
            as Hl
      end.
      cbv zeta in Hl. destruct Hl as (Hl & _). rewrite Hl. exact Hsv.
    + apply billing_mark_as_paid_keeps_ledger; [exact Hkept | exact Hi].
    + apply billing_mark_as_paid_keeps_canonical, Hc.
Qed.

(** C7 (amended): in every state that the engine and the admin action
    produce from an empty store, whatever fails on the way, but for the
    calls of [billing_mark_as_paid] whose update loses its COMMIT,
    replaying the ledger rows of an account in rowid order, each leading
    to its recorded new plan and status, gives the plan and status of the
    account's subscription row (and nothing exactly when the account has
    no row), which are the plan and status that
    [subscription_get_by_account] reads.  The validity window is not in
    the ledger. *)
Theorem replay_reconstructs_plan_and_status :
  forall w acc,
    billing_reachable w ->
    replay_events (events_for acc (w_db w))
    = option_map plan_and_status (select_subscription acc (w_db w)) /\
    (forall fs sub,
        fst (subscription_get_by_account acc (with_faults fs w)) = Some sub ->
        replay_events (events_for acc (w_db w))
        = Some (subscription_plan_to_string (plan sub),
                subscription_status_to_string (status sub))).
Proof.
  intros w acc H.
  destruct (billing_reachable_invariant w H) as (_ & Hinv & Hcanon).
  split; [apply Hinv|].
  intros fs sub Hget.
  destruct (get_by_account_row _ _ _ Hget) as (row & Hsel & Hin & _ & ->).
  cbn [with_faults w_db] in Hsel, Hin.
  rewrite Hinv, Hsel. cbn [option_map]. unfold plan_and_status.
  rewrite Forall_forall in Hcanon.
  destruct (Hcanon row Hin) as [[p Hp] [s Hs]].
  unfold subscription_of_row. cbn [plan status].
  rewrite Hp, Hs, plan_text_roundtrip, status_text_roundtrip. reflexivity.
Qed.

Lemma replay_reconstructs_plan_and_status_witness :
  billing_reachable pro_until_2000 /\
  replay_events (events_for 1 (w_db pro_until_2000))
  = Some ("pro"%string, "active"%string).
Proof.
  assert (H : billing_reachable pro_until_2000).
  { unfold pro_until_2000. apply billing_update. apply billing_init. }
  split; [exact H|].
  rewrite (proj1 (replay_reconstructs_plan_and_status pro_until_2000 1 H)).
  reflexivity.
Defined.

(** C7 as the specification states it does not hold: two histories that
    differ in [valid_until] only leave the same ledger and different
    subscription rows, so no replay of the ledger gives the row. *)
Lemma ledger_forgets_validity : ~ ledger_determines_subscription.
Proof.
  intros [replay H].
  assert (HA : billing_reachable pro_until_2000).
  { unfold pro_until_2000. apply billing_update. apply billing_init. }
  assert (HB : billing_reachable pro_until_3000).
  { unfold pro_until_3000. apply billing_update. apply billing_init. }
  pose proof (H _ 1 HA) as EA. pose proof (H _ 1 HB) as EB.
  change (events_for 1 (w_db pro_until_3000))
    with (events_for 1 (w_db pro_until_2000)) in EB.
  rewrite EA in EB. discriminate EB.
Qed.

(* ================================================================= *)
(** ** The grace period in the states of the engine *)

(** Whatever the call answers, the row that the account has afterwards
    has the [grace_until] of the row that it had before (the UPDATE does
    not name the column), or 0 when the row is new. *)
Lemma upsert_grace_until now acc p s vu adm n w row :
  w_saved w = None ->
  select_subscription acc
    (w_db (snd (subscription_update now acc p s vu adm n w))) = Some row ->
  sr_grace_until row =
    match select_subscription acc (w_db w) with
    | Some r0 => sr_grace_until r0
    | None => Some 0
    end.
Proof.
  destruct w as [d sv fs]. cbn [w_saved w_db]. intros -> Hrow.
  pose proof (subscription_update_db now acc p s vu adm n d fs) as Hout.
  cbv zeta in Hout.
  destruct Hout as [Hdb | Hdb]; rewrite Hdb in Hrow.
  - rewrite Hrow. reflexivity.
  - destruct (upserted_row now acc p s vu n d)
      as (row' & Hfind & _ & _ & _ & _ & Hg).
    unfold select_subscription in Hrow at 1. cbn [subscriptions] in Hrow.
    rewrite Hfind in Hrow. injection Hrow as <-. exact Hg.
Qed.

(** A call that answers 0 and changed the store left a row for the
    account. *)
Lemma upsert_leaves_row now acc p s vu adm n w :
  w_saved w = None ->
  ~ commit_lost now acc p s vu adm n w ->
  fst (subscription_update now acc p s vu adm n w) = 0 ->
  exists row,
    select_subscription acc
      (w_db (snd (subscription_update now acc p s vu adm n w))) = Some row.
Proof.
  destruct w as [d sv fs]. unfold commit_lost. cbn [w_saved w_db].
  intros -> Hkept Hrc.
  destruct (subscription_update_stored now acc p s vu adm n d fs Hrc)
    as [_ Hdb].
  { intros Hsame. apply Hkept. split; assumption. }
  rewrite Hdb.
  destruct (upserted_row now acc p s vu n d) as (row & Hfind & _).
  exists row. exact Hfind.
Qed.

Lemma engine_reachable_invariant w :
  engine_reachable w ->
  w_saved w = None /\
  Forall (fun r => sr_grace_until r = Some 0) (subscriptions (w_db w)).
Proof.
  assert (Hstep : forall now acc p s vu adm n d fs,
             Forall (fun r => sr_grace_until r = Some 0) (subscriptions d) ->
             Forall (fun r => sr_grace_until r = Some 0)
               (subscriptions
                  (w_db (snd (subscription_update now acc p s vu adm n
                                (mk_world d None fs)))))).
  { intros now acc p s vu adm n d fs Hd.
    pose proof (subscription_update_db now acc p s vu adm n d fs) as Hout.
    cbv zeta in Hout.
    destruct Hout as [Hdb | Hdb]; rewrite Hdb; [exact Hd|].
    cbn [subscriptions]. apply upserted_grace, Hd. }
  induction 1 as [ss us fs
                 | w fs now acc p s vu adm n _ [Hs Hi]
                 | w fs now now_upd acc p _ [Hs Hi] ].
  - split; [reflexivity|constructor].
  - unfold with_faults. rewrite Hs. split;
      [apply subscription_update_cases | apply Hstep, Hi].
  - unfold with_faults, subscription_create. rewrite Hs. split;
      [apply subscription_update_cases | apply Hstep, Hi].
Qed.

(** C10: in every state that [subscription_create] and
    [subscription_update] alone produce from an empty [subscriptions]
    table, every row has [grace_until] 0 (the INSERT binds 0, the UPDATE
    does not write the column): after a further call, whatever it
    answers, the row of the account has the [grace_until] of the row
    before it or 0 when it is new, and a call that answers 0 without
    losing its COMMIT leaves such a row; every subscription read has
    [grace_until] 0, the test of the grace branch of
    [subscription_is_valid] is false at every time, and an expired or
    cancelled subscription is never valid. *)
Theorem engine_never_grants_grace :
  forall w,
    engine_reachable w ->
    Forall (fun r => sr_grace_until r = Some 0) (subscriptions (w_db w)) /\
    (forall now acc p s vu adm n fs rc w',
        subscription_update now acc p s vu adm n (with_faults fs w)
        = (rc, w') ->
        (forall row,
            select_subscription acc (w_db w') = Some row ->
            sr_grace_until row =
              match select_subscription acc (w_db w) with
              | Some r0 => sr_grace_until r0
              | None => Some 0
              end) /\
        (rc = 0 ->
         ~ commit_lost now acc p s vu adm n (with_faults fs w) ->
         exists row, select_subscription acc (w_db w') = Some row)) /\
    (forall fs acc sub,
        fst (subscription_get_by_account acc (with_faults fs w)) = Some sub ->
        grace_until sub = 0 /\
        forall now,
          in_grace now sub = false /\
          (status_lapsed (status sub) = true ->
           subscription_is_valid now sub = false)).
Proof.
  intros w Hreach.
  destruct (engine_reachable_invariant w Hreach) as [Hs Hall].
  split; [exact Hall|]. split.
  - intros now acc p s vu adm n fs rc w' Hrun.
    assert (Hw' : w' = snd (subscription_update now acc p s vu adm n
                              (with_faults fs w))) by now rewrite Hrun.
    assert (Hrc : rc = fst (subscription_update now acc p s vu adm n
                              (with_faults fs w))) by now rewrite Hrun.
    subst w' rc. split.
    + intros row Hrow.
      apply (upsert_grace_until now acc p s vu adm n (with_faults fs w) row);
        [exact Hs | exact Hrow].
    + intros Hrc Hkept.
      apply upsert_leaves_row; [exact Hs | exact Hkept | exact Hrc].
  - intros fs acc sub Hget.
    destruct (get_by_account_row _ _ _ Hget) as (row & _ & Hin & _ & ->).
    cbn [with_faults w_db] in Hin.
    rewrite Forall_forall in Hall. specialize (Hall row Hin).
    assert (Hg : grace_until (subscription_of_row row) = 0).
    { unfold subscription_of_row. cbn [grace_until]. rewrite Hall.
      reflexivity. }
    split; [exact Hg|]. intros now.
    assert (Hin_grace : in_grace now (subscription_of_row row) = false).
    { unfold in_grace. rewrite Hg. reflexivity. }
    split; [exact Hin_grace|].
    intros Hl. unfold subscription_is_valid. rewrite Hl, Hin_grace.
    reflexivity.
Qed.

Lemma engine_never_grants_grace_witness :
  engine_reachable cancelled_account /\
  fst (subscription_get_by_account 1 (with_faults [] cancelled_account))
  = Some cancelled_subscription /\
  grace_until cancelled_subscription = 0 /\
  subscription_is_valid 1500 cancelled_subscription = false.
Proof.
  assert (H : engine_reachable cancelled_account).
  { unfold cancelled_account. apply engine_update, engine_create,
      engine_init. }
  assert (Hget : fst (subscription_get_by_account 1
                        (with_faults [] cancelled_account))
                 = Some cancelled_subscription) by reflexivity.
  split; [exact H|]. split; [exact Hget|].
  destruct (engine_never_grants_grace cancelled_account H) as (_ & _ & Hsub).
  destruct (Hsub [] 1 cancelled_subscription Hget) as [Hg Hnow].
  split; [exact Hg|].
  apply (Hnow 1500). reflexivity.
Defined.

(* ================================================================= *)
(** ** The life of a session *)

Lemma existsb_token_false tok l :
  existsb (fun s => (se_token s =? tok)%string) l = false <->
  (forall s, In s l -> se_token s <> tok).
Proof.
  induction l as [|a l IH]; simpl.
  - split; [intros _ s []|reflexivity].
  - rewrite orb_false_iff, IH. split.
    + intros [Ha Hl] s [<-|Hin]; [now apply String.eqb_neq|auto].
    + intros H. split; [apply String.eqb_neq|]; auto.
Qed.

(** The two outcomes of [session_create]; a session is stored for a user
    that [users] has only. *)
Lemma session_create_outcome now tok uid ip ua size w :
  let r := session_create now (Some tok) uid ip ua size w in
  w_saved (snd r) = w_saved w /\
  ((fst r = (-1, None) /\ w_db (snd r) = w_db w) \/
   (fst r = (0, Some (StringUtils.safe_strncpy tok size)) /\
    (forall s, In s (sessions (w_db w)) -> se_token s <> tok) /\
    w_db (snd r) =
      set_sessions (sessions (w_db w) ++ [new_session now uid tok ip ua (w_db w)])
        (w_db w))).
Proof.
  destruct w as [d sv fs].
  unfold session_create, db_prepare, sqlite3_step_write, bind, ret,
    next_fault, sql_insert_session, new_session, references_user.
  cbn [w_db w_saved w_faults].
  destruct (existsb (fun s => (se_token s =? tok)%string) (sessions d)) eqn:Hex;
    destruct (existsb (fun r => us_id r =? uid) (users d)) eqn:Hfk;
    destruct fs as [|[] [|[] fs]]; cbn -[next_rowid];
    rewrite ?Hex, ?Hfk; cbn -[next_rowid]; (split; [reflexivity|]);
    try (left; split; reflexivity);
    right; (split; [reflexivity|]); (split; [|reflexivity]);
    apply existsb_token_false; exact Hex.
Qed.

(** The two outcomes of [session_delete]. *)
Lemma session_delete_outcome tok w :
  let r := session_delete tok w in
  w_saved (snd r) = w_saved w /\
  ((fst r = -1 /\ w_db (snd r) = w_db w) \/
   (fst r = 0 /\
    w_db (snd r) =
      set_sessions
        (filter (fun s => negb (se_token s =? tok)%string) (sessions (w_db w)))
        (w_db w))).
Proof.
  destruct w as [d sv fs].
  unfold session_delete, db_prepare, sqlite3_step_write, bind, ret,
    next_fault.
  destruct fs as [|[] [|[] fs]]; cbn; (split; [reflexivity|]);
    first [left; split; reflexivity | right; split; reflexivity].
Qed.

(** The two outcomes of [session_cleanup_expired]. *)
Lemma session_cleanup_expired_outcome now w :
  let r := session_cleanup_expired now w in
  w_saved (snd r) = w_saved w /\
  ((fst r = -1 /\ w_db (snd r) = w_db w) \/
   (fst r = Z.of_nat (List.length (filter (swept now) (sessions (w_db w)))) /\
    w_db (snd r) =
      set_sessions (filter (fun s => negb (swept now s)) (sessions (w_db w)))
        (w_db w))).
Proof.
  destruct w as [d sv fs].
  unfold session_cleanup_expired, current_database, db_prepare,
    sqlite3_step_write, sql_delete_expired, bind, ret, next_fault.
  destruct fs as [|[] [|[] fs]]; cbn -[swept Z.of_nat];
    (split; [reflexivity|]);
    first [left; split; reflexivity | right; split; reflexivity].
Qed.

(** What [session_validate] answers, from the lookup and the clock. *)
Lemma session_validate_answer now now_upd tok req w :
  fst (session_validate now now_upd (Some tok) req w) =
  if lookup_fails w then (false, req)
  else
    match lookup_session tok w with
    | Some (s, u) =>
        if (se_expires_at s <? now)
           || (SESSION_INACTIVITY_SECONDS <? now - se_last_activity_at s)
        then (false, req)
        else (true, populate_context s u req)
    | None => (false, req)
    end.
Proof.
  pose proof (session_validate_outcome now now_upd tok req w) as Hout.
  cbv zeta in Hout.
  destruct Hout as [(Hres & _ & _ & Hwhy)
                   | (s & u & Hlf & Hsel & He & Hi & Hres & _)];
    rewrite Hres.
  - destruct Hwhy as [-> | [Hnone | (s & u & Hsel & Hlim)]];
      [reflexivity | | ].
    + rewrite Hnone. destruct (lookup_fails w); reflexivity.
    + rewrite Hsel. destruct (lookup_fails w); [reflexivity|].
      replace ((se_expires_at s <? now)
               || (SESSION_INACTIVITY_SECONDS <? now - se_last_activity_at s))
        with true; [reflexivity|].
      symmetry. apply orb_true_iff.
      destruct Hlim; [left|right]; now apply Z.ltb_lt.
  - rewrite Hlf, Hsel.
    replace ((se_expires_at s <? now)
             || (SESSION_INACTIVITY_SECONDS <? now - se_last_activity_at s))
      with false; [reflexivity|].
    symmetry. apply orb_false_iff. split; apply Z.ltb_ge; lia.
Qed.

Lemma substring_all s n :
  (String.length s <= n)%nat -> substring 0 n s = s.
Proof.
  revert n. induction s as [|c s IH]; intros [|n] H; simpl in *;
    try reflexivity; try lia.
  rewrite IH by lia. reflexivity.
Qed.

Lemma safe_strncpy_fits s size :
  (String.length s < size)%nat -> StringUtils.safe_strncpy s size = s.
Proof.
  destruct size as [|n]; [lia|]. intros H. simpl. apply substring_all. lia.
Qed.

Lemma select_session_user_skip tok us l l' :
  (forall s, In s l -> se_token s <> tok) ->
  select_session_user tok us (l ++ l') = select_session_user tok us l'.
Proof.
  induction l as [|a l IH]; intros H; simpl; [reflexivity|].
  destruct (String.eqb_spec (se_token a) tok) as [E|E].
  - exfalso. apply (H a); [left; reflexivity|exact E].
  - apply IH. intros s Hin. apply H. right. exact Hin.
Qed.

Lemma find_active_user us uid u :
  In u us -> us_id u = uid -> us_is_active u = 1 ->
  exists u', find (fun x => (us_id x =? uid) && (us_is_active x =? 1)) us
             = Some u' /\ us_id u' = uid /\ us_is_active u' = 1.
Proof.
  intros Hin Hid Hact.
  destruct (find (fun x => (us_id x =? uid) && (us_is_active x =? 1)) us)
    as [u'|] eqn:Hf.
  - exists u'. split; [reflexivity|].
    apply find_some in Hf. destruct Hf as [_ Hb].
    apply andb_true_iff in Hb. destruct Hb as [H1 H2].
    split; [now apply Z.eqb_eq | now apply Z.eqb_eq].
  - exfalso. apply (find_none _ _ Hf u) in Hin.
    rewrite Hid, Hact, !Z.eqb_refl in Hin. discriminate.
Qed.

(** What [session_get_by_token] answers. *)
Lemma session_get_by_token_answer tok w :
  fst (session_get_by_token tok w) =
  if lookup_fails w then None
  else option_map session_of_row (select_session tok (w_db w)).
Proof.
  destruct w as [d sv fs].
  unfold session_get_by_token, db_prepare, sqlite3_step_query, bind, ret,
    next_fault, lookup_fails.
  cbn [w_db w_saved w_faults].
  destruct (select_session tok d) as [s|] eqn:Hsel;
    destruct fs as [|[] [|[] fs]]; cbn -[select_session];
    rewrite ?Hsel; reflexivity.
Qed.

(** X1: a session that [session_create] has just stored is found again:
    with a token that fits the caller's buffer and an active owner, a
    validation whose lookup the store answers accepts the token exactly
    until a day after the creation, and loads the owner; and
    [session_get_by_token] reads the row back with the week of validity. *)
Theorem fresh_session_validates :
  forall now generated uid ip ua size w tok w1 u,
    session_create now (Some generated) uid ip ua size w
    = ((0, Some tok), w1) ->
    (String.length generated < size)%nat ->
    In u (users (w_db w)) -> us_id u = uid -> us_is_active u = 1 ->
    tok = generated /\
    (forall t t_upd req fs,
        lookup_fails (with_faults fs w1) = false ->
        (fst (fst (session_validate t t_upd (Some tok) req
                     (with_faults fs w1))) = true
         <-> t <= now + SESSION_INACTIVITY_SECONDS) /\
        (t <= now + SESSION_INACTIVITY_SECONDS ->
         user_id (snd (fst (session_validate t t_upd (Some tok) req
                              (with_faults fs w1)))) = uid)) /\
    (forall fs,
        lookup_fails (with_faults fs w1) = false ->
        exists sn,
          fst (session_get_by_token tok (with_faults fs w1)) = Some sn /\
          sn_user_id sn = uid /\
          sn_created_at sn = now /\
          sn_last_activity_at sn = now /\
          sn_expires_at sn = now + SESSION_DURATION_SECONDS).
Proof.
  intros now generated uid ip ua size w tok w1 u Hrun Hfit Hin Hid Hact.
  pose proof (session_create_outcome now generated uid ip ua size w) as Hout.
  cbv zeta in Hout. rewrite Hrun in Hout. cbn [fst snd] in Hout.
  destruct Hout as (_ & [[Hbad _] | (Hres & Hfresh & Hdb)]);
    [discriminate Hbad|].
  injection Hres as Htok. rewrite safe_strncpy_fits in Htok by exact Hfit.
  subst tok. split; [reflexivity|].
  destruct (find_active_user _ uid u Hin Hid Hact) as (u' & Hfind & Hid' & _).
  assert (Hlook : forall fs,
             lookup_session generated (with_faults fs w1)
             = Some (new_session now uid generated ip ua (w_db w), u')).
  { intros fs. unfold lookup_session. cbn [with_faults w_db].
    rewrite Hdb. cbn [set_sessions sessions users].
    rewrite select_session_user_skip by exact Hfresh.
    cbn [select_session_user new_session se_token se_user_id].
    rewrite String.eqb_refl, Hfind. reflexivity. }
  split.
  - intros t t_upd req fs Hlf.
    rewrite session_validate_answer, Hlf, Hlook.
    cbn [new_session se_expires_at se_last_activity_at].
    unfold SESSION_DURATION_SECONDS, SESSION_INACTIVITY_SECONDS.
    zbool; cbn [orb fst snd populate_context user_id new_session se_user_id];
      split; try (split; intros; try discriminate; try reflexivity; lia);
      intros; try reflexivity; lia.
  - intros fs Hlf.
    rewrite session_get_by_token_answer, Hlf.
    unfold select_session. cbn [with_faults w_db]. rewrite Hdb.
    cbn [set_sessions sessions]. rewrite find_snoc.
    assert (Hnone : find (fun s => (se_token s =? generated)%string)
                      (sessions (w_db w)) = None).
    { destruct (find _ (sessions (w_db w))) as [s0|] eqn:Hf; [|reflexivity].
      apply find_some in Hf. destruct Hf as [Hin0 Heq].
      apply String.eqb_eq in Heq. exfalso. exact (Hfresh s0 Hin0 Heq). }
    rewrite Hnone. cbn [new_session se_token]. rewrite String.eqb_refl.
    eexists. split; [reflexivity|]. cbn. auto.
Qed.

Lemma fresh_session_validates_witness :
  session_create 1000 (Some "ab12"%string) 7 None None 65
    (fresh_world (mk_database [] [] [] [sample_user]) [])
  = ((0, Some "ab12"%string),
     fresh_world
       (mk_database [] []
          [mk_session_row 1 7 "ab12" 1000 605800 1000 EmptyString EmptyString]
          [sample_user]) []) /\
  fst (fst (session_validate 87400 87400 (Some "ab12"%string) sample_request
              (with_faults []
                 (fresh_world
                    (mk_database [] []
                       [mk_session_row 1 7 "ab12" 1000 605800 1000
                          EmptyString EmptyString]
                       [sample_user]) [])))) = true.
Proof.
  assert (Hrun : session_create 1000 (Some "ab12"%string) 7 None None 65
                   (fresh_world (mk_database [] [] [] [sample_user]) [])
                 = ((0, Some "ab12"%string),
                    fresh_world
                      (mk_database [] []
                         [mk_session_row 1 7 "ab12" 1000 605800 1000
                            EmptyString EmptyString]
                         [sample_user]) [])) by reflexivity.
  split; [exact Hrun|].
  destruct (fresh_session_validates _ _ _ _ _ _ _ _ _ sample_user Hrun)
    as (_ & Hval & _).
  - simpl. lia.
  - left. reflexivity.
  - reflexivity.
  - reflexivity.
  - apply (Hval 87400 87400 sample_request []); [reflexivity|].
    unfold SESSION_INACTIVITY_SECONDS. lia.
Defined.

(* ================================================================= *)
(** ** Invariants of the session table *)

Lemma NoDup_map_filter {A B} (f : A -> B) (g : A -> bool) l :
  NoDup (map f l) -> NoDup (map f (filter g l)).
Proof.
  induction l as [|a l IH]; simpl; intros H; [constructor|].
  inversion H as [|x xs Hnotin Hnd]; subst.
  destruct (g a); simpl; [|auto].
  constructor; [|auto].
  intros Hin. apply Hnotin. apply in_map_iff in Hin.
  destruct Hin as (y & Hy & Hyin). apply filter_In in Hyin.
  apply in_map_iff. exists y. tauto.
Qed.

Lemma next_rowid_above {R} (id : R -> Z) rows r :
  In r rows -> id r < next_rowid id rows.
Proof.
  unfold next_rowid. induction rows as [|a l IH]; cbn [fold_right In];
    [intros []|].
  intros [<-|Hin]; [lia|]. specialize (IH Hin). lia.
Qed.

Lemma touch_session_token now tok s :
  se_token (touch_session now tok s) = se_token s.
Proof. unfold touch_session. destruct (se_token s =? tok)%string; reflexivity. Qed.

Lemma touch_session_id now tok s :
  se_id (touch_session now tok s) = se_id s.
Proof. unfold touch_session. destruct (se_token s =? tok)%string; reflexivity. Qed.

(** The sessions after a validation: touched rows or the same rows. *)
Lemma session_validate_sessions now now_upd token req w :
  let w' := snd (session_validate now now_upd token req w) in
  w_saved w' = w_saved w /\
  users (w_db w') = users (w_db w) /\
  subscriptions (w_db w') = subscriptions (w_db w) /\
  billing_events (w_db w') = billing_events (w_db w) /\
  (sessions (w_db w') = sessions (w_db w) \/
   exists tok, sessions (w_db w')
               = map (touch_session now_upd tok) (sessions (w_db w))).
Proof.
  destruct token as [tok|]; [|cbn; auto 10].
  pose proof (session_validate_outcome now now_upd tok req w) as Hout.
  cbv zeta in *.
  destruct Hout as [(_ & Hdb & Hsv & _) | (s & u & _ & _ & _ & _ & _ & Hdb & Hsv)];
    rewrite Hdb, Hsv; [auto 10|].
  unfold touched. destruct (activity_update_fails w); [auto 10|].
  cbn. split; [reflexivity|]. repeat split. right. exists tok. reflexivity.
Qed.

Lemma session_step_unique w w' :
  session_step w w' -> unique_sessions (w_db w) -> unique_sessions (w_db w').
Proof.
  intros Hstep [Htok Hid]. unfold unique_sessions.
  destruct Hstep as [w fs now generated uid ip ua size
                    | w fs now now_upd token req
                    | w fs token
                    | w fs now].
  - destruct generated as [tok|]; [|split; assumption].
    pose proof (session_create_outcome now tok uid ip ua size
                  (with_faults fs w)) as Hout.
    cbv zeta in Hout. cbn [with_faults w_db] in Hout.
    destruct Hout as (_ & [[_ Hdb] | (_ & Hfresh & Hdb)]); rewrite Hdb;
      [split; assumption|].
    cbn [set_sessions sessions]. rewrite !map_app. cbn [map].
    split; apply NoDup_app_iff || idtac.
    + apply NoDup_app; [exact Htok | repeat constructor; intros [] | ].
      intros x Hx [<-|[]]. apply in_map_iff in Hx.
      destruct Hx as (s & Hs & Hin). exact (Hfresh s Hin Hs).
    + apply NoDup_app; [exact Hid | repeat constructor; intros [] | ].
      intros x Hx [<-|[]]. apply in_map_iff in Hx.
      destruct Hx as (s & Hs & Hin).
      pose proof (next_rowid_above se_id _ s Hin) as Hlt.
      cbn [new_session se_id] in Hs. lia.
  - pose proof (session_validate_sessions now now_upd token req
                  (with_faults fs w)) as Hout.
    cbv zeta in Hout. cbn [with_faults w_db] in Hout.
    destruct Hout as (_ & _ & _ & _ & [-> | (tok & ->)]);
      [split; assumption|].
    rewrite !map_map.
    rewrite (map_ext _ se_token) by (intros; apply touch_session_token).
    rewrite (map_ext _ se_id) by (intros; apply touch_session_id).
    split; assumption.
  - pose proof (session_delete_outcome token (with_faults fs w)) as Hout.
    cbv zeta in Hout. cbn [with_faults w_db] in Hout.
    destruct Hout as (_ & [[_ Hdb] | [_ Hdb]]); rewrite Hdb;
      [split; assumption|].
    cbn [set_sessions sessions]. split; apply NoDup_map_filter; assumption.
  - pose proof (session_cleanup_expired_outcome now (with_faults fs w))
      as Hout.
    cbv zeta in Hout. cbn [with_faults w_db] in Hout.
    destruct Hout as (_ & [[_ Hdb] | [_ Hdb]]); rewrite Hdb;
      [split; assumption|].
    cbn [set_sessions sessions]. split; apply NoDup_map_filter; assumption.
Qed.

(** X2: in every store that the session manager produces from an empty
    [sessions] table - creations, validations, deletions and sweeps in
    any order, whatever fails - no two sessions share a token and no two
    share a rowid. *)
Theorem session_tokens_unique :
  forall w,
    session_reachable w ->
    NoDup (map se_token (sessions (w_db w))) /\
    NoDup (map se_id (sessions (w_db w))).
Proof.
  induction 1 as [subs evs us sv fs | w w' _ IH Hstep].
  - split; constructor.
  - exact (session_step_unique w w' Hstep IH).
Qed.

Lemma session_tokens_unique_witness :
  NoDup (map se_token
           (sessions (w_db (snd (session_create 1000 (Some "ab12"%string) 7
                                   None None 65
                                   (with_faults []
                                      (mk_world (mk_database [] [] []
                                                   [sample_user]) None []))))))).
Proof.
  apply (session_tokens_unique
           (snd (session_create 1000 (Some "ab12"%string) 7 None None 65
                   (with_faults []
                      (mk_world (mk_database [] [] [] [sample_user])
                         None []))))).
  apply sessions_step with
    (w := mk_world (mk_database [] [] [] [sample_user]) None []).
  - apply sessions_init.
  - apply step_create.
Defined.

(* ================================================================= *)
(** ** Deleting, sweeping and renewing sessions *)

Lemma lookup_with_faults tok fs w :
  lookup_session tok (with_faults fs w) = lookup_session tok w.
Proof. reflexivity. Qed.

Lemma select_session_user_touch n tok' tok us l :
  select_session_user tok us (map (touch_session n tok') l) =
  option_map (fun p => (touch_session n tok' (fst p), snd p))
    (select_session_user tok us l).
Proof.
  induction l as [|s l IH]; [reflexivity|].
  cbn [map select_session_user]. rewrite touch_session_token.
  destruct (se_token s =? tok)%string; [|exact IH].
  assert (Hu : se_user_id (touch_session n tok' s) = se_user_id s).
  { unfold touch_session. destruct (se_token s =? tok')%string; reflexivity. }
  rewrite Hu. destruct (find _ us); [reflexivity|exact IH].
Qed.

(** A filter keeps the selected row if it keeps that row, and selects
    nothing new where nothing was selected. *)
Lemma select_session_user_filter g tok us l :
  match select_session_user tok us l with
  | None => select_session_user tok us (filter g l) = None
  | Some (s, u) =>
      g s = true -> select_session_user tok us (filter g l) = Some (s, u)
  end.
Proof.
  induction l as [|s l IH]; [reflexivity|].
  cbn [select_session_user filter].
  destruct (se_token s =? tok)%string eqn:Etok.
  - destruct (find _ us) as [u|] eqn:Hfind.
    + intros ->. cbn [select_session_user]. now rewrite Etok, Hfind.
    + destruct (g s); [cbn [select_session_user]; rewrite Etok, Hfind|];
        exact IH.
  - destruct (g s); [cbn [select_session_user]; rewrite Etok|]; exact IH.
Qed.

Lemma select_session_user_other tok tok' us l :
  tok' <> tok ->
  select_session_user tok' us
    (filter (fun s => negb (se_token s =? tok)%string) l)
  = select_session_user tok' us l.
Proof.
  intros Hne. induction l as [|s l IH]; [reflexivity|].
  cbn [select_session_user filter].
  destruct (String.eqb_spec (se_token s) tok) as [E|E]; cbn [negb].
  - destruct (String.eqb_spec (se_token s) tok') as [E'|E'];
      [congruence|exact IH].
  - cbn [select_session_user]. rewrite IH. reflexivity.
Qed.

Lemma select_session_user_gone tok us l :
  select_session_user tok us
    (filter (fun s => negb (se_token s =? tok)%string) l) = None.
Proof.
  induction l as [|s l IH]; [reflexivity|].
  cbn [filter]. destruct (se_token s =? tok)%string eqn:E; cbn [negb];
    [exact IH|].
  cbn [select_session_user]. now rewrite E.
Qed.

Lemma select_session_user_in tok us l s u :
  select_session_user tok us l = Some (s, u) -> In s l /\ se_token s = tok.
Proof.
  induction l as [|s0 l IH]; cbn [select_session_user]; [discriminate|].
  destruct (String.eqb_spec (se_token s0) tok) as [E|E].
  - destruct (find _ us).
    + intros [= <- <-]. split; [left; reflexivity|exact E].
    + intros H. destruct (IH H). split; [right|]; assumption.
  - intros H. destruct (IH H). split; [right|]; assumption.
Qed.

(** With distinct tokens, removing the selected row leaves nothing to
    select. *)
Lemma select_session_user_removed g tok us l s u :
  NoDup (map se_token l) ->
  select_session_user tok us l = Some (s, u) -> g s = false ->
  select_session_user tok us (filter g l) = None.
Proof.
  intros Hnd Hsel Hg.
  destruct (select_session_user_in _ _ _ _ _ Hsel) as [Hin Htok].
  clear Hsel. subst tok. induction l as [|s0 l IH]; [reflexivity|].
  inversion Hnd as [|x xs Hnotin Hnd']; subst x xs.
  cbn [filter]. destruct Hin as [->|Hin].
  - rewrite Hg.
    assert (Hall : forall s', In s' (filter g l) -> se_token s' <> se_token s).
    { intros s' Hs' E. apply Hnotin. rewrite <- E. apply in_map.
      apply filter_In in Hs'. tauto. }
    clear - Hall. induction (filter g l) as [|a r IHr]; [reflexivity|].
    cbn [select_session_user].
    destruct (String.eqb_spec (se_token a) (se_token s)) as [E|E].
    + exfalso. apply (Hall a); [left; reflexivity|exact E].
    + apply IHr. intros s' Hs'. apply Hall. right. exact Hs'.
  - assert (Hne : se_token s0 <> se_token s).
    { intros E. apply Hnotin. rewrite E. apply in_map. exact Hin. }
    destruct (g s0); [cbn [select_session_user]|]; [|auto].
    destruct (String.eqb_spec (se_token s0) (se_token s));
      [contradiction|auto].
Qed.

Lemma filter_token_other tok tok' (l : list session_row) :
  tok' <> tok ->
  filter (fun s => (se_token s =? tok')%string)
    (filter (fun s => negb (se_token s =? tok)%string) l)
  = filter (fun s => (se_token s =? tok')%string) l.
Proof.
  intros Hne. induction l as [|s l IH]; [reflexivity|].
  cbn [filter].
  destruct (String.eqb_spec (se_token s) tok) as [E|E]; cbn [negb filter].
  - destruct (String.eqb_spec (se_token s) tok'); [congruence|exact IH].
  - now rewrite IH.
Qed.

Lemma filter_twice {A} (g : A -> bool) l :
  filter g (filter g l) = filter g l.
Proof.
  induction l as [|a l IH]; [reflexivity|].
  cbn [filter]. destruct (g a) eqn:E; [|exact IH].
  cbn [filter]. now rewrite E, IH.
Qed.

(** X3: [session_delete] answers 0 or -1.  On -1 no table has changed.
    On 0 the token selects no session any more, so every later
    validation of it answers 0 and leaves the request alone, whatever the
    time; the sessions of other tokens are all kept, in order; the other
    tables are untouched; and deleting the token once more changes
    nothing. *)
Theorem session_delete_revokes :
  forall tok w r w1,
    session_delete tok w = (r, w1) ->
    (r = 0 \/ r = -1) /\
    (r = -1 -> w_db w1 = w_db w) /\
    (r = 0 ->
     (forall now now_upd req fs,
         session_validate now now_upd (Some tok) req (with_faults fs w1)
         = ((false, req), snd (session_validate now now_upd (Some tok) req
                                 (with_faults fs w1))) /\
         w_db (snd (session_validate now now_upd (Some tok) req
                      (with_faults fs w1))) = w_db w1) /\
     (forall tok', tok' <> tok ->
         lookup_session tok' w1 = lookup_session tok' w /\
         filter (fun s => (se_token s =? tok')%string) (sessions (w_db w1))
         = filter (fun s => (se_token s =? tok')%string) (sessions (w_db w))) /\
     users (w_db w1) = users (w_db w) /\
     subscriptions (w_db w1) = subscriptions (w_db w) /\
     billing_events (w_db w1) = billing_events (w_db w) /\
     (forall fs, w_db (snd (session_delete tok (with_faults fs w1)))
                 = w_db w1)).
Proof.
  intros tok w r w1 Hrun.
  pose proof (session_delete_outcome tok w) as Hout. cbv zeta in Hout.
  rewrite Hrun in Hout. cbn [fst snd] in Hout.
  destruct Hout as (_ & [[-> Hdb] | [-> Hdb]]).
  - split; [right; reflexivity|]. split; [intros _; exact Hdb|].
    intros H; discriminate H.
  - split; [left; reflexivity|]. split; [intros H; discriminate H|].
    intros _.
    assert (Hgone : forall fs, lookup_session tok (with_faults fs w1) = None).
    { intros fs. unfold lookup_session. cbn [with_faults w_db].
      rewrite Hdb. cbn [set_sessions sessions users].
      apply select_session_user_gone. }
    split; [|split; [|split; [|split; [|split]]]].
    + intros now now_upd req fs.
      pose proof (session_validate_outcome now now_upd tok req
                    (with_faults fs w1)) as Hv. cbv zeta in Hv.
      destruct Hv as [(Hfst & Hdb' & _) | (s & u & _ & Hsel & _)].
      * split; [|exact Hdb'].
        rewrite <- Hfst. apply surjective_pairing.
      * rewrite Hgone in Hsel. discriminate Hsel.
    + intros tok' Hne. unfold lookup_session. rewrite Hdb.
      cbn [set_sessions sessions users]. split.
      * apply select_session_user_other. exact Hne.
      * apply filter_token_other. exact Hne.
    + now rewrite Hdb.
    + now rewrite Hdb.
    + now rewrite Hdb.
    + intros fs.
      pose proof (session_delete_outcome tok (with_faults fs w1)) as Hd.
      cbv zeta in Hd. cbn [with_faults w_db] in Hd.
      destruct Hd as (_ & [[_ Hd] | [_ Hd]]); rewrite Hd; [reflexivity|].
      rewrite Hdb. unfold set_sessions.
      cbn [sessions subscriptions billing_events users].
      f_equal. apply filter_twice.
Qed.

Lemma session_delete_revokes_witness :
  fst (fst (session_validate 500 500 (Some "c0ffee"%string) sample_request
              (with_faults []
                 (fresh_world (mk_database [] [] [] [sample_user]) []))))
  = false.
Proof.
  assert (Hrun : session_delete "c0ffee" (fresh_world sample_database [])
                 = (0, fresh_world (mk_database [] [] [] [sample_user]) []))
    by reflexivity.
  destruct (session_delete_revokes _ _ _ _ Hrun) as (_ & _ & H).
  destruct (H eq_refl) as (Hval & _).
  destruct (Hval 500 500 sample_request []) as [Heq _].
  rewrite Heq. reflexivity.
Defined.

Lemma swept_spec now s :
  swept now s = false <->
  now <= se_expires_at s /\
  now - se_last_activity_at s <= SESSION_INACTIVITY_SECONDS.
Proof.
  unfold swept. rewrite orb_false_iff, !Z.ltb_ge. lia.
Qed.

Lemma length_filter_split {A} (g : A -> bool) l :
  (List.length (filter g l)
   + List.length (filter (fun a => negb (g a)) l))%nat = List.length l.
Proof.
  induction l as [|a l IH]; [reflexivity|].
  cbn [filter]. destruct (g a); cbn [negb List.length]; lia.
Qed.

(** X4: a sweep that does not answer -1 removes exactly the sessions
    that [session_validate] would reject for their age at that time,
    keeps the others in order, and answers the number of rows removed.
    Where tokens are distinct, it changes the answer of no validation
    at that time or later: nobody who is logged in is logged out by it.
    A sweep that answers -1 has changed nothing. *)
Theorem session_cleanup_expired_agrees :
  forall now w n w1,
    session_cleanup_expired now w = (n, w1) ->
    (n = -1 -> w_db w1 = w_db w) /\
    (n <> -1 ->
     sessions (w_db w1)
     = filter (fun s => negb (swept now s)) (sessions (w_db w)) /\
     (forall s, In s (sessions (w_db w1)) <->
                In s (sessions (w_db w)) /\
                now <= se_expires_at s /\
                now - se_last_activity_at s <= SESSION_INACTIVITY_SECONDS) /\
     n = Z.of_nat (List.length (sessions (w_db w)))
         - Z.of_nat (List.length (sessions (w_db w1))) /\
     users (w_db w1) = users (w_db w) /\
     subscriptions (w_db w1) = subscriptions (w_db w) /\
     billing_events (w_db w1) = billing_events (w_db w) /\
     (NoDup (map se_token (sessions (w_db w))) ->
      forall t t_upd token req fs,
        now <= t ->
        fst (session_validate t t_upd token req (with_faults fs w1))
        = fst (session_validate t t_upd token req (with_faults fs w)))).
Proof.
  intros now w n w1 Hrun.
  pose proof (session_cleanup_expired_outcome now w) as Hout.
  cbv zeta in Hout. rewrite Hrun in Hout. cbn [fst snd] in Hout.
  destruct Hout as (_ & [[-> Hdb] | [Hn Hdb]]).
  - split; [intros _; exact Hdb|]. intros H. now elim H.
  - split; [intros E; rewrite E in Hn; lia|]. intros _.
    assert (Hss : sessions (w_db w1)
                  = filter (fun s => negb (swept now s)) (sessions (w_db w)))
      by now rewrite Hdb.
    split; [exact Hss|]. split; [|split; [|split; [|split; [|split]]]].
    + intros s. rewrite Hss, filter_In, negb_true_iff, swept_spec. tauto.
    + rewrite Hn, Hss.
      pose proof (length_filter_split (swept now) (sessions (w_db w))). lia.
    + now rewrite Hdb.
    + now rewrite Hdb.
    + now rewrite Hdb.
    + intros Hnd t t_upd [tok|] req fs Ht; [|reflexivity].
      rewrite !session_validate_answer.
      replace (lookup_fails (with_faults fs w1))
        with (lookup_fails (with_faults fs w)) by reflexivity.
      destruct (lookup_fails (with_faults fs w)); [reflexivity|].
      rewrite !lookup_with_faults. unfold lookup_session.
      replace (users (w_db w1)) with (users (w_db w)) by now rewrite Hdb.
      rewrite Hss.
      pose proof (select_session_user_filter
                    (fun s => negb (swept now s)) tok (users (w_db w))
                    (sessions (w_db w))) as Hkeep.
      destruct (select_session_user tok (users (w_db w)) (sessions (w_db w)))
        as [[s u]|] eqn:Hsel; [|now rewrite Hkeep].
      destruct (swept now s) eqn:Hsw.
      * assert (Hg : (fun s => negb (swept now s)) s = false)
          by (cbv beta; rewrite Hsw; reflexivity).
        rewrite (select_session_user_removed
                   (fun s => negb (swept now s)) tok (users (w_db w))
                   (sessions (w_db w)) s u Hnd Hsel Hg).
        unfold swept in Hsw. apply orb_true_iff in Hsw.
        assert (Hrej : (se_expires_at s <? t)
                       || (SESSION_INACTIVITY_SECONDS
                             <? t - se_last_activity_at s) = true).
        { apply orb_true_iff.
          destruct Hsw as [H|H]; apply Z.ltb_lt in H;
            [left|right]; apply Z.ltb_lt; lia. }
        now rewrite Hrej.
      * rewrite Hkeep by (cbv beta; rewrite ?Hsw; reflexivity). reflexivity.
Qed.

Lemma session_cleanup_expired_agrees_witness :
  sessions (w_db (fresh_world (mk_database [] [] [] [sample_user]) []))
  = filter (fun s => negb (swept 2000 s))
      (sessions (w_db (fresh_world sample_database []))).
Proof.
  assert (Hrun : session_cleanup_expired 2000 (fresh_world sample_database [])
                 = (1, fresh_world (mk_database [] [] [] [sample_user]) []))
    by reflexivity.
  destruct (session_cleanup_expired_agrees _ _ _ _ Hrun) as (_ & H).
  destruct H as (Hss & _); [discriminate|exact Hss].
Defined.

(* ================================================================= *)
(** ** The two limits of a session over time *)

(** What validations never change of the [sessions] table. *)
Lemma validations_frame w w' :
  validations w w' ->
  users (w_db w') = users (w_db w) /\
  Forall2 same_but_activity (sessions (w_db w)) (sessions (w_db w')).
Proof.
  induction 1 as [w | w w1 fs now now_upd token req _ [IHu IHs]].
  - split; [reflexivity|].
    induction (sessions (w_db w)); constructor;
      [unfold same_but_activity; tauto|assumption].
  - pose proof (session_validate_sessions now now_upd token req
                  (with_faults fs w1)) as Hout.
    cbv zeta in Hout. cbn [with_faults w_db] in Hout.
    destruct Hout as (_ & Hu & _ & _ & Hs). rewrite Hu. split; [exact IHu|].
    destruct Hs as [-> | (tok & ->)]; [exact IHs|].
    clear - IHs.
    induction IHs as [|s s1 l l1 Hs _ IH]; cbn [map]; constructor;
      [|exact IH].
    pose proof (proj1 (touch_session_frame now_upd tok s1)) as Ht.
    unfold same_but_activity in *. intuition congruence.
Qed.

Lemma select_session_user_expired tok us l l' now :
  Forall2 same_but_activity l l' ->
  (forall s, In s l -> se_token s = tok -> se_expires_at s < now) ->
  match select_session_user tok us l' with
  | Some (s', _) => se_expires_at s' < now
  | None => True
  end.
Proof.
  intros Hall Hexp.
  destruct (select_session_user tok us l') as [[s' u]|] eqn:Hsel; [|exact I].
  destruct (select_session_user_in _ _ _ _ _ Hsel) as [Hin Htok].
  clear Hsel. induction Hall as [|s s1 l l1 Hs _ IH]; [destruct Hin|].
  destruct Hin as [->|Hin].
  - unfold same_but_activity in Hs.
    destruct Hs as (_ & _ & Ht & _ & He & _). rewrite He.
    apply Hexp; [left; reflexivity|congruence].
  - apply IH; [|exact Hin]. intros s0 H0. apply Hexp. right. exact H0.
Qed.

(** X5: the lifetime of a session is capped.  Validations, however many
    and whenever they happen, change neither the [expires_at] of a
    session nor any other column but [last_activity_at]; so once the
    clock has passed the [expires_at] of every session of a token, each
    validation of the token answers 0 and leaves the request alone, no
    matter how recently the session was used. *)
Theorem session_lifetime_is_capped :
  forall w w' tok now,
    validations w w' ->
    (forall s, In s (sessions (w_db w)) -> se_token s = tok ->
               se_expires_at s < now) ->
    Forall2 same_but_activity (sessions (w_db w)) (sessions (w_db w')) /\
    forall now_upd req fs,
      fst (session_validate now now_upd (Some tok) req (with_faults fs w'))
      = (false, req).
Proof.
  intros w w' tok now Hv Hexp.
  destruct (validations_frame w w' Hv) as [Hu Hs]. split; [exact Hs|].
  intros now_upd req fs. rewrite session_validate_answer.
  destruct (lookup_fails (with_faults fs w')); [reflexivity|].
  rewrite lookup_with_faults. unfold lookup_session.
  pose proof (select_session_user_expired tok (users (w_db w')) _ _ now
                Hs Hexp) as Hsel.
  destruct (select_session_user tok (users (w_db w')) (sessions (w_db w')))
    as [[s' u]|]; [|reflexivity].
  apply Z.ltb_lt in Hsel. now rewrite Hsel.
Qed.

Lemma session_lifetime_is_capped_witness :
  fst (session_validate 1001 1001 (Some "c0ffee"%string) sample_request
         (with_faults []
            (snd (session_validate 995 995 (Some "c0ffee"%string)
                    sample_request
                    (with_faults [] (fresh_world sample_database []))))))
  = (false, sample_request).
Proof.
  refine (proj2 (session_lifetime_is_capped
                   (fresh_world sample_database []) _ "c0ffee" 1001 _ _)
            1001 sample_request []).
  - apply validations_more. apply validations_none.
  - intros s [<-|[]] _. simpl. lia.
Defined.

(** X6: a validation that succeeds renews the idle window, and nothing
    else.  If its UPDATE is executed at time [now_upd], a later
    validation of the token succeeds exactly when its time is no later
    than the unchanged [expires_at] and no more than 86400 seconds after
    [now_upd]; if the store rejects the UPDATE, the idle window still
    counts from the old [last_activity_at]. *)
Theorem validation_renews_idle_window :
  forall now now_upd tok req w req' w',
    session_validate now now_upd (Some tok) req w = ((true, req'), w') ->
    exists s u,
      lookup_session tok w = Some (s, u) /\
      forall t t_upd req2 fs,
        lookup_fails (with_faults fs w') = false ->
        (fst (fst (session_validate t t_upd (Some tok) req2
                     (with_faults fs w'))) = true
         <-> t <= se_expires_at s /\
             t - (if activity_update_fails w then se_last_activity_at s
                  else now_upd) <= SESSION_INACTIVITY_SECONDS).
Proof.
  intros now now_upd tok req w req' w' Hrun.
  pose proof (session_validate_outcome now now_upd tok req w) as Hout.
  cbv zeta in Hout. rewrite Hrun in Hout. cbn [fst snd] in Hout.
  destruct Hout as [(Hfst & _) | (s & u & _ & Hsel & _ & _ & _ & Hdb & _)];
    [discriminate Hfst|].
  exists s, u. split; [exact Hsel|].
  intros t t_upd req2 fs Hlf. rewrite session_validate_answer, Hlf.
  rewrite lookup_with_faults. unfold lookup_session. rewrite Hdb.
  unfold touched. unfold lookup_session in Hsel.
  destruct (select_session_user_in _ _ _ _ _ Hsel) as [_ Htok].
  destruct (activity_update_fails w).
  - rewrite Hsel.
    destruct ((se_expires_at s <? t)
              || (SESSION_INACTIVITY_SECONDS <? t - se_last_activity_at s))
      eqn:E; cbn [fst].
    + apply orb_true_iff in E. split; [discriminate|].
      destruct E as [E|E]; apply Z.ltb_lt in E; lia.
    + apply orb_false_iff in E. destruct E as [E1 E2].
      apply Z.ltb_ge in E1, E2. split; [lia|reflexivity].
  - cbn [set_sessions sessions users].
    rewrite select_session_user_touch, Hsel. cbn [option_map fst snd].
    pose proof (touch_session_frame now_upd tok s) as (Hsame & _ & Hla).
    specialize (Hla Htok). unfold same_but_activity in Hsame.
    destruct Hsame as (_ & _ & _ & _ & He & _). rewrite He, Hla.
    destruct ((se_expires_at s <? t)
              || (SESSION_INACTIVITY_SECONDS <? t - now_upd))
      eqn:E; cbn [fst].
    + apply orb_true_iff in E. split; [discriminate|].
      destruct E as [E|E]; apply Z.ltb_lt in E; lia.
    + apply orb_false_iff in E. destruct E as [E1 E2].
      apply Z.ltb_ge in E1, E2. split; [lia|reflexivity].
Qed.

Lemma validation_renews_idle_window_witness :
  exists s u,
    lookup_session "c0ffee" (fresh_world sample_database []) = Some (s, u) /\
    forall t t_upd req2 fs,
      lookup_fails
        (with_faults fs
           (snd (session_validate 995 996 (Some "c0ffee"%string)
                   sample_request (fresh_world sample_database []))))
      = false ->
      (fst (fst (session_validate t t_upd (Some "c0ffee"%string) req2
                   (with_faults fs
                      (snd (session_validate 995 996 (Some "c0ffee"%string)
                              sample_request
                              (fresh_world sample_database []))))))
       = true
       <-> t <= se_expires_at s /\
           t - (if activity_update_fails (fresh_world sample_database [])
                then se_last_activity_at s else 996)
           <= SESSION_INACTIVITY_SECONDS).
Proof.
  apply (validation_renews_idle_window 995 996 "c0ffee" sample_request
           (fresh_world sample_database [])
           (snd (fst (session_validate 995 996 (Some "c0ffee"%string)
                        sample_request (fresh_world sample_database []))))).
  reflexivity.
Defined.

(* ================================================================= *)
(** ** The update is all or nothing *)

(** X27: [subscription_update] never stores half of its work.  Outside a
    transaction, whichever prepare, step or COMMIT fails, it answers 0 or
    -1 and leaves no transaction open; it answers -1 only with the store
    as it was, and always when [users] does not have the administrator;
    and a store that it has changed holds exactly one more ledger row,
    for the account of the call, with the previous plan and status read
    before the upsert and the new plan and status of the account's
    subscription row, which are those of the call, next to unchanged
    [sessions] and [users], and the call has answered 0. *)
Theorem subscription_update_all_or_nothing :
  forall now acc p s vu adm n w rc w',
    w_saved w = None ->
    subscription_update now acc p s vu adm n w = (rc, w') ->
    w_saved w' = None /\
    (rc = 0 \/ rc = -1) /\
    (rc = -1 -> w_db w' = w_db w) /\
    (references_user (Some adm) (w_db w) = false -> rc = -1) /\
    (w_db w' <> w_db w ->
     rc = 0 /\
     exists ev row,
       billing_events (w_db w') = (billing_events (w_db w) ++ [ev])%list /\
       be_account_id ev = acc /\
       be_event_type ev = "subscription_update"%string /\
       be_previous_plan ev = Some (previous_plan_text acc (w_db w)) /\
       be_previous_status ev = Some (previous_status_text acc (w_db w)) /\
       be_admin_user_id ev = Some adm /\
       select_subscription acc (w_db w') = Some row /\
       be_new_plan ev = Some (sr_plan row) /\
       be_new_status ev = Some (sr_status row) /\
       plan (subscription_of_row row) = p /\
       status (subscription_of_row row) = s /\
       valid_until (subscription_of_row row) = vu /\
       sessions (w_db w') = sessions (w_db w) /\
       users (w_db w') = users (w_db w)).
Proof.
  intros now acc p s vu adm n [d sv fs] rc w' Hsaved Hrun.
  simpl in Hsaved. subst sv.
  pose proof (subscription_update_cases now acc p s vu adm n d fs) as Hout.
  cbv zeta in Hout. rewrite Hrun in Hout. cbn [fst snd w_db] in *.
  destruct Hout as (Hs & _ & Hcases).
  split; [exact Hs|].
  split; [destruct Hcases as [[H _] | (_ & H & _)]; auto|].
  split.
  { intros Hrc. destruct Hcases as [[_ H] | (_ & H & _)]; [exact H|].
    rewrite Hrc in H. discriminate H. }
  split.
  { intros Hfk. destruct Hcases as [[H _] | (H & _)]; [exact H|].
    rewrite Hfk in H. discriminate H. }
  intros Hchanged.
  destruct Hcases as [[_ H] | (_ & Hrc & [H | Hdb])];
    [contradiction | contradiction |].
  split; [exact Hrc|].
  rewrite Hdb.
  destruct (upserted_row now acc p s vu n d)
    as (row & Hfind & Hp & Hst & Hvu & _).
  exists (ledger_entry now acc p s adm n d), row.
  unfold select_subscription.
  cbn [subscriptions billing_events sessions users].
  rewrite Hfind, Hp, Hst.
  repeat split; try reflexivity.
  - unfold subscription_of_row. cbn [plan]. rewrite Hp.
    apply plan_text_roundtrip.
  - unfold subscription_of_row. cbn [status]. rewrite Hst.
    apply status_text_roundtrip.
  - exact Hvu.
Qed.

Lemma subscription_update_all_or_nothing_witness :
  fst (subscription_update 1000 1 PLAN_PRO STATUS_ACTIVE 2000 7 None
         (fresh_world staffed_database [])) = 0 /\
  List.length
    (billing_events
       (w_db (snd (subscription_update 1000 1 PLAN_PRO STATUS_ACTIVE 2000 7
                     None (fresh_world staffed_database [])))))
  = 1%nat /\
  fst (subscription_update 1000 1 PLAN_PRO STATUS_ACTIVE 2000 7 None
         (fresh_world empty_database [])) = -1.
Proof.
  destruct (subscription_update_all_or_nothing 1000 1 PLAN_PRO STATUS_ACTIVE
              2000 7 None (fresh_world staffed_database []) _ _ eq_refl
              (surjective_pairing _))
    as (_ & _ & _ & _ & Hchanged).
  destruct Hchanged as (Hrc & ev & row & Hev & _).
  { intros H. vm_compute in H. discriminate H. }
  split; [exact Hrc|]. split.
  { rewrite Hev. reflexivity. }
  destruct (subscription_update_all_or_nothing 1000 1 PLAN_PRO STATUS_ACTIVE
              2000 7 None (fresh_world empty_database []) _ _ eq_refl
              (surjective_pairing _))
    as (_ & _ & _ & Hfk & _).
  apply Hfk. reflexivity.
Defined.

(* ================================================================= *)
(** ** More on the subscription engine and the entitlements *)

Lemma subscription_get_by_account_answer acc w :
  subscription_get_by_account acc w =
  (if lookup_fails w then None
   else option_map subscription_of_row (select_subscription acc (w_db w)),
   mk_world (w_db w) (w_saved w)
     (if hd false (w_faults w) then tl (w_faults w)
      else tl (tl (w_faults w)))).
Proof.
  destruct w as [d sv fs].
  unfold subscription_get_by_account, db_prepare, sqlite3_step_query, bind,
    ret, next_fault, lookup_fails.
  destruct fs as [|[] [|[] fs]]; cbn -[select_subscription];
    try reflexivity;
    destruct (select_subscription acc d); reflexivity.
Qed.

Lemma entitlement_has_feature_answer now acc feature w :
  entitlement_has_feature now acc feature w =
  (if lookup_fails w then false
   else match select_subscription acc (w_db w) with
        | Some row =>
            subscription_is_valid now (subscription_of_row row)
            && plan_grants (plan (subscription_of_row row)) feature
        | None => false
        end,
   snd (subscription_get_by_account acc w)).
Proof.
  unfold entitlement_has_feature, bind, ret.
  rewrite subscription_get_by_account_answer. cbn [fst snd].
  destruct (lookup_fails w); [reflexivity|].
  destruct (select_subscription acc (w_db w)) as [row|]; cbn [option_map];
    [|reflexivity].
  destruct (subscription_is_valid now (subscription_of_row row));
    reflexivity.
Qed.

Lemma entitlement_get_max_report_days_answer now acc w :
  entitlement_get_max_report_days now acc w =
  (if lookup_fails w then 7
   else match select_subscription acc (w_db w) with
        | Some row =>
            if subscription_is_valid now (subscription_of_row row)
            then plan_report_days (plan (subscription_of_row row))
            else 7
        | None => 7
        end,
   snd (subscription_get_by_account acc w)).
Proof.
  unfold entitlement_get_max_report_days, bind, ret.
  rewrite subscription_get_by_account_answer. cbn [fst snd].
  destruct (lookup_fails w); [reflexivity|].
  destruct (select_subscription acc (w_db w)) as [row|]; cbn [option_map];
    [|reflexivity].
  destruct (subscription_is_valid now (subscription_of_row row));
    [|reflexivity].
  destruct (plan (subscription_of_row row)); reflexivity.
Qed.

Lemma max_report_days_values now acc w :
  fst (entitlement_get_max_report_days now acc w) = 7 \/
  fst (entitlement_get_max_report_days now acc w) = 90 \/
  fst (entitlement_get_max_report_days now acc w) = 365.
Proof.
  rewrite entitlement_get_max_report_days_answer. cbn [fst].
  destruct (lookup_fails w); [auto|].
  destruct (select_subscription acc (w_db w)) as [row|]; [|auto].
  destruct (subscription_is_valid now (subscription_of_row row)); [|auto].
  destruct (plan (subscription_of_row row)); cbn; auto.
Qed.

(** X7: the entitlement checks only read.  [entitlement_has_feature],
    [entitlement_get_max_report_days], [entitlement_can_export_csv] and
    [entitlement_can_use_grouping] leave every table and an open
    transaction as they are, and they agree with each other: the report
    length is 7, 90 or 365 days; it exceeds 7 exactly when the extended
    date range is granted; CSV export and grouping are granted together;
    whatever is granted at all comes with the basic reports. *)
Theorem entitlement_checks_agree :
  forall now acc w,
    let days := fst (entitlement_get_max_report_days now acc w) in
    let has f := fst (entitlement_has_feature now acc f w) in
    (days = 7 \/ days = 90 \/ days = 365) /\
    (7 < days <-> has FEATURE_EXTENDED_DATE_RANGE = true) /\
    (days = 365 <-> has FEATURE_PRIORITY_SUPPORT = true) /\
    fst (entitlement_can_export_csv now acc w)
    = fst (entitlement_can_use_grouping now acc w) /\
    (forall f, has f = true -> has FEATURE_BASIC_REPORTS = true) /\
    (forall f,
        w_db (snd (entitlement_has_feature now acc f w)) = w_db w /\
        w_saved (snd (entitlement_has_feature now acc f w)) = w_saved w) /\
    w_db (snd (entitlement_get_max_report_days now acc w)) = w_db w /\
    w_saved (snd (entitlement_get_max_report_days now acc w)) = w_saved w.
Proof.
  intros now acc w. cbv zeta.
  unfold entitlement_can_export_csv, entitlement_can_use_grouping.
  rewrite entitlement_get_max_report_days_answer.
  assert (Hhas := fun f => entitlement_has_feature_answer now acc f w).
  rewrite !Hhas. cbn [fst snd].
  rewrite subscription_get_by_account_answer. cbn [fst snd w_db w_saved].
  split; [|split; [|split; [|split; [|split; [|split]]]]].
  - destruct (lookup_fails w); [auto|].
    destruct (select_subscription acc (w_db w)) as [row|]; [|auto].
    destruct (subscription_is_valid now (subscription_of_row row)); [|auto].
    destruct (plan (subscription_of_row row)); cbn; auto.
  - destruct (lookup_fails w); [split; [lia|discriminate]|].
    destruct (select_subscription acc (w_db w)) as [row|];
      [|split; [lia|discriminate]].
    destruct (subscription_is_valid now (subscription_of_row row));
      [|split; [lia|discriminate]].
    destruct (plan (subscription_of_row row)); cbn;
      split; (lia || discriminate || reflexivity).
  - destruct (lookup_fails w); [split; [lia|discriminate]|].
    destruct (select_subscription acc (w_db w)) as [row|];
      [|split; [lia|discriminate]].
    destruct (subscription_is_valid now (subscription_of_row row));
      [|split; [lia|discriminate]].
    destruct (plan (subscription_of_row row)); cbn;
      split; (lia || discriminate || reflexivity).
  - destruct (lookup_fails w); [reflexivity|].
    destruct (select_subscription acc (w_db w)) as [row|]; [|reflexivity].
    destruct (subscription_is_valid now (subscription_of_row row));
      [|reflexivity].
    destruct (plan (subscription_of_row row)); reflexivity.
  - intros f. rewrite Hhas. cbn [fst].
    destruct (lookup_fails w); [discriminate|].
    destruct (select_subscription acc (w_db w)) as [row|]; [|discriminate].
    destruct (subscription_is_valid now (subscription_of_row row));
      [|discriminate].
    destruct (plan (subscription_of_row row)), f; cbn;
      (discriminate || reflexivity).
  - intros f. rewrite Hhas. cbn [snd].
    rewrite subscription_get_by_account_answer. cbn. auto.
  - auto.
Qed.

(** Without the administrator in [users] the ledger row violates its
    foreign key, and the call answers -1 with nothing changed. *)
Lemma subscription_update_needs_administrator now acc p s vu adm n d fs :
  let r := subscription_update now acc p s vu adm n (mk_world d None fs) in
  references_user (Some adm) d = false ->
  fst r = -1 /\ w_db (snd r) = d.
Proof.
  pose proof (subscription_update_cases now acc p s vu adm n d fs) as H.
  cbv zeta in *. intros Hfk.
  destruct H as (_ & _ & [H | (Hbad & _)]); [exact H|].
  rewrite Hfk in Hbad. discriminate Hbad.
Qed.

(** X8: [subscription_create] names the user 0 as the administrator of
    its ledger row.  Outside a transaction it answers 0 or -1; when
    [users] has no row with id 0 it answers -1 and changes nothing,
    whatever else happens.  When it answers 0 and has changed the store,
    the account's row reads as plan [p], status active, valid until a
    year (31536000 seconds) after the call's clock, valid from the time
    of the insert for a new account and from the old [valid_from] for an
    account that had a row; and whenever the lookup succeeds inside that
    period, the entitlement check grants exactly the features of plan
    [p] and the report length of plan [p]; outside that period it grants
    nothing. *)
Theorem subscription_create_round_trip :
  forall now now_upd acc p w rc w1,
    w_saved w = None ->
    subscription_create now now_upd acc p w = (rc, w1) ->
    (rc = 0 \/ rc = -1) /\
    (references_user (Some 0) (w_db w) = false ->
     rc = -1 /\ w_db w1 = w_db w) /\
    (rc = 0 -> w_db w1 <> w_db w ->
     exists row,
       select_subscription acc (w_db w1) = Some row /\
       plan (subscription_of_row row) = p /\
       status (subscription_of_row row) = STATUS_ACTIVE /\
       valid_until (subscription_of_row row) = now + 31536000 /\
       valid_from (subscription_of_row row)
       = match select_subscription acc (w_db w) with
         | Some r0 => sr_valid_from r0
         | None => now_upd
         end /\
       forall t feature fs,
         lookup_fails (with_faults fs w1) = false ->
         (valid_from (subscription_of_row row) <= t <= now + 31536000 ->
          fst (entitlement_has_feature t acc feature (with_faults fs w1))
          = plan_grants p feature /\
          fst (entitlement_get_max_report_days t acc (with_faults fs w1))
          = plan_report_days p) /\
         (~ valid_from (subscription_of_row row) <= t <= now + 31536000 ->
          fst (entitlement_has_feature t acc feature (with_faults fs w1))
          = false /\
          fst (entitlement_get_max_report_days t acc (with_faults fs w1))
          = 7)).
Proof.
  intros now now_upd acc p [d sv fs0] rc w1 Hsv Hrun. cbn in Hsv. subst sv.
  unfold subscription_create in Hrun. cbn [w_db].
  pose proof (subscription_update_cases now_upd acc p STATUS_ACTIVE
                (now + 365 * 24 * 60 * 60) 0
                (Some "Initial subscription"%string) d fs0) as Hcases.
  pose proof (subscription_update_needs_administrator now_upd acc p
                STATUS_ACTIVE (now + 365 * 24 * 60 * 60) 0
                (Some "Initial subscription"%string) d fs0) as Hneeds.
  pose proof (subscription_update_stored now_upd acc p STATUS_ACTIVE
                (now + 365 * 24 * 60 * 60) 0
                (Some "Initial subscription"%string) d fs0) as Hstored.
  cbv zeta in Hcases, Hneeds, Hstored.
  rewrite Hrun in Hcases, Hneeds, Hstored. cbn [fst snd] in *.
  split.
  { destruct Hcases as (_ & _ & [[H _] | (_ & H & _)]); auto. }
  split; [exact Hneeds|].
  intros Hrc Hchanged.
  destruct (Hstored Hrc Hchanged) as [_ Hdb].
  destruct (upserted_row now_upd acc p STATUS_ACTIVE
              (now + 365 * 24 * 60 * 60)
              (Some "Initial subscription"%string) d)
    as (row & Hfind & Hp & Hs & Hvu & Hvf & _).
  assert (Hsel : select_subscription acc (w_db w1) = Some row).
  { unfold select_subscription. rewrite Hdb. exact Hfind. }
  assert (Hplan : plan (subscription_of_row row) = p).
  { cbn [subscription_of_row plan]. rewrite Hp. apply plan_text_roundtrip. }
  assert (Hstat : status (subscription_of_row row) = STATUS_ACTIVE).
  { cbn [subscription_of_row status]. rewrite Hs.
    apply status_text_roundtrip. }
  assert (Hyear : now + 365 * 24 * 60 * 60 = now + 31536000) by lia.
  exists row. split; [exact Hsel|]. split; [exact Hplan|].
  split; [exact Hstat|].
  split; [cbn [subscription_of_row valid_until]; lia|].
  split; [exact Hvf|].
  intros t feature fs Hlf.
  rewrite entitlement_has_feature_answer,
    entitlement_get_max_report_days_answer, Hlf.
  cbn [fst with_faults w_db]. rewrite Hsel, Hplan.
  assert (Hvalid : subscription_is_valid t (subscription_of_row row) = true
                   <-> valid_from (subscription_of_row row) <= t
                       <= now + 31536000).
  { rewrite subscription_is_valid_cases, Hstat.
    cbn [subscription_of_row valid_until valid_from]. rewrite Hvu.
    split.
    - intros [[[H|H] _] | [_ H]]; [discriminate H|discriminate H|lia].
    - intros H. right. split; [left; reflexivity|lia]. }
  split; intros Ht.
  - apply Hvalid in Ht. rewrite Ht. split; reflexivity.
  - destruct (subscription_is_valid t (subscription_of_row row)) eqn:E;
      [exfalso; apply Ht, Hvalid; reflexivity|].
    split; reflexivity.
Qed.

Lemma subscription_create_round_trip_witness :
  (exists row,
      select_subscription 1 (w_db free_account) = Some row /\
      plan (subscription_of_row row) = PLAN_FREE /\
      valid_until (subscription_of_row row) = 1000 + 31536000) /\
  fst (subscription_create 1000 1000 1 PLAN_FREE
         (fresh_world empty_database [])) = -1.
Proof.
  split.
  - destruct (subscription_create_round_trip 1000 1000 1 PLAN_FREE
                (fresh_world staffed_database []) 0 free_account
                eq_refl eq_refl)
      as (_ & _ & Hrow).
    destruct (Hrow eq_refl) as (row & Hsel & Hp & _ & Hvu & _).
    + intros H. vm_compute in H. discriminate H.
    + exists row. auto.
  - destruct (subscription_create_round_trip 1000 1000 1 PLAN_FREE
                (fresh_world empty_database []) _ _
                eq_refl (surjective_pairing _))
      as (_ & Hnone & _).
    apply Hnone. reflexivity.
Defined.

(* ================================================================= *)
(** ** Accounts do not interfere *)

(** What a call of [subscription_update] leaves to another account. *)
Lemma subscription_update_other now acc p s vu adm n d fs acc' :
  acc' <> acc ->
  let w' := snd (subscription_update now acc p s vu adm n
                   (mk_world d None fs)) in
  select_subscription acc' (w_db w') = select_subscription acc' d /\
  events_for acc' (w_db w') = events_for acc' d /\
  sessions (w_db w') = sessions d /\ users (w_db w') = users d.
Proof.
  intros Hne. cbv zeta.
  pose proof (subscription_update_db now acc p s vu adm n d fs) as Hout.
  cbv zeta in Hout.
  destruct Hout as [Hdb | Hdb]; rewrite Hdb; [auto|].
  unfold select_subscription, events_for.
  cbn [subscriptions billing_events sessions users].
  rewrite (upserted_other now acc p s vu n d acc' Hne).
  rewrite filter_snoc. cbn [ledger_entry update_event be_account_id].
  destruct (Z.eqb_spec acc acc'); [congruence|].
  rewrite app_nil_r. auto.
Qed.

Lemma billing_mark_as_paid_other now now_upd now_log acc p days amount pm
  ref adm n d fs acc' :
  acc' <> acc ->
  let w' := snd (billing_mark_as_paid now now_upd now_log acc p days amount
                   pm ref adm n (mk_world d None fs)) in
  select_subscription acc' (w_db w') = select_subscription acc' d /\
  events_for acc' (w_db w') = events_for acc' d /\
  sessions (w_db w') = sessions d /\ users (w_db w') = users d.
Proof.
  intros Hne. cbv zeta. rewrite billing_mark_as_paid_unfold. cbv zeta.
  pose proof (subscription_update_other now_upd acc p STATUS_ACTIVE
                (now + duration_seconds days) adm n d fs acc' Hne) as Hup.
  cbv zeta in Hup.
  destruct (subscription_update now_upd acc p STATUS_ACTIVE
              (now + duration_seconds days) adm n (mk_world d None fs))
    as [rc1 w1].
  cbn [fst snd] in *.
  destruct (rc1 =? 0); cbn [snd]; [|exact Hup].
  pose proof (billing_log_event_outcome now_log acc "payment_received"
                None (Some (subscription_plan_to_string p))
                None (Some (subscription_status_to_string STATUS_ACTIVE))
                amount (Some "USD"%string) pm ref adm n w1) as Hlog.
  cbv zeta in Hlog.
  destruct Hlog as (_ & _ & Hsubs & Hsess & Husers & Hevents & _).
  destruct Hup as (Hsel & Hev & Hse & Hus).
  unfold select_subscription, events_for in *.
  rewrite Hsubs, Hsess, Husers, Hevents.
  split; [exact Hsel|]. split; [|split; congruence].
  destruct (log_fails w1 || negb (references_user (Some adm) (w_db w1)));
    [rewrite app_nil_r; exact Hev|].
  rewrite filter_snoc. cbn [logged_event be_account_id].
  destruct (Z.eqb_spec acc acc'); [congruence|].
  rewrite app_nil_r. exact Hev.
Qed.

(** X9: the engine keeps accounts apart.  Whatever [subscription_update],
    [subscription_create] or [billing_mark_as_paid] does for one account,
    and whatever fails on the way, every other account keeps its
    subscription row and its ledger, so each entitlement check and each
    report length of another account is answered as before; the
    [sessions] and [users] tables are not written either. *)
Theorem billing_keeps_accounts_apart :
  forall w acc acc',
    w_saved w = None ->
    acc' <> acc ->
    forall w',
      (exists now p s vu adm n,
          w' = snd (subscription_update now acc p s vu adm n w)) \/
      (exists now now_upd p,
          w' = snd (subscription_create now now_upd acc p w)) \/
      (exists now now_upd now_log p days amount pm ref adm n,
          w' = snd (billing_mark_as_paid now now_upd now_log acc p days
                      amount pm ref adm n w)) ->
      select_subscription acc' (w_db w') = select_subscription acc' (w_db w) /\
      events_for acc' (w_db w') = events_for acc' (w_db w) /\
      sessions (w_db w') = sessions (w_db w) /\
      users (w_db w') = users (w_db w) /\
      forall t feature fs,
        fst (entitlement_has_feature t acc' feature (with_faults fs w'))
        = fst (entitlement_has_feature t acc' feature (with_faults fs w)) /\
        fst (entitlement_get_max_report_days t acc' (with_faults fs w'))
        = fst (entitlement_get_max_report_days t acc' (with_faults fs w)).
Proof.
  intros [d sv fs0] acc acc' Hsv Hne w' Hstep. cbn in Hsv. subst sv.
  assert (H : select_subscription acc' (w_db w') = select_subscription acc' d /\
              events_for acc' (w_db w') = events_for acc' d /\
              sessions (w_db w') = sessions d /\ users (w_db w') = users d).
  { destruct Hstep as [(now & p & s & vu & adm & n & ->)
                      | [(now & now_upd & p & ->)
                        | (now & now_upd & now_log & p & days & amount & pm
                           & ref & adm & n & ->)]].
    - apply subscription_update_other. exact Hne.
    - unfold subscription_create. apply subscription_update_other.
      exact Hne.
    - apply billing_mark_as_paid_other. exact Hne. }
  destruct H as (Hsel & Hev & Hse & Hus). cbn [w_db].
  split; [exact Hsel|]. split; [exact Hev|]. split; [exact Hse|].
  split; [exact Hus|].
  intros t feature fs.
  rewrite !entitlement_has_feature_answer,
    !entitlement_get_max_report_days_answer.
  cbn [fst with_faults w_db].
  replace (lookup_fails (mk_world (w_db w') (w_saved w') fs))
    with (lookup_fails (mk_world d None fs)) by reflexivity.
  rewrite Hsel. split; reflexivity.
Qed.

Lemma billing_keeps_accounts_apart_witness :
  select_subscription 2 (w_db paid_account)
  = select_subscription 2 (w_db free_account) /\
  events_for 2 (w_db paid_account) = events_for 2 (w_db free_account).
Proof.
  destruct (billing_keeps_accounts_apart free_account 1 2) with
    (w' := paid_account) as (Hsel & Hev & _).
  - reflexivity.
  - discriminate.
  - right. right.
    exists 2000, 2000, 2000, PLAN_PRO, 30, 4900,
      (Some "bank_transfer"%string), (Some "INV-1"%string), 7, None.
    reflexivity.
  - split; assumption.
Defined.

(* ================================================================= *)
(** ** The ledger is an append-only chain *)

Lemma chained_snoc st evs e :
  chained st (evs ++ [e])
  = chained st evs && continues (fold_left apply_event evs st) e.
Proof.
  revert st. induction evs as [|a l IH]; intros st; cbn [chained app fold_left].
  - now rewrite andb_true_r.
  - rewrite IH. now rewrite andb_assoc.
Qed.

Lemma sorted_snoc l x :
  StronglySorted Z.lt l -> Forall (fun y => y < x) l ->
  StronglySorted Z.lt (l ++ [x]).
Proof.
  induction 1 as [|a l Hs IH Ha]; intros Hall; cbn [app].
  - repeat constructor.
  - inversion Hall as [|y ys Hy Hys]; subst. constructor; [auto|].
    apply Forall_app. split; [exact Ha|]. constructor; [exact Hy|constructor].
Qed.

Lemma ids_sorted_snoc evs (row : Z -> event_row) :
  (forall k, be_id (row k) = k) ->
  StronglySorted Z.lt (map be_id evs) ->
  StronglySorted Z.lt
    (map be_id (evs ++ [row (next_rowid be_id evs)])).
Proof.
  intros Hid Hs. rewrite map_app. cbn [map]. rewrite Hid.
  apply sorted_snoc; [exact Hs|].
  apply Forall_forall. intros y Hy. apply in_map_iff in Hy.
  destruct Hy as (e & <- & Hin). apply next_rowid_above. exact Hin.
Qed.

Lemma previous_texts_canonical acc d :
  Forall canonical_row (subscriptions d) ->
  (previous_plan_text acc d, previous_status_text acc d)
  = state_text (option_map plan_and_status (select_subscription acc d)).
Proof.
  intros Hcan. unfold previous_plan_text, previous_status_text.
  destruct (select_subscription acc d) as [r|] eqn:Hsel; [|reflexivity].
  unfold select_subscription in Hsel. apply find_some in Hsel.
  destruct Hsel as [Hin _].
  rewrite Forall_forall in Hcan.
  destruct (Hcan r Hin) as [[p0 Hp] [s0 Hs]].
  cbn [option_map state_text]. unfold plan_and_status.
  rewrite Hp, Hs, plan_text_roundtrip, status_text_roundtrip. reflexivity.
Qed.

Lemma subscription_update_keeps_chain now acc p s vu adm n d fs :
  ledger_invariant d -> Forall canonical_row (subscriptions d) ->
  ledger_chained d ->
  ledger_chained
    (w_db (snd (subscription_update now acc p s vu adm n
                  (mk_world d None fs)))).
Proof.
  intros Hinv Hcan (Hch & Hsort & Hty).
  pose proof (subscription_update_db now acc p s vu adm n d fs) as Hout.
  cbv zeta in Hout.
  destruct Hout as [Hdb | Hdb]; rewrite Hdb;
    [repeat split; assumption|].
  unfold ledger_chained, events_for. cbn [billing_events].
  split; [|split].
  - intros acc'. rewrite filter_snoc.
    cbn [ledger_entry update_event be_account_id].
    destruct (Z.eqb_spec acc acc') as [<-|Hne];
      [|rewrite app_nil_r; apply Hch].
    rewrite chained_snoc. fold (events_for acc d). rewrite Hch.
    cbn [andb]. fold (replay_events (events_for acc d)). rewrite Hinv.
    unfold continues, ledger_entry, update_event.
    cbn [be_event_type be_previous_plan be_previous_status].
    pose proof (previous_texts_canonical acc d Hcan) as Hprev.
    destruct (state_text (option_map plan_and_status
                            (select_subscription acc d))) as [pp ps].
    injection Hprev as -> ->. cbn [fst snd].
    rewrite !String.eqb_refl. reflexivity.
  - unfold ledger_entry.
    apply (ids_sorted_snoc (billing_events d)
             (update_event acc (previous_plan_text acc d)
                (subscription_plan_to_string p) (previous_status_text acc d)
                (subscription_status_to_string s) adm (notes_or_empty n) now));
      [reflexivity|exact Hsort].
  - apply Forall_app. split; [exact Hty|].
    constructor; [left; reflexivity|constructor].
Qed.

Lemma billing_mark_as_paid_keeps_chain now now_upd now_log acc p days amount
  pm ref adm n d fs :
  ledger_invariant d -> Forall canonical_row (subscriptions d) ->
  ledger_chained d ->
  ledger_chained
    (w_db (snd (billing_mark_as_paid now now_upd now_log acc p days amount
                  pm ref adm n (mk_world d None fs)))).
Proof.
  intros Hinv Hcan Hch.
  rewrite billing_mark_as_paid_unfold. cbv zeta.
  pose proof (subscription_update_keeps_chain now_upd acc p STATUS_ACTIVE
                (now + duration_seconds days) adm n d fs Hinv Hcan Hch)
    as Hch1.
  destruct (subscription_update now_upd acc p STATUS_ACTIVE
              (now + duration_seconds days) adm n (mk_world d None fs))
    as [rc1 w1].
  cbn [fst snd] in *.
  destruct (rc1 =? 0); cbn [snd]; [|exact Hch1].
  pose proof (billing_log_event_outcome now_log acc "payment_received"
                None (Some (subscription_plan_to_string p))
                None (Some (subscription_status_to_string STATUS_ACTIVE))
                amount (Some "USD"%string) pm ref adm n w1) as Hlog.
  cbv zeta in Hlog.
  destruct Hlog as (_ & _ & _ & _ & _ & Hevents & _).
  destruct Hch1 as (Hc & Hsort & Hty).
  unfold ledger_chained, events_for in *. rewrite Hevents.
  destruct (log_fails w1 || negb (references_user (Some adm) (w_db w1)));
    [rewrite app_nil_r; auto|].
  split; [|split].
  - intros acc'. rewrite filter_snoc.
    cbn [logged_event be_account_id].
    destruct (Z.eqb_spec acc acc'); [|rewrite app_nil_r; apply Hc].
    rewrite chained_snoc, Hc. reflexivity.
  - apply (ids_sorted_snoc (billing_events (w_db w1))
             (logged_event acc "payment_received" None
                (Some (subscription_plan_to_string p)) None
                (Some (subscription_status_to_string STATUS_ACTIVE))
                amount (Some "USD"%string) pm ref adm n now_log));
      [reflexivity|exact Hsort].
  - apply Forall_app. split; [exact Hty|].
    constructor; [right; reflexivity|constructor].
Qed.

(** X10: the ledger that the engine and the admin action write is an
    append-only chain.  In every store they produce from empty tables,
    whatever failed on the way, but for the calls of
    [billing_mark_as_paid] whose update loses its COMMIT: each
    [subscription_update] event of an account records as previous plan
    and status exactly the plan and status that the replay of the
    account's earlier events ends in (["none"] before the first one); the
    rowids of the ledger grow strictly, so no two events share one; every
    event is of type [subscription_update] or [payment_received]; and one
    more call, whatever fails in it, keeps the whole ledger as a prefix
    and appends at most two events. *)
Theorem ledger_is_an_append_only_chain :
  forall w,
    billing_reachable w ->
    (forall acc, chained None (events_for acc (w_db w)) = true) /\
    StronglySorted Z.lt (map be_id (billing_events (w_db w))) /\
    NoDup (map be_id (billing_events (w_db w))) /\
    Forall (fun e => be_event_type e = "subscription_update"%string
                     \/ be_event_type e = "payment_received"%string)
      (billing_events (w_db w)) /\
    (forall fs now now_upd now_log acc p days amount pm ref adm n,
        exists new,
          billing_events
            (w_db (snd (billing_mark_as_paid now now_upd now_log acc p days
                          amount pm ref adm n (with_faults fs w))))
          = (billing_events (w_db w) ++ new)%list /\
          (List.length new <= 2)%nat) /\
    (forall fs now acc p s vu adm n,
        exists new,
          billing_events
            (w_db (snd (subscription_update now acc p s vu adm n
                          (with_faults fs w))))
          = (billing_events (w_db w) ++ new)%list /\
          (List.length new <= 1)%nat).
Proof.
  intros w Hreach.
  assert (Hch : ledger_chained (w_db w)).
  { induction Hreach as [ss us fs
                        | w fs now acc p s vu adm n Hr IH
                        | w fs now now_upd acc p Hr IH
                        | w fs now now_upd now_log acc p days amount pm ref
                            adm n Hr IH Hkept].
    - split; [intros acc; reflexivity|]. split; constructor.
    - destruct (billing_reachable_invariant w Hr) as (Hsv & Hinv & Hcan).
      destruct w as [d sv fs0]. cbn in Hsv. subst sv.
      apply subscription_update_keeps_chain; assumption.
    - destruct (billing_reachable_invariant w Hr) as (Hsv & Hinv & Hcan).
      destruct w as [d sv fs0]. cbn in Hsv. subst sv.
      apply subscription_update_keeps_chain; assumption.
    - destruct (billing_reachable_invariant w Hr) as (Hsv & Hinv & Hcan).
      destruct w as [d sv fs0]. cbn in Hsv. subst sv.
      apply billing_mark_as_paid_keeps_chain; assumption. }
  destruct Hch as (Hc & Hsort & Hty).
  destruct (billing_reachable_invariant w Hreach) as (Hsv & _).
  destruct w as [d sv fs0]. cbn in Hsv. subst sv. cbn [w_db] in *.
  assert (Hupd : forall fs now acc p s vu adm n,
             exists new,
               billing_events
                 (w_db (snd (subscription_update now acc p s vu adm n
                               (mk_world d None fs))))
               = (billing_events d ++ new)%list /\
               (List.length new <= 1)%nat).
  { intros fs now acc p s vu adm n.
    pose proof (subscription_update_db now acc p s vu adm n d fs) as Hout.
    cbv zeta in Hout.
    destruct Hout as [Hdb | Hdb]; rewrite Hdb.
    - exists []. rewrite app_nil_r. split; [reflexivity|cbn; lia].
    - eexists. split; [reflexivity|cbn; lia]. }
  split; [exact Hc|]. split; [exact Hsort|]. split; [|split; [exact Hty|]].
  - clear - Hsort.
    induction Hsort as [|a l _ IH Ha]; constructor; [|exact IH].
    intros Hin. rewrite Forall_forall in Ha. specialize (Ha a Hin). lia.
  - split; [|exact Hupd].
    intros fs now now_upd now_log acc p days amount pm ref adm n.
    unfold with_faults. cbn [w_db w_saved].
    rewrite billing_mark_as_paid_unfold. cbv zeta.
    destruct (Hupd fs now_upd acc p STATUS_ACTIVE
                (now + duration_seconds days) adm n) as (new1 & Hnew1 & Hlen).
    destruct (subscription_update now_upd acc p STATUS_ACTIVE
                (now + duration_seconds days) adm n (mk_world d None fs))
      as [rc1 w1].
    cbn [fst snd] in *.
    destruct (rc1 =? 0); cbn [snd].
    + pose proof (billing_log_event_outcome now_log acc "payment_received"
                    None (Some (subscription_plan_to_string p))
                    None (Some (subscription_status_to_string STATUS_ACTIVE))
                    amount (Some "USD"%string) pm ref adm n w1) as Hlog.
      cbv zeta in Hlog.
      destruct Hlog as (_ & _ & _ & _ & _ & Hevents & _).
      rewrite Hevents, Hnew1, <- app_assoc.
      eexists. split; [reflexivity|].
      rewrite length_app.
      destruct (log_fails w1 || negb (references_user (Some adm) (w_db w1)));
        cbn [List.length]; lia.
    + exists new1. split; [exact Hnew1|lia].
Qed.

Lemma ledger_is_an_append_only_chain_witness :
  chained None (events_for 1 (w_db paid_account)) = true /\
  List.length (billing_events (w_db paid_account)) = 3%nat.
Proof.
  split; [|reflexivity].
  apply (ledger_is_an_append_only_chain paid_account).
  refine (@billing_paid free_account [] 2000 2000 2000 1 PLAN_PRO 30 4900
            (Some "bank_transfer"%string) (Some "INV-1"%string) 7 None
            (@billing_create (fresh_world staffed_database []) [] 1000 1000 1
               PLAN_FREE (billing_init [] [system_user; sample_user] [])) _).
  intros [_ H]. vm_compute in H. discriminate H.
Defined.

(* ================================================================= *)
(** ** Who reaches which handler *)

Lemma registered_routes h :
  routes_register_all h =
  [ mk_route HTTP_GET "/" (Router.handle_home_page h) 0 0;
    mk_route HTTP_GET "/login" (Router.handle_login_page h) 0 0;
    mk_route HTTP_POST "/login" (Router.handle_login_submit h) 0 0;
    mk_route HTTP_GET "/logout" (Router.handle_logout h) 0 0;
    mk_route HTTP_GET "/dashboard" (Router.handle_dashboard h) 1 0;
    mk_route HTTP_GET "/billing" (Router.handle_billing_page h) 1 0;
    mk_route HTTP_GET "/reports" (Router.handle_reports_page h) 1 0;
    mk_route HTTP_POST "/reports/generate"
      (Router.handle_reports_generate h) 1 0;
    mk_route HTTP_GET "/reports/export"
      (Router.handle_reports_export_csv h) 1 0;
    mk_route HTTP_GET "/admin/billing"
      (Router.handle_admin_billing_page h) 1 1;
    mk_route HTTP_POST "/admin/billing/mark-paid"
      (Router.handle_admin_mark_paid h) 1 1;
    mk_route HTTP_POST "/admin/search"
      (Router.handle_admin_search_accounts h) 1 1 ].
Proof. reflexivity. Qed.

Ltac route_step :=
  match goal with
  | |- context [route_matches ?r ?q] =>
      destruct (route_matches r q); cbn [rt_handler requires_auth
        requires_admin negb andb Z.eqb]
  end.

Lemma anonymous_routing h1 h2 req :
  public_handlers_agree h1 h2 ->
  is_authenticated req = 0 ->
  router_handle_request (routes_register_all h1) req
  = router_handle_request (routes_register_all h2) req.
Proof.
  intros (H1 & H2 & H3 & H4) Hanon. rewrite !registered_routes.
  cbn [router_handle_request]. rewrite Hanon, H1, H2, H3, H4.
  cbn [rt_handler requires_auth requires_admin negb andb Z.eqb].
  repeat (route_step; try reflexivity).
Qed.

Lemma user_routing h1 h2 req :
  user_handlers_agree h1 h2 ->
  user_role req <> "admin"%string ->
  router_handle_request (routes_register_all h1) req
  = router_handle_request (routes_register_all h2) req.
Proof.
  intros ((H1 & H2 & H3 & H4) & H5 & H6 & H7 & H8 & H9) Hrole.
  rewrite !registered_routes.
  cbn [router_handle_request].
  rewrite H1, H2, H3, H4, H5, H6, H7, H8, H9.
  apply String.eqb_neq in Hrole. rewrite Hrole.
  cbn [rt_handler requires_auth requires_admin negb andb Z.eqb].
  repeat (route_step; try reflexivity);
    destruct (is_authenticated req =? 0); reflexivity.
Qed.

(** X11: the protected handlers are out of reach without a session.
    The table of [routes_register_all] has twelve routes.  For a request
    that is not authenticated the router's answer is the same whatever
    the eight handlers behind [requires_auth] are, and for a request
    whose role is not ["admin"] it is the same whatever the three admin
    handlers are: none of them is run.  In the pipeline of
    [server_handle_client] the same holds for every parsed request whose
    [session] cookie is missing or fails [session_validate]. *)
Theorem protected_handlers_need_a_session :
  forall h1 h2 req,
    List.length (routes_register_all h1) = 12%nat /\
    (public_handlers_agree h1 h2 ->
     is_authenticated req = 0 ->
     router_handle_request (routes_register_all h1) req
     = router_handle_request (routes_register_all h2) req) /\
    (user_handlers_agree h1 h2 ->
     user_role req <> "admin"%string ->
     router_handle_request (routes_register_all h1) req
     = router_handle_request (routes_register_all h2) req) /\
    (public_handlers_agree h1 h2 ->
     is_authenticated req = 0 ->
     forall now now_upd w,
       fst (fst (session_validate now now_upd
                   (request_get_cookie req pipeline_cookie_name) req w))
       = false ->
       server_dispatch (routes_register_all h1) now now_upd req w
       = server_dispatch (routes_register_all h2) now now_upd req w).
Proof.
  intros h1 h2 req. split; [reflexivity|].
  split; [apply anonymous_routing|]. split; [apply user_routing|].
  intros Hagree Hanon now now_upd w Hval.
  unfold server_dispatch, server_identify, bind, ret.
  destruct (request_get_cookie req pipeline_cookie_name) as [tok|].
  - pose proof (session_validate_outcome now now_upd tok req w) as Hout.
    cbv zeta in Hout.
    destruct (session_validate now now_upd (Some tok) req w) as [[ok req'] w'].
    cbn [fst snd] in *. subst ok.
    destruct Hout as [(Hfst & _) | (s & u & _ & _ & _ & _ & Hfst & _)];
      [|discriminate Hfst].
    injection Hfst as ->.
    now rewrite (anonymous_routing h1 h2 req Hagree Hanon).
  - now rewrite (anonymous_routing h1 h2 req Hagree Hanon).
Qed.

(* ================================================================= *)
(** ** Logging out *)

Lemma cookie_named_pair name value :
  cookie_named name (cookie_pair name value) = true.
Proof.
  unfold cookie_named, cookie_pair.
  induction name as [|c name IH]; [reflexivity|].
  cbn [prefix append String.length get] in *.
  destruct (ascii_dec c c) as [_|Hne]; [exact IH|now elim Hne].
Qed.

Lemma substring_after_prefix name rest :
  substring (String.length name) (String.length (name ++ rest)
                                  - String.length name) (name ++ rest)
  = rest.
Proof.
  induction name as [|c name IH]; cbn [append String.length substring].
  - rewrite Nat.sub_0_r. apply substring_all. apply Nat.le_refl.
  - exact IH.
Qed.

(** What the server sets under a name is what it reads back under that
    name when the cookie comes first. *)
Lemma find_cookie_pair name value cs :
  find_cookie name (cookie_pair name value :: cs) = Some value.
Proof.
  cbn [find_cookie]. rewrite cookie_named_pair. f_equal.
  unfold cookie_pair.
  pose proof (substring_after_prefix (name ++ "=") value) as H.
  revert H. generalize value. clear.
  induction name as [|c name IH]; intros value H.
  - cbn in *. exact H.
  - cbn [append String.length substring Nat.add] in *.
    apply IH. exact H.
Qed.

(** X12: logging out.  [handle_logout] always answers with the same
    response - 302 to [/], with a [Set-Cookie] that empties
    [session_token] - whether a cookie was sent, whether its session
    existed and whether the store executed the deletion.  It reads the
    token under the name [session_token], the name under which
    [handle_login_submit] issued it: for a request that carries the
    cookie of a login first, the store after the call is the store after
    [session_delete] of that token, and if the store does not fail, no
    validation of the token succeeds afterwards, at any time.  Without
    the cookie the store is not touched. *)
Theorem handle_logout_revokes_the_login :
  forall req w,
    fst (handle_logout req w)
    = mk_response 302 "Found"
        ["Set-Cookie: session_token=; HttpOnly; SameSite=Strict; Path=/";
         "Location: /"; "Content-Length: 0"]%string EmptyString /\
    (request_get_cookie req login_cookie_name = None ->
     snd (handle_logout req w) = w) /\
    (forall tok,
        request_get_cookie req login_cookie_name = Some tok ->
        snd (handle_logout req w) = snd (session_delete tok w)) /\
    (forall tok cs,
        cookies req = cookie_pair login_cookie_name tok :: cs ->
        In ("Set-Cookie: " ++ cookie_pair login_cookie_name tok
            ++ "; Max-Age=604800; HttpOnly; SameSite=Strict; Path=/")%string
          (resp_headers (login_success_response tok)) /\
        request_get_cookie req login_cookie_name = Some tok /\
        (w_faults w = [] ->
         forall now now_upd req2 fs,
           fst (session_validate now now_upd (Some tok) req2
                  (with_faults fs (snd (handle_logout req w))))
           = (false, req2))).
Proof.
  intros req w.
  assert (Hsome : forall tok,
             request_get_cookie req login_cookie_name = Some tok ->
             snd (handle_logout req w) = snd (session_delete tok w)).
  { intros tok Hc. unfold handle_logout, login_cookie_name in *.
    rewrite Hc. unfold bind, ret.
    destruct (session_delete tok w); reflexivity. }
  split; [|split; [|split; [exact Hsome|]]].
  - unfold handle_logout, bind, ret.
    destruct (request_get_cookie req "session_token");
      [destruct (session_delete s w)|]; reflexivity.
  - intros Hc. unfold handle_logout, login_cookie_name in *. now rewrite Hc.
  - intros tok cs Hcs.
    assert (Hc : request_get_cookie req login_cookie_name = Some tok).
    { unfold request_get_cookie. rewrite Hcs. apply find_cookie_pair. }
    split; [apply login_sets_session_token_cookie|]. split; [exact Hc|].
    intros Hfs now now_upd req2 fs. rewrite (Hsome tok Hc).
    destruct w as [d sv fs0]. cbn in Hfs. subst fs0.
    assert (Hdel : w_db (snd (session_delete tok (mk_world d sv [])))
                   = set_sessions
                       (filter (fun s => negb (se_token s =? tok)%string)
                          (sessions d)) d) by reflexivity.
    rewrite session_validate_answer.
    destruct (lookup_fails _); [reflexivity|].
    rewrite lookup_with_faults. unfold lookup_session. rewrite Hdel.
    cbn [set_sessions sessions users].
    now rewrite select_session_user_gone.
Qed.

(* ================================================================= *)
(** ** Reports *)

Lemma report_days_small params :
  -2147483648 <= Z.quot (end_date params - start_date params) 86400
  <= 2147483647 ->
  report_days params
  = Z.quot (end_date params - start_date params) 86400.
Proof.
  intros H. unfold report_days.
  change (24 * 60 * 60) with 86400. apply wrap_int_small.
  unfold CInt.INT_MIN, CInt.INT_MAX. lia.
Qed.

Lemma entitlement_has_feature_granted now acc feature w :
  fst (entitlement_has_feature now acc feature w) = true ->
  exists row,
    select_subscription acc (w_db w) = Some row /\
    subscription_is_valid now (subscription_of_row row) = true /\
    plan_grants (plan (subscription_of_row row)) feature = true.
Proof.
  rewrite entitlement_has_feature_answer. cbn [fst].
  destruct (lookup_fails w); [discriminate|].
  destruct (select_subscription acc (w_db w)) as [row|]; [|discriminate].
  intros H. apply andb_true_iff in H. exists row. tauto.
Qed.

Lemma entitlement_reads_keep_store now acc feature w :
  w_db (snd (entitlement_has_feature now acc feature w)) = w_db w /\
  w_saved (snd (entitlement_has_feature now acc feature w)) = w_saved w /\
  w_db (snd (entitlement_get_max_report_days now acc w)) = w_db w /\
  w_saved (snd (entitlement_get_max_report_days now acc w)) = w_saved w.
Proof.
  rewrite entitlement_has_feature_answer,
    entitlement_get_max_report_days_answer,
    subscription_get_by_account_answer.
  cbn. auto.
Qed.

Lemma and_not_feature a now acc feature w :
  let r := and_not a (entitlement_has_feature now acc feature) w in
  w_db (snd r) = w_db w /\ w_saved (snd r) = w_saved w /\
  (fst r = false -> a = true ->
   exists row,
     select_subscription acc (w_db w) = Some row /\
     subscription_is_valid now (subscription_of_row row) = true /\
     plan_grants (plan (subscription_of_row row)) feature = true).
Proof.
  cbv zeta. unfold and_not, bind, ret.
  destruct a; [|cbn; repeat split; discriminate].
  pose proof (entitlement_has_feature_granted now acc feature w) as Hgr.
  pose proof (entitlement_reads_keep_store now acc feature w)
    as (Hdb & Hsv & _).
  destruct (entitlement_has_feature now acc feature w) as [can w1].
  cbn [fst snd] in *. split; [exact Hdb|]. split; [exact Hsv|].
  destruct can; [|discriminate]. intros _ _. apply Hgr. reflexivity.
Qed.

(** X13: what [report_validate_params] lets through, [report_generate]
    serves within the plan.  When the validation answers 0, the number
    of days it computed is at most the report length that the
    entitlement check gave at that moment, which is 7, 90 or 365; a CSV
    export was asked for only by an account whose valid subscription
    grants it, and likewise a grouping; no table was written.  For the
    same parameters [report_generate] then fails exactly when the range
    has no whole day (or memory runs out), and otherwise returns as many
    rows as days, at most 365, one per consecutive day from the start
    date, with user counts from 1 to 5 and session counts from 5 to
    14. *)
Theorem validated_reports_stay_within_the_plan :
  forall now1 now2 now3 acc params size w msg w' format,
    report_validate_params now1 now2 now3 acc params size w = ((0, msg), w') ->
    let max_days := fst (entitlement_get_max_report_days now1 acc w) in
    report_days params <= max_days /\
    (max_days = 7 \/ max_days = 90 \/ max_days = 365) /\
    msg = None /\
    w_db w' = w_db w /\ w_saved w' = w_saved w /\
    (export_csv params <> 0 ->
     exists row,
       select_subscription acc (w_db w) = Some row /\
       subscription_is_valid now2 (subscription_of_row row) = true /\
       plan_grants (plan (subscription_of_row row)) FEATURE_CSV_EXPORT
       = true) /\
    (grouping params <> GROUP_NONE ->
     exists row,
       select_subscription acc (w_db w) = Some row /\
       subscription_is_valid now3 (subscription_of_row row) = true /\
       plan_grants (plan (subscription_of_row row)) FEATURE_REPORT_GROUPING
       = true) /\
    (report_days params <= 0 ->
     forall allocated, report_generate format allocated acc params = None) /\
    (0 < report_days params ->
     exists rows,
       report_generate format true acc params
       = Some (rows, report_days params) /\
       Z.of_nat (List.length rows) = report_days params /\
       (List.length rows <= 365)%nat /\
       forall i row,
         nth_error rows i = Some row ->
         date row = format (start_date params + Z.of_nat i * 86400) /\
         1 <= user_count row <= 5 /\
         5 <= session_count row <= 14 /\
         account_count row = 1).
Proof.
  intros now1 now2 now3 acc params size w msg w' format Hrun. cbv zeta.
  unfold report_validate_params, bind, ret in Hrun.
  pose proof (max_report_days_values now1 acc w) as Hdays.
  pose proof (entitlement_reads_keep_store now1 acc FEATURE_CSV_EXPORT w)
    as (_ & _ & Hdb1 & Hsv1).
  destruct (entitlement_get_max_report_days now1 acc w) as [max_days w1].
  cbn [fst snd] in *.
  destruct (Z.ltb_spec max_days (report_days params)) as [Hgt|Hle];
    [discriminate Hrun|].
  unfold entitlement_can_export_csv, entitlement_can_use_grouping in Hrun.
  pose proof (and_not_feature (negb (export_csv params =? 0)) now2 acc
                FEATURE_CSV_EXPORT w1) as Hc.
  cbv zeta in Hc.
  destruct (and_not (negb (export_csv params =? 0))
              (entitlement_has_feature now2 acc FEATURE_CSV_EXPORT) w1)
    as [csv_denied w2].
  cbn [fst snd] in Hc. destruct Hc as (Hdb2 & Hsv2 & Hcsv0).
  destruct csv_denied; [discriminate Hrun|].
  pose proof (and_not_feature (negb (is_group_none (grouping params))) now3
                acc FEATURE_REPORT_GROUPING w2) as Hg.
  cbv zeta in Hg.
  destruct (and_not (negb (is_group_none (grouping params)))
              (entitlement_has_feature now3 acc FEATURE_REPORT_GROUPING) w2)
    as [grouping_denied w3].
  cbn [fst snd] in Hg. destruct Hg as (Hdb3 & Hsv3 & Hgrp0).
  destruct grouping_denied; [discriminate Hrun|].
  injection Hrun as <- <-.
  assert (Hmsg : @None string = None) by reflexivity.
  assert (Hdb : w_db w3 = w_db w) by congruence.
  assert (Hsv : w_saved w3 = w_saved w) by congruence.
  assert (Hcsv : export_csv params <> 0 ->
                 exists row,
                   select_subscription acc (w_db w) = Some row /\
                   subscription_is_valid now2 (subscription_of_row row)
                   = true /\
                   plan_grants (plan (subscription_of_row row))
                     FEATURE_CSV_EXPORT = true).
  { intros Hne. rewrite <- Hdb1. apply Hcsv0; [reflexivity|].
    apply Z.eqb_neq in Hne. now rewrite Hne. }
  assert (Hgrp : grouping params <> GROUP_NONE ->
                 exists row,
                   select_subscription acc (w_db w) = Some row /\
                   subscription_is_valid now3 (subscription_of_row row)
                   = true /\
                   plan_grants (plan (subscription_of_row row))
                     FEATURE_REPORT_GROUPING = true).
  { intros Hne. rewrite <- Hdb1, <- Hdb2. apply Hgrp0; [reflexivity|].
    destruct (grouping params); [now elim Hne|reflexivity..]. }
  split; [exact Hle|]. split; [exact Hdays|]. split; [exact Hmsg|].
  split; [exact Hdb|]. split; [exact Hsv|]. split; [exact Hcsv|].
  split; [exact Hgrp|]. split.
  - intros Hneg allocated. unfold report_generate.
    destruct (Z.leb_spec (report_days params) 0); [reflexivity|lia].
  - intros Hpos. unfold report_generate.
    destruct (Z.leb_spec (report_days params) 0); [lia|]. cbn [negb].
    eexists. split; [reflexivity|].
    rewrite length_map, length_seq.
    split; [lia|]. split; [lia|].
    intros i row Hnth. rewrite nth_error_map in Hnth.
    destruct (nth_error (seq 0 (Z.to_nat (report_days params))) i)
      as [j|] eqn:Hj; [|discriminate Hnth].
    assert (Hlt : (i < List.length
                          (seq 0 (Z.to_nat (report_days params))))%nat)
      by (apply nth_error_Some; congruence).
    rewrite length_seq in Hlt. rewrite nth_error_seq in Hj.
    assert (Hij : j = i).
    { destruct (Nat.ltb_spec i (Z.to_nat (report_days params)));
        [injection Hj as <-; reflexivity|lia]. }
    subst j. unfold option_map in Hnth.
    change (24 * 60 * 60) with 86400 in Hnth.
    assert (Hrow : row
                   = mk_report_row
                       (format (start_date params + Z.of_nat i * 86400))
                       (1 + Z.rem (Z.of_nat i) 5)
                       (5 + Z.rem (Z.of_nat i) 10) 1) by congruence.
    rewrite Hrow. unfold date, user_count, session_count, account_count.
    pose proof (Z.rem_bound_pos (Z.of_nat i) 5 (Nat2Z.is_nonneg i) eq_refl).
    pose proof (Z.rem_bound_pos (Z.of_nat i) 10 (Nat2Z.is_nonneg i) eq_refl).
    repeat split; try reflexivity; lia.
Qed.

Lemma validated_reports_stay_within_the_plan_witness :
  report_days (mk_report_params 0 864000 GROUP_BY_DAY 1) <= 90.
Proof.
  assert (Hrun : report_validate_params 2500 2500 2500 1
                   (mk_report_params 0 864000 GROUP_BY_DAY 1) 256
                   paid_account
                 = ((0, None), paid_account)) by reflexivity.
  destruct (validated_reports_stay_within_the_plan
              2500 2500 2500 1 (mk_report_params 0 864000 GROUP_BY_DAY 1)
              256 paid_account None paid_account (fun _ => EmptyString) Hrun)
    as (Hle & _).
  exact Hle.
Defined.

(** X14: the CSV export is gated by the entitlement.
    [handle_reports_export_csv] answers 200 with a [text/csv] attachment
    only for an account whose subscription row exists, is valid at that
    time and is not on the free plan, and only if the lookup did not
    fail in the store; in every other case it answers 403 with an HTML
    page.  It writes no table. *)
Theorem csv_export_is_gated :
  forall now req w,
    let resp := fst (handle_reports_export_csv now req w) in
    ((status_code resp = 200 /\
      In "Content-Type: text/csv"%string (resp_headers resp) /\
      lookup_fails w = false /\
      exists row,
        select_subscription (account_id req) (w_db w) = Some row /\
        subscription_is_valid now (subscription_of_row row) = true /\
        plan (subscription_of_row row) <> PLAN_FREE)
     \/
     (status_code resp = 403 /\
      In "Content-Type: text/html"%string (resp_headers resp) /\
      fst (entitlement_can_export_csv now (account_id req) w) = false))
    /\ w_db (snd (handle_reports_export_csv now req w)) = w_db w
    /\ w_saved (snd (handle_reports_export_csv now req w)) = w_saved w.
Proof.
  intros now req w. cbv zeta.
  unfold handle_reports_export_csv, entitlement_can_export_csv, bind, ret.
  pose proof (entitlement_has_feature_answer now (account_id req)
                FEATURE_CSV_EXPORT w) as Hans.
  pose proof (entitlement_reads_keep_store now (account_id req)
                FEATURE_CSV_EXPORT w) as (Hdb & Hsv & _).
  destruct (entitlement_has_feature now (account_id req) FEATURE_CSV_EXPORT w)
    as [can w1].
  cbn [fst snd] in *. injection Hans as Hcan _.
  destruct can; cbn [negb fst snd]; (split; [|split; assumption]).
  - left. split; [reflexivity|]. split; [left; reflexivity|].
    destruct (lookup_fails w); [discriminate Hcan|]. split; [reflexivity|].
    destruct (select_subscription (account_id req) (w_db w)) as [row|];
      [|discriminate Hcan].
    symmetry in Hcan. apply andb_true_iff in Hcan. destruct Hcan as [Hv Hp].
    exists row. split; [reflexivity|]. split; [exact Hv|].
    intros E. cbn [plan subscription_of_row] in E, Hp.
    rewrite E in Hp. discriminate Hp.
  - right. split; [reflexivity|]. split; [left; reflexivity|reflexivity].
Qed.

(* ================================================================= *)
(** ** Escaping and comparing text *)

Ltac each_char c := destruct c as [[] [] [] [] [] [] [] []].

Lemma all_chars_app p s t :
  all_chars p (s ++ t) = all_chars p s && all_chars p t.
Proof.
  induction s as [|c s IH]; [reflexivity|].
  cbn [append all_chars]. now rewrite IH, andb_assoc.
Qed.

Lemma string_length_app s t :
  String.length (s ++ t) = (String.length s + String.length t)%nat.
Proof. induction s as [|c s IH]; [reflexivity|]. cbn. now rewrite IH. Qed.

Lemma url_encode_char_safe c :
  all_chars is_url_char (url_encode_char c) = true.
Proof. each_char c; reflexivity. Qed.

Lemma url_encode_char_length c :
  ((1 <=? String.length (url_encode_char c))
   && (String.length (url_encode_char c) <=? 3))%nat = true.
Proof. each_char c; reflexivity. Qed.

Lemma percent_decode_char c rest :
  percent_decode (url_encode_char c ++ rest) = String c (percent_decode rest).
Proof. each_char c; reflexivity. Qed.

Lemma percent_decode_url_encode s : percent_decode (url_encode s) = s.
Proof.
  induction s as [|c s IH]; [reflexivity|].
  cbn [url_encode]. now rewrite percent_decode_char, IH.
Qed.

(** X15: [url_encode] writes only letters, digits and [- _ . ~ + %];
    its result is at least as long as the input and at most three times
    as long, so the buffer of [strlen(str) * 3 + 1] bytes is never
    overrun; and it loses nothing: a reader that undoes [+] and [%XX]
    gives the input back, so different inputs are encoded differently. *)
Theorem url_encode_is_safe_and_reversible :
  forall s,
    all_chars is_url_char (url_encode s) = true /\
    (String.length s <= String.length (url_encode s)
     <= 3 * String.length s)%nat /\
    percent_decode (url_encode s) = s /\
    (forall t, url_encode s = url_encode t -> s = t).
Proof.
  intros s. split; [|split; [|split]].
  - induction s as [|c s IH]; [reflexivity|].
    cbn [url_encode]. now rewrite all_chars_app, url_encode_char_safe, IH.
  - induction s as [|c s IH]; [cbn; lia|].
    cbn [url_encode String.length]. rewrite string_length_app.
    pose proof (url_encode_char_length c) as H.
    apply andb_true_iff in H. destruct H as [H1 H2].
    apply Nat.leb_le in H1, H2. lia.
  - apply percent_decode_url_encode.
  - intros t H. rewrite <- (percent_decode_url_encode s), H.
    apply percent_decode_url_encode.
Qed.

Lemma html_escape_char_cases c :
  (c = "<"%char /\ html_escape_char c = "&lt;") \/
  (c = ">"%char /\ html_escape_char c = "&gt;") \/
  (c = "&"%char /\ html_escape_char c = "&amp;") \/
  (c = "034"%char /\ html_escape_char c = "&quot;") \/
  (c = "'"%char /\ html_escape_char c = "&#39;") \/
  (c <> "<"%char /\ c <> ">"%char /\ c <> "&"%char /\ c <> "034"%char /\
   c <> "'"%char /\ html_escape_char c = String c EmptyString).
Proof.
  unfold html_escape_char.
  destruct (Ascii.eqb_spec c "<"); [auto|].
  destruct (Ascii.eqb_spec c ">"); [auto|].
  destruct (Ascii.eqb_spec c "&"); [auto 6|].
  destruct (Ascii.eqb_spec c "034"); [auto 6|].
  destruct (Ascii.eqb_spec c "'"); [auto 7|].
  auto 12.
Qed.

(** No text of [html_escape_char] starts another one. *)
Lemma html_escape_char_prefix_free a b x y :
  (html_escape_char a ++ x = html_escape_char b ++ y)%string ->
  a = b /\ x = y.
Proof.
  destruct (html_escape_char_cases a)
    as [[-> ->]|[[-> ->]|[[-> ->]|[[-> ->]|[[-> ->]|(A1&A2&A3&A4&A5& ->)]]]]];
  destruct (html_escape_char_cases b)
    as [[-> ->]|[[-> ->]|[[-> ->]|[[-> ->]|[[-> ->]|(B1&B2&B3&B4&B5& ->)]]]]];
  cbn [append]; intros H; try discriminate H;
    try (injection H as H; split; [reflexivity|exact H]);
    try (injection H as H1 H2; congruence);
    try (injection H as H1 H2; split; congruence).
Qed.

Lemma html_escape_char_clean c :
  all_chars (fun x => negb (is_markup x)) (html_escape_char c) = true.
Proof. each_char c; reflexivity. Qed.

Lemma html_escape_char_length c :
  ((1 <=? String.length (html_escape_char c))
   && (String.length (html_escape_char c) <=? 6))%nat = true.
Proof. each_char c; reflexivity. Qed.

(** X16: the result of [html_escape] holds none of the characters
    [<], [>], double quote and apostrophe; it is at least as long as the
    input and at most six times as long, so the buffer of [len * 6 + 1]
    bytes is never overrun; text without those characters and without
    [&] is left as it is; and different texts are escaped
    differently. *)
Theorem html_escape_removes_markup :
  forall s,
    all_chars (fun c => negb (is_markup c)) (html_escape s) = true /\
    (String.length s <= String.length (html_escape s)
     <= 6 * String.length s)%nat /\
    (all_chars (fun c => negb (is_markup c) && negb (c =? "&")%char) s = true
     -> html_escape s = s) /\
    (forall t, html_escape s = html_escape t -> s = t).
Proof.
  intros s. split; [|split; [|split]].
  - induction s as [|c s IH]; [reflexivity|].
    cbn [html_escape]. now rewrite all_chars_app, html_escape_char_clean, IH.
  - induction s as [|c s IH]; [cbn; lia|].
    cbn [html_escape String.length]. rewrite string_length_app.
    pose proof (html_escape_char_length c) as H.
    apply andb_true_iff in H. destruct H as [H1 H2].
    apply Nat.leb_le in H1, H2. lia.
  - induction s as [|c s IH]; [reflexivity|].
    cbn [all_chars html_escape]. intros H.
    apply andb_true_iff in H. destruct H as [Hc Hs].
    rewrite (IH Hs).
    destruct (html_escape_char_cases c)
      as [[-> _]|[[-> _]|[[-> _]|[[-> _]|[[-> _]|(_&_&_&_&_& ->)]]]]];
      try discriminate Hc.
    reflexivity.
  - induction s as [|c s IH]; intros [|d t] H.
    + reflexivity.
    + cbn [html_escape] in H.
      destruct (html_escape_char_cases d)
        as [[-> E]|[[-> E]|[[-> E]|[[-> E]|[[-> E]|(_&_&_&_&_& E)]]]]];
        rewrite E in H; discriminate H.
    + cbn [html_escape] in H.
      destruct (html_escape_char_cases c)
        as [[-> E]|[[-> E]|[[-> E]|[[-> E]|[[-> E]|(_&_&_&_&_& E)]]]]];
        rewrite E in H; discriminate H.
    + cbn [html_escape] in H.
      apply html_escape_char_prefix_free in H. destruct H as [-> H].
      now rewrite (IH t H).
Qed.

Lemma tolower_zero c : tolower c = zero -> c = zero.
Proof. each_char c; cbv; intros H; try discriminate H; reflexivity. Qed.

Lemma code_injective a b : code a = code b -> a = b.
Proof.
  unfold code. intros H.
  rewrite <- (ascii_nat_embedding a), <- (ascii_nat_embedding b).
  now rewrite H.
Qed.

Lemma code_zero c : Z.of_nat (code c) = 0 -> c = zero.
Proof.
  intros H. apply code_injective.
  change (code zero) with 0%nat. lia.
Qed.

Lemma strcasecmp_portable_antisym a b :
  strcasecmp_portable a b = - strcasecmp_portable b a.
Proof.
  revert b. induction a as [|x a IH]; intros [|y b]; cbn [strcasecmp_portable];
    try lia.
  rewrite (Ascii.eqb_sym (tolower y) (tolower x)).
  destruct (tolower x =? tolower y)%char; [apply IH|lia].
Qed.

(** X17: [strcasecmp_portable] compares without regard to case.  On
    strings of C it answers 0 exactly when the two strings are equal
    after lowering every letter; swapping the arguments negates the
    answer; and a string compares equal to itself whatever its case. *)
Theorem strcasecmp_portable_ignores_case :
  forall a b,
    c_string a -> c_string b ->
    (strcasecmp_portable a b = 0 <-> lowercase a = lowercase b) /\
    strcasecmp_portable a b = - strcasecmp_portable b a /\
    strcasecmp_portable a (lowercase a) = 0.
Proof.
  intros a b Ha Hb. split; [|split].
  - revert b Ha Hb.
    induction a as [|x a IH]; intros [|y b] Ha Hb;
      cbn [strcasecmp_portable lowercase c_string] in *.
    + tauto.
    + destruct Hb as [Hy _]. split; [|discriminate].
      intros H. exfalso. apply Hy, tolower_zero, code_zero. lia.
    + destruct Ha as [Hx _]. split; [|discriminate].
      intros H. exfalso. apply Hx, tolower_zero, code_zero. lia.
    + destruct Ha as [_ Ha]. destruct Hb as [_ Hb].
      destruct (Ascii.eqb_spec (tolower x) (tolower y)) as [E|E].
      * rewrite (IH b Ha Hb), E. split; [congruence|].
        intros H. injection H as H. exact H.
      * split.
        -- intros H. exfalso. apply E, code_injective. lia.
        -- intros H. injection H as H _. contradiction.
  - apply strcasecmp_portable_antisym.
  - clear. induction a as [|x a IH]; [reflexivity|].
    cbn [strcasecmp_portable lowercase].
    assert (H : tolower (tolower x) = tolower x)
      by (each_char x; reflexivity).
    rewrite H, Ascii.eqb_refl. exact IH.
Qed.

Lemma strcasecmp_portable_ignores_case_witness :
  strcasecmp_portable "Content-Type" "content-TYPE" = 0.
Proof.
  assert (Ha : c_string "Content-Type") by (cbn; repeat split; discriminate).
  assert (Hb : c_string "content-TYPE") by (cbn; repeat split; discriminate).
  destruct (strcasecmp_portable_ignores_case "Content-Type" "content-TYPE"
              Ha Hb) as [[_ H] _].
  apply H. reflexivity.
Defined.

(* ================================================================= *)
(** ** Prefixes, suffixes and white space *)

Lemma substring_0_app p r : substring 0 (String.length p) (p ++ r) = p.
Proof.
  induction p as [|c p IH]; cbn [String.length append substring].
  - destruct r; reflexivity.
  - now rewrite IH.
Qed.

(** A string is its first [n] characters followed by the others. *)
Lemma substring_split s n :
  (n <= String.length s)%nat ->
  s = (substring 0 n s ++ substring n (String.length s - n) s)%string.
Proof.
  revert n. induction s as [|c s IH]; intros [|n] H; cbn in H |- *.
  - reflexivity.
  - lia.
  - f_equal. symmetry. apply substring_all. apply Nat.le_refl.
  - f_equal. apply IH. lia.
Qed.

Lemma substring_app_right r t :
  substring (String.length r) (String.length t) (r ++ t) = t.
Proof.
  induction r as [|c r IH]; cbn [String.length append substring].
  - apply substring_all. apply Nat.le_refl.
  - exact IH.
Qed.

(** X18: [str_starts_with] answers 1 exactly for the strings that are
    the prefix followed by something, and [str_ends_with] exactly for
    those that are something followed by the suffix; in particular every
    string starts and ends with the empty string and with itself. *)
Theorem str_starts_and_ends_with :
  forall str part,
    (str_starts_with str part = true
     <-> exists rest, str = (part ++ rest)%string) /\
    (str_ends_with str part = true
     <-> exists rest, str = (rest ++ part)%string) /\
    str_starts_with str EmptyString = true /\
    str_ends_with str EmptyString = true /\
    str_starts_with str str = true /\
    str_ends_with str str = true.
Proof.
  assert (Hstart : forall str part,
             str_starts_with str part = true
             <-> exists rest, str = (part ++ rest)%string).
  { intros str part. unfold str_starts_with. split.
    - destruct (Nat.ltb_spec (String.length str) (String.length part));
        [discriminate|].
      intros E. apply String.eqb_eq in E.
      exists (substring (String.length part)
                (String.length str - String.length part) str).
      rewrite <- E at 1. apply substring_split. assumption.
    - intros [rest ->]. rewrite string_length_app.
      destruct (Nat.ltb_spec (String.length part + String.length rest)
                  (String.length part)); [lia|].
      rewrite substring_0_app. apply String.eqb_refl. }
  assert (Hend : forall str part,
             str_ends_with str part = true
             <-> exists rest, str = (rest ++ part)%string).
  { intros str part. unfold str_ends_with. split.
    - destruct (Nat.ltb_spec (String.length str) (String.length part));
        [discriminate|].
      intros E. apply String.eqb_eq in E.
      exists (substring 0 (String.length str - String.length part) str).
      pose proof (substring_split str
                    (String.length str - String.length part)
                    ltac:(lia)) as Hs.
      replace (String.length str
               - (String.length str - String.length part))%nat
        with (String.length part) in Hs by lia.
      rewrite E in Hs. exact Hs.
    - intros [rest ->]. rewrite string_length_app.
      destruct (Nat.ltb_spec (String.length rest + String.length part)
                  (String.length part)); [lia|].
      replace (String.length rest + String.length part
               - String.length part)%nat
        with (String.length rest) by lia.
      rewrite substring_app_right. apply String.eqb_refl. }
  intros str part. split; [apply Hstart|]. split; [apply Hend|].
  split; [apply Hstart; exists str; reflexivity|].
  split; [apply Hend; exists str; clear; induction str; cbn; congruence|].
  split; [apply Hstart; exists EmptyString;
          clear; induction str; cbn; congruence|].
  apply Hend. exists EmptyString. reflexivity.
Qed.

Lemma substring_add s a k1 k2 :
  substring a (k1 + k2) s
  = (substring a k1 s ++ substring (a + k1) k2 s)%string.
Proof.
  revert a k1. induction s as [|c s IH]; intros a k1.
  - destruct a, k1, k2; reflexivity.
  - destruct a as [|a]; [|cbn [substring Nat.add]; apply IH].
    destruct k1 as [|k1]; [reflexivity|].
    cbn [substring Nat.add append]. f_equal. apply (IH 0%nat k1).
Qed.

Lemma get_substring s a k i :
  (i < k)%nat -> get i (substring a k s) = get (a + i) s.
Proof.
  revert a k i. induction s as [|c s IH]; intros a k i Hi.
  - destruct a, k; cbn; try lia; destruct i; reflexivity.
  - destruct a as [|a]; [|cbn [substring Nat.add get]; apply IH; exact Hi].
    destruct k as [|k]; [lia|].
    destruct i as [|i]; [reflexivity|].
    cbn [substring Nat.add get]. apply (IH 0%nat k i). lia.
Qed.

Lemma length_substring s a k :
  (a + k <= String.length s)%nat -> String.length (substring a k s) = k.
Proof.
  revert a k. induction s as [|c s IH]; intros a k H; cbn in H.
  - assert (a = 0 /\ k = 0)%nat as [-> ->] by lia. reflexivity.
  - destruct a as [|a]; [|cbn [substring]; apply IH; lia].
    destruct k as [|k]; [reflexivity|].
    cbn [substring String.length]. f_equal. apply (IH 0%nat k). lia.
Qed.

Lemma get_in_range s i :
  (i < String.length s)%nat -> exists c, get i s = Some c.
Proof.
  revert i. induction s as [|c s IH]; intros i H; cbn in H; [lia|].
  destruct i as [|i]; [exists c; reflexivity|].
  cbn [get]. apply IH. lia.
Qed.

Lemma get_out_of_range s i :
  (String.length s <= i)%nat -> get i s = None.
Proof.
  revert i. induction s as [|c s IH]; intros i H; [destruct i; reflexivity|].
  cbn in H. destruct i as [|i]; [lia|]. cbn [get]. apply IH. lia.
Qed.

Lemma all_chars_substring p s a k :
  (forall i, (a <= i < a + k)%nat -> (i < String.length s)%nat ->
             exists c, get i s = Some c /\ p c = true) ->
  all_chars p (substring a k s) = true.
Proof.
  revert a k. induction s as [|c s IH]; intros a k H.
  - destruct a, k; reflexivity.
  - destruct a as [|a].
    + destruct k as [|k]; [reflexivity|].
      cbn [substring all_chars]. apply andb_true_iff. split.
      * destruct (H 0%nat) as (c0 & Hc0 & Hp); [lia|cbn; lia|].
        cbn in Hc0. congruence.
      * apply (IH 0%nat k). intros i Hi Hlen.
        apply (H (S i)); [lia|cbn; lia].
    + cbn [substring]. apply IH. intros i Hi Hlen.
      apply (H (S i)); [lia|cbn; lia].
Qed.

Lemma leading_spaces_facts s :
  (leading_spaces s <= String.length s)%nat /\
  (forall i, (i < leading_spaces s)%nat ->
             exists c, get i s = Some c /\ isspace c = true) /\
  (forall c, get (leading_spaces s) s = Some c -> isspace c = false).
Proof.
  induction s as [|c s (IH1 & IH2 & IH3)]; cbn [leading_spaces String.length].
  - split; [lia|]. split; [intros i H; lia|]. intros c H. discriminate H.
  - destruct (isspace c) eqn:E.
    + split; [lia|]. split.
      * intros [|i] H; [exists c; auto|]. cbn [get]. apply IH2. lia.
      * intros c0 H. cbn [get] in H. apply IH3. exact H.
    + split; [lia|]. split; [intros i H; lia|].
      intros c0 H. cbn in H. congruence.
Qed.

Lemma back_over_spaces_facts s start e :
  (start <= e)%nat ->
  let b := back_over_spaces s start e in
  (start <= b <= e)%nat /\
  (forall i, (b < i <= e)%nat -> exists c, get i s = Some c /\ isspace c = true) /\
  (b = start \/ forall c, get b s = Some c -> isspace c = false).
Proof.
  cbv zeta. induction e as [|e IH]; intros Hle.
  - cbn [back_over_spaces]. split; [lia|]. split; [intros i H; lia|].
    left. lia.
  - cbn [back_over_spaces].
    destruct (Nat.ltb_spec start (S e)) as [Hlt|Hge]; cbn [andb].
    + destruct (get (S e) s) as [c|] eqn:Hget.
      * destruct (isspace c) eqn:Hsp.
        -- destruct IH as (I1 & I2 & I3); [lia|].
           split; [lia|]. split; [|exact I3].
           intros i Hi. destruct (Nat.eq_dec i (S e)) as [->|Hne].
           ++ exists c. auto.
           ++ apply I2. lia.
        -- split; [lia|]. split; [intros i H; lia|].
           right. intros c0 H. congruence.
      * split; [lia|]. split; [intros i H; lia|].
        right. intros c0 H. congruence.
    + split; [lia|]. split; [intros i H; lia|]. left. lia.
Qed.

(** A string that starts and ends with other than white space is left as
    it is. *)
Lemma str_trim_fixed t c1 c2 :
  get 0 t = Some c1 -> isspace c1 = false ->
  get (String.length t - 1) t = Some c2 -> isspace c2 = false ->
  str_trim t = t.
Proof.
  intros H1 Hs1 H2 Hs2. destruct t as [|c t]; [reflexivity|].
  unfold str_trim.
  assert (Hst : leading_spaces (String c t) = 0%nat).
  { cbn in H1. injection H1 as ->. cbn [leading_spaces]. now rewrite Hs1. }
  rewrite Hst.
  assert (Hb : back_over_spaces (String c t) 0
                 (String.length (String c t) - 1)
               = (String.length (String c t) - 1)%nat).
  { destruct (String.length (String c t) - 1)%nat as [|e] eqn:El;
      [reflexivity|].
    cbn [back_over_spaces]. rewrite H2, Hs2.
    now rewrite andb_false_r. }
  rewrite Hb. apply substring_all. cbn [String.length]. lia.
Qed.

(** X19: the two trimming routines, [str_trim] of the string utilities
    and [trim] of the configuration reader, compute the same function.
    The result is the input without a run of white space at its start
    and one at its end; it is empty or starts and ends with a character
    that is not white space; and trimming twice is trimming once. *)
Theorem str_trim_strips_white_space :
  forall s,
    trim s = str_trim s /\
    (exists l r,
        s = (l ++ str_trim s ++ r)%string /\
        all_chars isspace l = true /\ all_chars isspace r = true) /\
    (str_trim s = EmptyString \/
     exists c1 c2,
       get 0 (str_trim s) = Some c1 /\ isspace c1 = false /\
       get (String.length (str_trim s) - 1) (str_trim s) = Some c2 /\
       isspace c2 = false) /\
    str_trim (str_trim s) = str_trim s.
Proof.
  intros s.
  destruct s as [|c0 s0] eqn:Es.
  { split; [reflexivity|]. split; [exists EmptyString, EmptyString; auto|].
    split; [left; reflexivity|reflexivity]. }
  rewrite <- Es.
  assert (Hn : (0 < String.length s)%nat) by (subst s; cbn; lia).
  destruct (leading_spaces_facts s) as (L1 & L2 & L3).
  assert (Htrim : str_trim s
                  = substring (leading_spaces s)
                      (back_over_spaces s (leading_spaces s)
                         (String.length s - 1) + 1 - leading_spaces s) s)
    by (subst s; reflexivity).
  destruct (Nat.eq_dec (leading_spaces s) (String.length s)) as [Hall|Hsome].
  - (* only white space *)
    assert (Hempty : str_trim s = EmptyString).
    { rewrite Htrim, Hall.
      assert (Hb : (back_over_spaces s (String.length s)
                      (String.length s - 1) <= String.length s - 1)%nat).
      { clear. generalize (String.length s) at 1 as st.
        intros st. induction (String.length s - 1)%nat as [|e IH];
          cbn [back_over_spaces]; [lia|].
        destruct ((st <? S e)%nat && _); lia. }
      replace (_ + 1 - String.length s)%nat with 0%nat by lia.
      clear. generalize (String.length s) as n.
      induction s as [|c s IH]; intros [|n]; cbn [substring]; auto. }
    split; [|split; [|split]].
    + rewrite Hempty. unfold trim. rewrite Hall.
      now rewrite get_out_of_range by lia.
    + exists s, EmptyString. rewrite Hempty. cbn [append].
      split; [clear; induction s; cbn; congruence|]. split; [|reflexivity].
      rewrite <- (substring_all s (String.length s)) by lia.
      apply all_chars_substring. intros i Hi _. apply L2. lia.
    + left. exact Hempty.
    + rewrite Hempty. reflexivity.
  - (* a first character that is not white space *)
    assert (Hlt : (leading_spaces s < String.length s)%nat) by lia.
    destruct (get_in_range s _ Hlt) as [c1 Hc1].
    pose proof (L3 c1 Hc1) as Hs1.
    destruct (back_over_spaces_facts s (leading_spaces s)
                (String.length s - 1)) as (B1 & B2 & B3); [lia|].
    set (st := leading_spaces s) in *.
    set (e := back_over_spaces s st (String.length s - 1)) in *.
    assert (He : (e < String.length s)%nat) by lia.
    destruct (get_in_range s e He) as [c2 Hc2].
    assert (Hs2 : isspace c2 = false).
    { destruct B3 as [B3|B3]; [|exact (B3 c2 Hc2)].
      rewrite B3 in Hc2. congruence. }
    assert (Hlen : String.length (str_trim s) = (e + 1 - st)%nat).
    { rewrite Htrim. apply length_substring. lia. }
    assert (Hfirst : get 0 (str_trim s) = Some c1).
    { rewrite Htrim, get_substring by lia. now rewrite Nat.add_0_r. }
    assert (Hlast : get (String.length (str_trim s) - 1) (str_trim s)
                    = Some c2).
    { rewrite Hlen, Htrim, get_substring by lia.
      replace (st + (e + 1 - st - 1))%nat with e by lia. exact Hc2. }
    split; [|split; [|split]].
    + unfold trim. fold st. rewrite Hc1, Htrim. fold e.
      replace (st + (String.length s - st) - 1)%nat
        with (String.length s - 1)%nat by lia.
      reflexivity.
    + exists (substring 0 st s),
        (substring (e + 1) (String.length s - (e + 1)) s).
      split; [|split].
      * rewrite Htrim.
        pose proof (substring_split s st L1) as Hsplit.
        replace (String.length s - st)%nat
          with ((e + 1 - st) + (String.length s - (e + 1)))%nat
          in Hsplit by lia.
        rewrite substring_add in Hsplit.
        replace (st + (e + 1 - st))%nat with (e + 1)%nat in Hsplit by lia.
        exact Hsplit.
      * apply all_chars_substring. intros i Hi _. apply L2. lia.
      * apply all_chars_substring. intros i Hi Hil. apply B2. lia.
    + right. exists c1, c2. auto.
    + exact (str_trim_fixed _ c1 c2 Hfirst Hs1 Hlast Hs2).
Qed.

(* ================================================================= *)
(** ** The CSV writer *)

Lemma string_app_assoc (a b c : string) :
  ((a ++ b) ++ c = a ++ (b ++ c))%string.
Proof. induction a as [|x a IH]; [reflexivity|]. cbn. now rewrite IH. Qed.

Lemma string_app_nil_r (a : string) : (a ++ EmptyString)%string = a.
Proof. induction a as [|x a IH]; [reflexivity|]. cbn. now rewrite IH. Qed.

Lemma csv_add_fields_buffer buffer values :
  csv_add_fields buffer values
  = (buffer ++ csv_add_fields EmptyString values)%string.
Proof.
  revert buffer. induction values as [|v rest IH]; intros buffer.
  - cbn. now rewrite string_app_nil_r.
  - cbn [csv_add_fields]. unfold csv_append. destruct rest as [|v' rest].
    + reflexivity.
    + rewrite IH. rewrite (IH ((EmptyString ++ _) ++ _)%string).
      cbn [append]. now rewrite !string_app_assoc.
Qed.

Lemma needs_escape_false c :
  needs_escape c = false ->
  (c =? comma)%char = false /\ (c =? newline)%char = false /\
  (c =? quote)%char = false.
Proof.
  unfold needs_escape. intros H.
  apply orb_false_iff in H. destruct H as [H _].
  apply orb_false_iff in H. destruct H as [H H3].
  apply orb_false_iff in H. destruct H as [H1 H2]. auto.
Qed.

(** The reader over a field that was written as it is. *)
Lemma csv_read_plain f :
  field_needs_escape f = false ->
  forall st cur done tail,
    st = AtFieldStart \/ st = InPlainField ->
    csv_read st cur done (f ++ String comma tail)
    = csv_read AtFieldStart EmptyString
        (done ++ [(cur ++ f)%string])%list tail /\
    csv_read st cur done (f ++ String newline tail)
    = Some ((done ++ [(cur ++ f)%string])%list, tail).
Proof.
  induction f as [|c f IH]; intros Hf st cur done tail Hst.
  - rewrite string_app_nil_r. cbn [append].
    destruct Hst as [-> | ->]; split; reflexivity.
  - cbn [field_needs_escape] in Hf. apply orb_false_iff in Hf.
    destruct Hf as [Hc Hf]. apply needs_escape_false in Hc.
    destruct Hc as (H1 & H2 & H3).
    specialize (IH Hf InPlainField (cur ++ String c EmptyString)%string
                  done tail (or_intror eq_refl)).
    rewrite string_app_assoc in IH. cbn [append] in IH.
    cbn [append].
    destruct Hst as [-> | ->]; cbn [csv_read]; rewrite H1, H2, H3;
      exact IH.
Qed.

(** The reader inside a field that was written between quotes. *)
Lemma csv_read_quoted f :
  forall cur done tail,
    csv_read InQuotedField cur done
      (double_quotes f ++ String quote (String comma tail))
    = csv_read AtFieldStart EmptyString
        (done ++ [(cur ++ f)%string])%list tail /\
    csv_read InQuotedField cur done
      (double_quotes f ++ String quote (String newline tail))
    = Some ((done ++ [(cur ++ f)%string])%list, tail).
Proof.
  induction f as [|c f IH]; intros cur done tail.
  - rewrite string_app_nil_r. split; reflexivity.
  - cbn [double_quotes].
    specialize (IH (cur ++ String c EmptyString)%string done tail).
    rewrite string_app_assoc in IH. cbn [append] in IH.
    destruct (Ascii.eqb_spec c quote) as [->|Hne].
    + cbn [append csv_read]. rewrite Ascii.eqb_refl. exact IH.
    + cbn [append csv_read].
      apply Ascii.eqb_neq in Hne. rewrite Hne. exact IH.
Qed.

Lemma csv_read_field v done tail :
  csv_read AtFieldStart EmptyString done
    (csv_escape_field v ++ String comma tail)
  = csv_read AtFieldStart EmptyString (done ++ [field_text v])%list tail /\
  csv_read AtFieldStart EmptyString done
    (csv_escape_field v ++ String newline tail)
  = Some ((done ++ [field_text v])%list, tail).
Proof.
  destruct v as [f|]; cbn [csv_escape_field field_text];
    [|split; reflexivity].
  destruct (field_needs_escape f) eqn:E.
  - cbn [append]. rewrite !string_app_assoc. cbn [append csv_read].
    change (quote =? comma)%char with false.
    change (quote =? newline)%char with false.
    rewrite Ascii.eqb_refl.
    exact (csv_read_quoted f EmptyString done tail).
  - exact (csv_read_plain f E AtFieldStart EmptyString done tail
             (or_introl eq_refl)).
Qed.

Lemma csv_add_fields_more buffer v v' rest :
  csv_add_fields buffer (v :: v' :: rest)
  = csv_add_fields
      (csv_append (csv_append buffer (csv_escape_field v))
         (String comma EmptyString))
      (v' :: rest).
Proof. reflexivity. Qed.

Lemma csv_read_fields values :
  values <> [] ->
  forall done tail,
    csv_read AtFieldStart EmptyString done
      (csv_add_fields EmptyString values ++ String newline tail)
    = Some ((done ++ map field_text values)%list, tail).
Proof.
  induction values as [|v rest IH]; intros Hne done tail; [now elim Hne|].
  destruct rest as [|v' rest].
  - cbn [csv_add_fields map]. unfold csv_append. cbn [append].
    apply csv_read_field.
  - rewrite csv_add_fields_more. unfold csv_append. cbn [append].
    rewrite csv_add_fields_buffer, !string_app_assoc. cbn [append].
    rewrite (proj1 (csv_read_field v done _)).
    rewrite IH by discriminate.
    cbn [map]. now rewrite <- app_assoc.
Qed.

Lemma length_double_quotes f :
  String.length (double_quotes f)
  = (String.length f + count_quotes f)%nat.
Proof.
  induction f as [|c f IH]; [reflexivity|].
  cbn [double_quotes count_quotes String.length].
  destruct (c =? quote)%char; cbn [String.length]; rewrite IH; lia.
Qed.

(** X20: what the CSV writer writes reads back.  A row of at least one
    value, written by [csv_add_row] (or [csv_add_header], which is the
    same code) and followed by any text, is read by a reader of RFC 4180
    as exactly the values written, a NULL value as the empty field, with
    that text left over - whatever commas, quotes and line breaks the
    values hold.  The row is appended to the buffer and nothing before
    it changes.  A field is written as it is unless it holds a comma, a
    quote, a line feed or a carriage return; otherwise the text written
    has exactly the [escaped_len] characters that the code allocates
    for. *)
Theorem csv_rows_read_back :
  forall values buffer rest,
    values <> [] ->
    csv_read_record (csv_add_row EmptyString values ++ rest)
    = Some (map field_text values, rest) /\
    csv_add_row buffer values
    = (buffer ++ csv_add_row EmptyString values)%string /\
    csv_add_header buffer values = csv_add_row buffer values /\
    (forall f,
        (field_needs_escape f = false -> csv_escape_field (Some f) = f) /\
        (field_needs_escape f = true ->
         String.length (csv_escape_field (Some f)) = escaped_len f)).
Proof.
  intros values buffer rest Hne. split; [|split; [|split]].
  - unfold csv_read_record, csv_add_row, csv_append.
    rewrite string_app_assoc. cbn [append].
    exact (csv_read_fields values Hne [] rest).
  - unfold csv_add_row, csv_append.
    rewrite csv_add_fields_buffer. now rewrite string_app_assoc.
  - reflexivity.
  - intros f. unfold csv_escape_field, escaped_len. split; intros ->.
    + reflexivity.
    + cbn [String.length]. rewrite string_length_app, length_double_quotes.
      cbn [String.length]. lia.
Qed.

Lemma csv_rows_read_back_witness :
  csv_read_record
    (csv_add_row EmptyString
       [Some "Smith, J."%string; None; Some "5"%string]
     ++ "next")
  = Some (["Smith, J."; EmptyString; "5"]%string, "next"%string).
Proof.
  apply (csv_rows_read_back [Some "Smith, J."%string; None; Some "5"%string]
           EmptyString "next").
  discriminate.
Defined.

(* ================================================================= *)
(** ** The Content-Length header *)

Lemma content_length_is_one v :
  is_content_length ("Content-Length" ++ ": " ++ v) = true.
Proof. reflexivity. Qed.

Lemma response_add_header_room resp name value :
  (List.length (resp_headers resp) < MAX_RESPONSE_HEADERS)%nat ->
  response_add_header resp name value
  = mk_response (status_code resp) (status_message resp)
      (resp_headers resp ++ [(name ++ ": " ++ value)%string])%list
      (resp_body resp).
Proof.
  intros H. unfold response_add_header.
  destruct (Nat.leb_spec MAX_RESPONSE_HEADERS
              (List.length (resp_headers resp))); [lia|reflexivity].
Qed.

Lemma remove_content_length_facts hs :
  filter is_content_length (remove_content_length hs)
  = tl (filter is_content_length hs) /\
  filter (fun h => negb (is_content_length h)) (remove_content_length hs)
  = filter (fun h => negb (is_content_length h)) hs /\
  (filter is_content_length hs <> [] ->
   S (List.length (remove_content_length hs)) = List.length hs).
Proof.
  induction hs as [|h hs (IH1 & IH2 & IH3)];
    [cbn; repeat split; intros H; now elim H|].
  cbn [remove_content_length filter].
  destruct (is_content_length h) eqn:E; cbn [negb tl].
  - repeat split; reflexivity.
  - cbn [filter]. rewrite E. cbn [negb List.length].
    split; [exact IH1|]. split; [now rewrite IH2|].
    intros H. now rewrite (IH3 H).
Qed.

Lemma response_set_body_headers resp b :
  (List.length (resp_headers resp) < MAX_RESPONSE_HEADERS)%nat ->
  response_set_body resp b
  = mk_response (status_code resp) (status_message resp)
      (resp_headers resp
       ++ [("Content-Length" ++ ": "
            ++ decimal (Z.of_nat (String.length b)))%string])%list b.
Proof.
  intros H. unfold response_set_body.
  now rewrite response_add_header_room by exact H.
Qed.

Lemma response_append_body_keeps resp data :
  (List.length (resp_headers resp) <= MAX_RESPONSE_HEADERS)%nat ->
  content_lengths resp = [content_length_header resp] ->
  let r := response_append_body resp data in
  (List.length (resp_headers r) <= MAX_RESPONSE_HEADERS)%nat /\
  content_lengths r = [content_length_header r] /\
  resp_body r = (resp_body resp ++ data)%string /\
  status_code r = status_code resp /\
  filter (fun h => negb (is_content_length h)) (resp_headers r)
  = filter (fun h => negb (is_content_length h)) (resp_headers resp).
Proof.
  intros Hlen Hcl. cbv zeta. unfold response_append_body.
  destruct (remove_content_length_facts (resp_headers resp))
    as (R1 & R2 & R3).
  unfold content_lengths in Hcl. rewrite Hcl in R1, R3. cbn [tl] in R1.
  specialize (R3 ltac:(discriminate)).
  rewrite response_add_header_room by (cbn [resp_headers]; lia).
  unfold content_lengths, content_length_header.
  cbn [resp_headers resp_body status_code].
  rewrite !filter_app, R1, R2. cbn [filter].
  rewrite content_length_is_one. cbn [negb].
  rewrite length_app. cbn [List.length app].
  rewrite app_nil_r. repeat split; try reflexivity. lia.
Qed.

Lemma length_headers_text hs :
  String.length (fold_right (fun h acc => h ++ crlf ++ acc)%string
                   EmptyString hs)
  = fold_right (fun h acc => String.length h + 2 + acc)%nat 0%nat hs.
Proof.
  induction hs as [|h hs IH]; [reflexivity|].
  cbn [fold_right]. rewrite !string_length_app, IH.
  change (String.length crlf) with 2%nat. lia.
Qed.

(** X21: the [Content-Length] header follows the body.  On a response
    with room for a header and without a [Content-Length], as handlers
    build it, [response_set_body] followed by any number of
    [response_append_body] leaves the chunks concatenated as the body
    and exactly one [Content-Length] header, which states the length of
    that body; the other headers and the status are as before.  The
    text that [response_build] writes for it has one character less
    than the [total_size] it allocates, so the terminating zero fits
    exactly.  A second [response_set_body], however, does not replace
    the header: the stale one stays in front of the new one. *)
Theorem content_length_follows_the_body :
  forall resp b chunks,
    (List.length (resp_headers resp) < MAX_RESPONSE_HEADERS)%nat ->
    content_lengths resp = [] ->
    let r := fold_left response_append_body chunks
               (response_set_body resp b) in
    resp_body r = fold_left append chunks b /\
    content_lengths r = [content_length_header r] /\
    filter (fun h => negb (is_content_length h)) (resp_headers r)
    = resp_headers resp /\
    status_code r = status_code resp /\
    (String.length (response_build r) + 1)%nat = response_total_size r /\
    ((List.length (resp_headers resp) + 1 < MAX_RESPONSE_HEADERS)%nat ->
     forall b2,
       content_lengths (response_set_body (response_set_body resp b) b2)
       = [content_length_header (response_set_body resp b);
          content_length_header
            (response_set_body (response_set_body resp b) b2)]).
Proof.
  intros resp b chunks Hroom Hnone. cbv zeta.
  assert (Hplain : filter (fun h => negb (is_content_length h))
                     (resp_headers resp) = resp_headers resp).
  { unfold content_lengths in Hnone.
    induction (resp_headers resp) as [|h hs IH]; [reflexivity|].
    cbn [filter] in *. destruct (is_content_length h); [discriminate Hnone|].
    cbn [negb]. f_equal. apply IH; [cbn in Hroom; lia|exact Hnone]. }
  assert (Hset : response_set_body resp b
                 = mk_response (status_code resp) (status_message resp)
                     (resp_headers resp
                      ++ [("Content-Length" ++ ": "
                           ++ decimal (Z.of_nat (String.length b)))%string])
                     b)
    by (apply response_set_body_headers; exact Hroom).
  assert (Hinv : forall r0 cs,
             (List.length (resp_headers r0) <= MAX_RESPONSE_HEADERS)%nat ->
             content_lengths r0 = [content_length_header r0] ->
             let r := fold_left response_append_body cs r0 in
             resp_body r = fold_left append cs (resp_body r0) /\
             content_lengths r = [content_length_header r] /\
             filter (fun h => negb (is_content_length h)) (resp_headers r)
             = filter (fun h => negb (is_content_length h))
                 (resp_headers r0) /\
             status_code r = status_code r0).
  { intros r0 cs. revert r0.
    induction cs as [|c cs IH]; intros r0 Hl Hc; cbn [fold_left].
    - auto.
    - destruct (response_append_body_keeps r0 c Hl Hc)
        as (K1 & K2 & K3 & K4 & K5).
      destruct (IH _ K1 K2) as (I1 & I2 & I3 & I4).
      rewrite I1, I3, I4, K3, K4, K5. auto. }
  destruct (Hinv (response_set_body resp b) chunks) as (I1 & I2 & I3 & I4).
  { rewrite Hset. cbn [resp_headers]. rewrite length_app. cbn. 
    unfold MAX_RESPONSE_HEADERS in *. lia. }
  { rewrite Hset. unfold content_lengths, content_length_header.
    cbn [resp_headers resp_body]. rewrite filter_app.
    unfold content_lengths in Hnone. rewrite Hnone. reflexivity. }
  split; [rewrite I1, Hset; reflexivity|]. split; [exact I2|].
  split.
  { rewrite I3, Hset. cbn [resp_headers]. rewrite filter_app, Hplain.
    cbn [filter]. rewrite content_length_is_one. cbn [negb].
    apply app_nil_r. }
  split; [rewrite I4, Hset; reflexivity|]. split.
  { unfold response_build, response_total_size.
    rewrite !string_length_app, length_headers_text.
    change (String.length crlf) with 2%nat. lia. }
  intros Hroom2 b2.
  rewrite (response_set_body_headers (response_set_body resp b) b2)
    by (rewrite Hset; cbn [resp_headers]; rewrite length_app; cbn;
        unfold MAX_RESPONSE_HEADERS in *; lia).
  unfold content_lengths, content_length_header.
  cbn [resp_headers resp_body]. rewrite Hset. cbn [resp_headers resp_body].
  rewrite !filter_app. unfold content_lengths in Hnone. rewrite Hnone.
  reflexivity.
Qed.

Lemma content_length_follows_the_body_witness :
  content_lengths
    (fold_left response_append_body ["<p>"; "report"; "</p>"]%string
       (response_set_body
          (response_set_content_type response_new "text/html") "<html>"))
  = ["Content-Length: 19"%string].
Proof.
  destruct (content_length_follows_the_body
              (response_set_content_type response_new "text/html")
              "<html>" ["<p>"; "report"; "</p>"]%string)
    as (Hbody & Hcl & _).
  - cbn. unfold MAX_RESPONSE_HEADERS. lia.
  - reflexivity.
  - rewrite Hcl. unfold content_length_header. rewrite Hbody. reflexivity.
Defined.

(* ================================================================= *)
(** ** Cookies by name *)

Lemma cookie_named_exact name' name value :
  all_chars (fun c => negb (c =? "=")%char) name' = true ->
  all_chars (fun c => negb (c =? "=")%char) name = true ->
  cookie_named name' (cookie_pair name value) = (name' =? name)%string.
Proof.
  unfold cookie_named, cookie_pair.
  revert name. induction name' as [|a' n' IH]; intros [|a n] H' H;
    cbn [all_chars] in H', H.
  - reflexivity.
  - apply andb_true_iff in H. destruct H as [Ha _].
    cbn [append prefix String.length get andb String.eqb].
    apply negb_true_iff in Ha. exact Ha.
  - apply andb_true_iff in H'. destruct H' as [Ha' _].
    apply negb_true_iff, Ascii.eqb_neq in Ha'.
    cbn [append prefix String.eqb].
    destruct (ascii_dec a' "="); [contradiction|reflexivity].
  - apply andb_true_iff in H'. destruct H' as [_ H'].
    apply andb_true_iff in H. destruct H as [_ H].
    cbn [append prefix String.length get String.eqb].
    destruct (ascii_dec a' a) as [->|Hne].
    + rewrite Ascii.eqb_refl. exact (IH n H' H).
    + apply Ascii.eqb_neq in Hne. now rewrite Hne.
Qed.

(** X22: cookies are found by their exact name.  For names without
    [=], [request_get_cookie] on a cookie list that starts with the pair
    [name=value] answers the value when asked for that name, whatever
    the value holds, and otherwise goes on to the other cookies: neither
    a prefix of the name nor a longer name is taken for it. *)
Theorem cookies_are_found_by_name :
  forall name' name value cs req,
    all_chars (fun c => negb (c =? "=")%char) name' = true ->
    all_chars (fun c => negb (c =? "=")%char) name = true ->
    cookies req = cookie_pair name value :: cs ->
    request_get_cookie req name'
    = if (name' =? name)%string then Some value else find_cookie name' cs.
Proof.
  intros name' name value cs req H' H Hreq.
  unfold request_get_cookie. rewrite Hreq.
  destruct (String.eqb_spec name' name) as [->|Hne].
  - apply find_cookie_pair.
  - cbn [find_cookie]. rewrite (cookie_named_exact _ _ _ H' H).
    apply String.eqb_neq in Hne. now rewrite Hne.
Qed.

Lemma cookies_are_found_by_name_witness :
  request_get_cookie sample_request "session" = None.
Proof.
  apply (cookies_are_found_by_name "session" login_cookie_name "c0ffee" []
           sample_request); reflexivity.
Defined.

(* ================================================================= *)
(** ** Splitting *)

Lemma joined_app d a b :
  joined d (a ++ b)%list = (joined d a ++ joined d b)%string.
Proof.
  induction a as [|p a IH]; [reflexivity|].
  cbn [app joined]. rewrite IH, string_app_assoc. reflexivity.
Qed.

Lemma count_char_app d a b :
  count_char d (a ++ b) = (count_char d a + count_char d b)%nat.
Proof.
  induction a as [|c a IH]; [reflexivity|].
  cbn [append count_char]. destruct (c =? d)%char; rewrite IH; reflexivity.
Qed.

Lemma str_split_loop_count p d cur parts max_parts :
  Z.of_nat (List.length parts) <= Z.max 0 max_parts ->
  Z.of_nat (List.length (str_split_loop p d cur parts max_parts))
  <= Z.max 0 max_parts.
Proof.
  revert cur parts. induction p as [|c p IH]; intros cur parts H;
    cbn [str_split_loop].
  - destruct (Z.ltb_spec (Z.of_nat (List.length parts)) max_parts);
      cbn [andb]; [|exact H].
    destruct (negb (cur =? EmptyString)%string); [|exact H].
    rewrite length_app. cbn [List.length]. lia.
  - destruct (Z.ltb_spec (Z.of_nat (List.length parts)) max_parts);
      [|exact H].
    destruct (c =? d)%char; apply IH; [|exact H].
    rewrite length_app. cbn [List.length]. lia.
Qed.

Lemma str_split_loop_clean p d cur parts max_parts :
  Forall (fun part => count_char d part = 0%nat) parts ->
  count_char d cur = 0%nat ->
  Forall (fun part => count_char d part = 0%nat)
    (str_split_loop p d cur parts max_parts).
Proof.
  revert cur parts. induction p as [|c p IH]; intros cur parts Hp Hc;
    cbn [str_split_loop].
  - destruct ((Z.of_nat (List.length parts) <? max_parts)
              && negb (cur =? EmptyString)%string); [|exact Hp].
    apply Forall_app. split; [exact Hp|]. constructor; [exact Hc|constructor].
  - destruct (Z.of_nat (List.length parts) <? max_parts); [|exact Hp].
    destruct (Ascii.eqb_spec c d) as [->|Hne].
    + apply IH; [|reflexivity].
      apply Forall_app. split; [exact Hp|].
      constructor; [exact Hc|constructor].
    + apply IH; [exact Hp|].
      rewrite count_char_app, Hc. cbn [count_char].
      apply Ascii.eqb_neq in Hne. now rewrite Hne.
Qed.

Lemma str_split_loop_text p d cur parts max_parts :
  Z.of_nat (List.length parts + count_char d p) < max_parts ->
  joined d (str_split_loop p d cur parts max_parts)
  = (joined d parts ++ cur ++ p)%string \/
  joined d (str_split_loop p d cur parts max_parts)
  = (joined d parts ++ cur ++ p ++ String d EmptyString)%string.
Proof.
  revert cur parts. induction p as [|c p IH]; intros cur parts H;
    cbn [str_split_loop count_char] in *.
  - destruct (Z.ltb_spec (Z.of_nat (List.length parts)) max_parts); [|lia].
    cbn [andb]. destruct (String.eqb_spec cur EmptyString) as [->|Hne];
      cbn [negb].
    + left. cbn [append]. now rewrite string_app_nil_r.
    + right. rewrite joined_app. cbn [joined append]. reflexivity.
  - destruct (Z.ltb_spec (Z.of_nat (List.length parts)) max_parts); [|lia].
    destruct (Ascii.eqb_spec c d) as [->|Hne].
    + destruct (IH EmptyString (parts ++ [cur])%list) as [E|E].
      * rewrite length_app. cbn [List.length]. lia.
      * left. rewrite E, joined_app. cbn [joined append].
        rewrite !string_app_assoc. cbn [append]. reflexivity.
      * right. rewrite E, joined_app. cbn [joined append].
        rewrite !string_app_assoc. cbn [append]. reflexivity.
    + destruct (IH (cur ++ String c EmptyString)%string parts H) as [E|E].
      * left. rewrite E, !string_app_assoc. reflexivity.
      * right. rewrite E, !string_app_assoc. reflexivity.
Qed.

(** X23: [str_split] stores at most [max_parts] parts and none if
    [max_parts] is not positive; no part holds the delimiter; and if
    [max_parts] exceeds the number of delimiters in the string, nothing
    is lost: the parts, each followed by the delimiter, spell the string
    itself, or the string and one more delimiter when it did not end
    with one. *)
Theorem str_split_keeps_the_text :
  forall str d max_parts,
    Z.of_nat (List.length (str_split str d max_parts)) <= Z.max 0 max_parts /\
    Forall (fun part => count_char d part = 0%nat)
      (str_split str d max_parts) /\
    (Z.of_nat (count_char d str) < max_parts ->
     joined d (str_split str d max_parts) = str \/
     joined d (str_split str d max_parts)
     = (str ++ String d EmptyString)%string).
Proof.
  intros str d max_parts. unfold str_split. split; [|split].
  - apply str_split_loop_count. cbn. lia.
  - apply str_split_loop_clean; [constructor|reflexivity].
  - intros H.
    destruct (str_split_loop_text str d EmptyString [] max_parts) as [E|E];
      [exact H|left; exact E|right; exact E].
Qed.

(* ================================================================= *)
(** ** Adding routes *)

Lemma router_handle_request_app l1 l2 req :
  router_handle_request (l1 ++ l2) req
  = match matched_route l1 req with
    | Some _ => router_handle_request l1 req
    | None => router_handle_request l2 req
    end.
Proof.
  unfold matched_route. induction l1 as [|r l1 IH]; [reflexivity|].
  cbn [app router_handle_request find].
  destruct (route_matches r req); [reflexivity|exact IH].
Qed.

(** X24: the first route wins.  [router_add_route] never lets the table
    grow beyond [MAX_ROUTES] and ignores a route added to a full table.
    A route added later never changes the answer to a request that an
    earlier route matches; a request that no earlier route matches is
    answered through the new route if it matches and the table had
    room, and with 404 otherwise. *)
Theorem first_route_wins :
  forall routes m p h auth admin req,
    ((List.length routes <= MAX_ROUTES)%nat ->
     (List.length (router_add_route routes m p h auth admin)
      <= MAX_ROUTES)%nat) /\
    ((MAX_ROUTES <= List.length routes)%nat ->
     router_add_route routes m p h auth admin = routes) /\
    (matched_route routes req <> None ->
     router_handle_request (router_add_route routes m p h auth admin) req
     = router_handle_request routes req) /\
    (matched_route routes req = None ->
     router_handle_request (router_add_route routes m p h auth admin) req
     = if (List.length routes <? MAX_ROUTES)%nat
          && route_matches (mk_route m p h auth admin) req
       then router_handle_request [mk_route m p h auth admin] req
       else ret not_found_response).
Proof.
  intros routes m p h auth admin req. unfold router_add_route.
  destruct (Nat.leb_spec MAX_ROUTES (List.length routes)) as [Hfull|Hroom].
  - split; [auto|]. split; [auto|]. split; [auto|].
    intros Hnone.
    destruct (Nat.ltb_spec (List.length routes) MAX_ROUTES); [lia|].
    cbn [andb]. apply router_handle_request_unmatched. exact Hnone.
  - split; [intros _; rewrite length_app; cbn [List.length]; lia|].
    split; [intros H; lia|].
    rewrite router_handle_request_app. split.
    + destruct (matched_route routes req); [reflexivity|].
      intros H. now elim H.
    + intros ->.
      destruct (Nat.ltb_spec (List.length routes) MAX_ROUTES); [|lia].
      cbn [andb router_handle_request].
      destruct (route_matches (mk_route m p h auth admin) req); reflexivity.
Qed.

(* ================================================================= *)
(** ** Unknown texts in a subscription row *)

Lemma unknown_plan_text s :
  (forall p, s <> subscription_plan_to_string p) ->
  subscription_string_to_plan s = PLAN_FREE.
Proof.
  intros H. unfold subscription_string_to_plan.
  destruct (String.eqb_spec s "free"); [reflexivity|].
  destruct (String.eqb_spec s "pro"); [now elim (H PLAN_PRO)|].
  destruct (String.eqb_spec s "enterprise");
    [now elim (H PLAN_ENTERPRISE)|reflexivity].
Qed.

Lemma unknown_status_text s :
  (forall st, s <> subscription_status_to_string st) ->
  subscription_string_to_status s = STATUS_EXPIRED.
Proof.
  intros H. unfold subscription_string_to_status.
  destruct (String.eqb_spec s "active"); [now elim (H STATUS_ACTIVE)|].
  destruct (String.eqb_spec s "grace_period");
    [now elim (H STATUS_GRACE_PERIOD)|].
  destruct (String.eqb_spec s "expired"); [reflexivity|].
  destruct (String.eqb_spec s "cancelled");
    [now elim (H STATUS_CANCELLED)|reflexivity].
Qed.

(** X25: texts that the engine does not know are read to the safe side.
    The plan and status names are read back as the plan and status they
    were written for.  A row whose plan text is none of the three names
    reads as the free plan, so that at most the basic reports and seven
    days are granted; a row whose status text is none of the four names
    reads as expired, so that without a grace period it is not valid at
    any time and every entitlement check on it answers 0. *)
Theorem unknown_texts_fail_closed :
  forall row,
    (forall p, subscription_string_to_plan (subscription_plan_to_string p)
               = p) /\
    (forall s, subscription_string_to_status
                 (subscription_status_to_string s) = s) /\
    ((forall p, sr_plan row <> subscription_plan_to_string p) ->
     plan (subscription_of_row row) = PLAN_FREE /\
     forall feature,
       plan_grants (plan (subscription_of_row row)) feature = true ->
       feature = FEATURE_BASIC_REPORTS) /\
    ((forall s, sr_status row <> subscription_status_to_string s) ->
     status (subscription_of_row row) = STATUS_EXPIRED /\
     ((sr_grace_until row = None \/ sr_grace_until row = Some 0) ->
      forall now acc feature w,
        subscription_is_valid now (subscription_of_row row) = false /\
        (select_subscription acc (w_db w) = Some row ->
         fst (entitlement_has_feature now acc feature w) = false /\
         fst (entitlement_get_max_report_days now acc w) = 7))).
Proof.
  intros row. split; [exact plan_text_roundtrip|].
  split; [exact status_text_roundtrip|]. split.
  - intros H. cbn [subscription_of_row plan].
    rewrite (unknown_plan_text _ H). split; [reflexivity|].
    intros feature Hg. destruct feature; try discriminate Hg. reflexivity.
  - intros H. cbn [subscription_of_row status].
    rewrite (unknown_status_text _ H). split; [reflexivity|].
    intros Hgrace now acc feature w.
    assert (Hinvalid : subscription_is_valid now (subscription_of_row row)
                       = false).
    { unfold subscription_is_valid, in_grace.
      cbn [subscription_of_row status grace_until].
      rewrite (unknown_status_text _ H). cbn [status_lapsed].
      destruct Hgrace as [-> | ->]; reflexivity. }
    split; [exact Hinvalid|]. intros Hsel.
    rewrite entitlement_has_feature_answer,
      entitlement_get_max_report_days_answer.
    cbn [fst]. rewrite Hsel, Hinvalid.
    destruct (lookup_fails w); split; reflexivity.
Qed.

(* ================================================================= *)
(** ** Accounts and passwords *)

Lemma auth_authenticate_user_answer crypt email password w :
  auth_authenticate_user crypt email password w =
  (if lookup_fails w then -1
   else match select_user_by_email email (w_db w) with
        | Some u =>
            if us_is_active u =? 0 then -1
            else if auth_verify_password crypt password (us_password_hash u)
            then us_id u else -1
        | None => -1
        end,
   mk_world (w_db w) (w_saved w)
     (if hd false (w_faults w) then tl (w_faults w)
      else tl (tl (w_faults w)))).
Proof.
  destruct w as [d sv fs].
  unfold auth_authenticate_user, db_prepare, sqlite3_step_query, bind, ret,
    next_fault, lookup_fails.
  destruct fs as [|[] [|[] fs]]; cbn -[select_user_by_email];
    try reflexivity;
    (destruct (select_user_by_email email d) as [u|]; [|reflexivity];
     destruct (us_is_active u =? 0); [reflexivity|];
     destruct (auth_verify_password crypt password (us_password_hash u));
     reflexivity).
Qed.

Lemma auth_create_user_outcome crypt hex account email password role w :
  let r := auth_create_user crypt hex account email password role w in
  w_saved (snd r) = w_saved w /\
  ((fst r = -1 /\ w_db (snd r) = w_db w) \/
   (exists stored,
       auth_hash_password crypt hex password 256 = Some stored /\
       (forall u, In u (users (w_db w)) -> us_email u <> email) /\
       fst r = next_rowid us_id (users (w_db w)) /\
       w_db (snd r)
       = mk_database (subscriptions (w_db w)) (billing_events (w_db w))
           (sessions (w_db w))
           (users (w_db w) ++
            [mk_user_row (next_rowid us_id (users (w_db w))) account email
               stored role 1]))).
Proof.
  destruct w as [d sv fs]. cbv zeta.
  unfold auth_create_user.
  destruct (auth_hash_password crypt hex password 256) as [stored|];
    [|cbn; auto].
  unfold db_prepare, sqlite3_step_write, current_database, bind, ret,
    next_fault, sql_insert_user.
  destruct (existsb (fun u => (us_email u =? email)%string) (users d))
    eqn:Hex;
    destruct fs as [|[] [|[] fs]]; cbn -[next_rowid]; rewrite ?Hex;
    cbn -[next_rowid]; (split; [reflexivity|]); auto;
    right; exists stored; (split; [reflexivity|]);
    (split; [|split; reflexivity]);
    intros u Hin E; apply String.eqb_eq in E;
    (assert (Ht : existsb (fun u => (us_email u =? email)%string) (users d)
                  = true)
      by (apply existsb_exists; exists u; auto));
    congruence.
Qed.

Lemma auth_authenticate_user_sound crypt email password w :
  w_db (snd (auth_authenticate_user crypt email password w)) = w_db w /\
  w_saved (snd (auth_authenticate_user crypt email password w)) = w_saved w /\
  (fst (auth_authenticate_user crypt email password w) = -1 \/
   exists u,
     In u (users (w_db w)) /\ us_email u = email /\ us_is_active u <> 0 /\
     auth_verify_password crypt password (us_password_hash u) = true /\
     lookup_fails w = false /\
     fst (auth_authenticate_user crypt email password w) = us_id u).
Proof.
  rewrite auth_authenticate_user_answer. cbn [fst snd w_db w_saved].
  split; [reflexivity|]. split; [reflexivity|].
  destruct (lookup_fails w); [left; reflexivity|].
  unfold select_user_by_email.
  destruct (find _ (users (w_db w))) as [u|] eqn:Hf; [|left; reflexivity].
  apply find_some in Hf. destruct Hf as [Hin E]. apply String.eqb_eq in E.
  destruct (Z.eqb_spec (us_is_active u) 0); [left; reflexivity|].
  destruct (auth_verify_password crypt password (us_password_hash u)) eqn:Hv;
    [|left; reflexivity].
  right. exists u. auto 10.
Qed.

(** X26: accounts and passwords.  [auth_authenticate_user] never writes;
    it answers -1, or the id of a user that has the email, is active and
    whose stored hash is what [crypt] makes of the password under that
    hash, and this only when the lookup did not fail in the store.
    [auth_create_user] answers -1 and changes nothing, or adds one
    active user with a positive id that no other user has and an email
    that no other user has, leaving the other tables alone; afterwards,
    whenever the lookup succeeds, authenticating with that email answers
    the new id exactly for the passwords that [crypt] maps to the stored
    hash, and -1 for the others. *)
Theorem created_users_authenticate :
  forall crypt hex account email password role w uid w1,
    auth_create_user crypt hex account email password role w = (uid, w1) ->
    (forall email' password' w',
        w_db (snd (auth_authenticate_user crypt email' password' w'))
        = w_db w' /\
        (fst (auth_authenticate_user crypt email' password' w') = -1 \/
         exists u,
           In u (users (w_db w')) /\ us_email u = email' /\
           us_is_active u <> 0 /\
           auth_verify_password crypt password' (us_password_hash u) = true /\
           lookup_fails w' = false /\
           fst (auth_authenticate_user crypt email' password' w') = us_id u))
    /\
    (uid = -1 -> w_db w1 = w_db w) /\
    (uid <> -1 ->
     0 < uid /\
     (forall u, In u (users (w_db w)) ->
                us_id u <> uid /\ us_email u <> email) /\
     exists stored,
       auth_hash_password crypt hex password 256 = Some stored /\
       users (w_db w1)
       = (users (w_db w)
          ++ [mk_user_row uid account email stored role 1])%list /\
       sessions (w_db w1) = sessions (w_db w) /\
       subscriptions (w_db w1) = subscriptions (w_db w) /\
       billing_events (w_db w1) = billing_events (w_db w) /\
       forall candidate fs,
         lookup_fails (with_faults fs w1) = false ->
         fst (auth_authenticate_user crypt email candidate
                (with_faults fs w1))
         = if auth_verify_password crypt candidate stored then uid else -1).
Proof.
  intros crypt hex account email password role w uid w1 Hrun.
  split.
  { intros email' password' w'.
    destruct (auth_authenticate_user_sound crypt email' password' w')
      as (H1 & _ & H2).
    split; assumption. }
  pose proof (auth_create_user_outcome crypt hex account email password role w)
    as Hout.
  cbv zeta in Hout. rewrite Hrun in Hout. cbn [fst snd] in Hout.
  destruct Hout as (_ & [[Hrc Hsame] | (stored & Hhash & Hfresh & Hid & Hdb)]).
  { split; [intros _; exact Hsame|]. intros H. contradiction. }
  assert (Hpos : 0 < uid).
  { rewrite Hid. unfold next_rowid.
    assert (0 <= fold_right (fun r m => Z.max (us_id r) m) 0 (users (w_db w))).
    { clear. induction (users (w_db w)) as [|a l IH]; cbn [fold_right];
        [lia|]. apply Z.max_le_iff. right. exact IH. }
    lia. }
  split; [intros E; lia|]. intros _.
  split; [exact Hpos|]. split.
  - intros u Hin. split; [|exact (Hfresh u Hin)].
    pose proof (next_rowid_above us_id _ u Hin). lia.
  - exists stored. split; [exact Hhash|].
    rewrite <- Hid in Hdb.
    split; [rewrite Hdb; reflexivity|].
    split; [rewrite Hdb; reflexivity|].
    split; [rewrite Hdb; reflexivity|].
    split; [rewrite Hdb; reflexivity|].
    intros candidate fs. rewrite auth_authenticate_user_answer.
    cbn [fst snd with_faults w_db].
    intros ->. unfold select_user_by_email. rewrite Hdb.
    cbn [users]. rewrite find_snoc.
    assert (Hnone : find (fun u => (us_email u =? email)%string)
                      (users (w_db w)) = None).
    { destruct (find _ (users (w_db w))) as [u|] eqn:Hf; [|reflexivity].
      apply find_some in Hf. destruct Hf as [Hin E].
      apply String.eqb_eq in E. now elim (Hfresh u Hin). }
    rewrite Hnone. cbn [us_email].
    rewrite String.eqb_refl.
    cbn [us_is_active us_password_hash us_id Z.eqb].
    destruct (auth_verify_password crypt candidate stored); reflexivity.
Qed.

Lemma created_users_authenticate_witness :
  fst (auth_authenticate_user sample_crypt "bob@example.com" "secret"
         (with_faults []
            (snd (auth_create_user sample_crypt (Some "00ff"%string) 1
                    "bob@example.com" "secret" "user" sample_world))))
  = 8.
Proof.
  destruct (created_users_authenticate sample_crypt (Some "00ff"%string) 1
              "bob@example.com" "secret" "user" sample_world 8
              (snd (auth_create_user sample_crypt (Some "00ff"%string) 1
                      "bob@example.com" "secret" "user" sample_world))
              eq_refl)
    as (_ & _ & Hok).
  destruct Hok as (_ & _ & stored & Hhash & _ & _ & _ & _ & Hauth);
    [discriminate|].
  rewrite (Hauth "secret"%string [] eq_refl).
  injection Hhash as <-. reflexivity.
Defined.
